(** * Scrape-to-PDF crawler (scraper.py): model and verified properties

    The development embeds the pure parts of [scraper.py] (URL utilities,
    the paragraph chunking of [make_pdf], the spider callbacks and the
    [/scrape] endpoint) as Rocq functions and proves the properties of the
    design document about them.

    Python [str] values are lists of Unicode code points, [bytes] values are
    lists of numbers below 256.  Functions of Python's standard library that
    the source calls ([urllib.parse], [re], [hashlib.md5], [str] methods) are
    transcribed from CPython 3.11. *)

From Stdlib Require Import ZArith NArith List Lia Bool String Ascii.
From stdpp Require Import base option list gmap strings.

Set Default Proof Using "Type".
Open Scope Z_scope.

(** ** Part I: definitions *)

(** *** Python strings *)

Abbreviation str := (list N).

(** A literal: the code points of an ASCII Rocq string. *)
Definition py (s : string) : str :=
  map N_of_ascii (list_ascii_of_string s).

(** [len(s)] as a Python integer. *)
Definition len (s : str) : Z := Z.of_nat (length s).

(** [s[:n]] and [s[n:]] for [n >= 0]. *)
Definition slice_to (n : Z) (s : str) : str := take (Z.to_nat n) s.
Definition slice_from (n : Z) (s : str) : str := drop (Z.to_nat n) s.

(** [s.find(c)] and [s.rfind(c)] for a one-character needle: the index of
    the first (last) occurrence, or -1. *)
Fixpoint str_find_from (i : Z) (c : N) (s : str) : Z :=
  match s with
  | [] => -1
  | x :: r => if N.eqb x c then i else str_find_from (i + 1) c r
  end.
Definition str_find (c : N) (s : str) : Z := str_find_from 0 c s.

Fixpoint str_rfind_from (i : Z) (c : N) (s : str) (last : Z) : Z :=
  match s with
  | [] => last
  | x :: r => str_rfind_from (i + 1) c r (if N.eqb x c then i else last)
  end.
Definition str_rfind (c : N) (s : str) : Z := str_rfind_from 0 c s (-1).

(** [c in s]. *)
Definition str_contains (c : N) (s : str) : bool := existsb (N.eqb c) s.

(** [s.startswith(p)]. *)
Fixpoint str_startswith (p s : str) : bool :=
  match p, s with
  | [], _ => true
  | a :: p', b :: s' => N.eqb a b && str_startswith p' s'
  | _ :: _, [] => false
  end.

Definition str_endswith (p s : str) : bool := str_startswith (rev p) (rev s).

(** [str.isspace] on one character; the regular expression class [\s] on
    [str] patterns is the same set. *)
Definition is_space (c : N) : bool :=
  ((9 <=? c) && (c <=? 13) || (28 <=? c) && (c <=? 32) || (c =? 133)
   || (c =? 160) || (c =? 5760) || (8192 <=? c) && (c <=? 8202)
   || (c =? 8232) || (c =? 8233) || (c =? 8239) || (c =? 8287)
   || (c =? 12288))%N.

(** [s.lstrip()], [s.rstrip()], [s.strip()]. *)
Fixpoint str_lstrip (s : str) : str :=
  match s with
  | c :: r => if is_space c then str_lstrip r else s
  | [] => []
  end.
Definition str_rstrip (s : str) : str := rev (str_lstrip (rev s)).
Definition str_strip (s : str) : str := str_rstrip (str_lstrip s).

(** ASCII case folding.  [str.lower] on a non-ASCII letter follows the
    Unicode tables, which the model leaves unchanged; the only code points
    outside ASCII whose lower case contains an ASCII letter are U+0130 and
    U+212A, and neither completes one of the prefixes tested in the source. *)
Definition lower_char (c : N) : N :=
  if ((65 <=? c) && (c <=? 90))%N then (c + 32)%N else c.
Definition str_lower (s : str) : str := map lower_char s.

Definition is_alnum (c : N) : bool :=
  ((48 <=? c) && (c <=? 57) || (65 <=? c) && (c <=? 90)
   || (97 <=? c) && (c <=? 122))%N.

(** [sep.join(parts)]. *)
Fixpoint str_join (sep : str) (parts : list str) : str :=
  match parts with
  | [] => []
  | [p] => p
  | p :: rest => p ++ sep ++ str_join sep rest
  end.

(** [s.split(sep)] for a one-character separator. *)
Fixpoint str_split_go (sep : N) (cur : str) (s : str) : list str :=
  match s with
  | [] => [cur]
  | c :: r => if N.eqb c sep then cur :: str_split_go sep [] r
              else str_split_go sep (cur ++ [c]) r
  end.
Definition str_split (sep : N) (s : str) : list str := str_split_go sep [] s.

(** *** make_pdf: paragraphs and chunks *)

(** The separator [\n\s*\n]: [blank_sep_len s] is, for the text [s] that
    follows a newline, the number of characters the greedy [\s*\n] consumes
    (it ends at the last newline of the white-space run), if it matches. *)
Fixpoint blank_sep_len (s : str) : option nat :=
  match s with
  | c :: r =>
      if is_space c then
        match blank_sep_len r with
        | Some n => Some (S n)
        | None => if N.eqb c 10 then Some 1%nat else None
        end
      else None
  | [] => None
  end.

(** [re.split(r"\n\s*\n", s)]: [skip] counts the characters of the current
    separator still to be dropped, [cur] is the piece being collected. *)
Fixpoint re_split_go (skip : nat) (cur : str) (s : str) : list str :=
  match s with
  | [] => [cur]
  | c :: r =>
      match skip with
      | S k => re_split_go k cur r
      | O =>
          if N.eqb c 10 then
            match blank_sep_len r with
            | Some n => cur :: re_split_go n [] r
            | None => re_split_go 0 (cur ++ [c]) r
            end
          else re_split_go 0 (cur ++ [c]) r
      end
  end.
Definition re_split_blank (s : str) : list str := re_split_go 0 [] s.

(** The fixed chunk size of [make_pdf]. *)
Definition chunk_size : Z := 1600.

(** One iteration of the body of [while para:], returning the emitted
    [piece] and the new value of [para]. *)
Definition chunk_step (para : str) : str * str :=
  let chunk := slice_to chunk_size para in
  let cut := str_rfind 32 chunk in
  if (cut =? -1) || (len para <=? chunk_size) then (para, [])
  else (slice_to cut para, slice_from (cut + 1) para).

(** The loop [while para: ...]; [None] when the fuel runs out before [para]
    is empty. *)
Fixpoint chunk_while (fuel : nat) (para : str) : option (list str) :=
  match para with
  | [] => Some []
  | _ :: _ =>
      match fuel with
      | O => None
      | S fuel' =>
          let '(piece, para') := chunk_step para in
          cons piece <$> chunk_while fuel' para'
      end
  end.

(** A piece fits the chunk size, unless its first [chunk_size] characters
    hold no space to cut at. *)
Definition piece_fits (piece : str) : Prop :=
  len piece <= chunk_size \/ str_rfind 32 (slice_to chunk_size piece) = -1.

(** The paragraphs of the body text: split on blank lines, falling back to
    the raw text when that gives fewer than two pieces. *)
Definition body_paragraphs (raw : str) : list str :=
  let paragraphs := re_split_blank (str_strip raw) in
  if (length paragraphs <? 2)%nat then [raw] else paragraphs.

(** The [for para in paragraphs] loop: the pieces rendered for the body, in
    order. *)
Fixpoint body_pieces (paragraphs : list str) : option (list str) :=
  match paragraphs with
  | [] => Some []
  | para :: rest =>
      let para := str_strip para in
      match para with
      | [] => body_pieces rest
      | _ :: _ =>
          pieces ← chunk_while (length para) para;
          more ← body_pieces rest;
          Some (pieces ++ more)
      end
  end.

(** [\s*\n] matches at the start of [s]: white space up to a newline. *)
Definition starts_blank (s : str) : Prop :=
  exists w t, s = w ++ 10%N :: t /\ forallb is_space w = true.

(** [\n\s*\n] matches somewhere in [s]: [s] holds a blank-line boundary. *)
Definition has_blank_boundary (s : str) : Prop :=
  exists a t, s = a ++ 10%N :: t /\ starts_blank t.

(** What [re.split(r"\n\s*\n", s)] returns, said without the scanning loop:
    either [s] holds no boundary and is the only piece, or [s] is a piece
    [p], a boundary and a rest that is split in the same way.  The boundary
    is the leftmost one (no boundary begins inside [p], not even one that
    ends with the newline after [p]) and the longest one (the rest does not
    go on with white space up to a further newline). *)
Inductive blank_split : str -> list str -> Prop :=
| blank_split_last (s : str) :
    ~ has_blank_boundary s ->
    blank_split s [s]
| blank_split_cut (p w rest : str) (ps : list str) :
    ~ has_blank_boundary (p ++ [10%N]) ->
    forallb is_space w = true ->
    ~ starts_blank rest ->
    blank_split rest ps ->
    blank_split (p ++ 10%N :: w ++ 10%N :: rest) (p :: ps).

(** *** Bytes and UTF-8 *)

Definition REPLACEMENT : N := 65533.

(** [s.encode("utf-8")] with the default [errors="strict"]: [None] stands
    for [UnicodeEncodeError] (a surrogate code point). *)
Definition utf8_encode_char (c : N) : option (list N) :=
  (if c <? 128 then Some [c]
   else if c <? 2048 then Some [192 + c / 64; 128 + c mod 64]
   else if (55296 <=? c) && (c <=? 57343) then None
   else if c <? 65536 then
     Some [224 + c / 4096; 128 + (c / 64) mod 64; 128 + c mod 64]
   else if c <? 1114112 then
     Some [240 + c / 262144; 128 + (c / 4096) mod 64;
           128 + (c / 64) mod 64; 128 + c mod 64]
   else None)%N.

Fixpoint utf8_encode (s : str) : option (list N) :=
  match s with
  | [] => Some []
  | c :: r =>
      b ← utf8_encode_char c;
      bs ← utf8_encode r;
      Some (b ++ bs)
  end.

Definition is_cont (b : N) : bool := ((128 <=? b) && (b <=? 191))%N.

(** [bs.decode("utf-8", "replace")], following CPython's decoder: an
    invalid start byte, or a lead byte with the continuation bytes that
    were accepted before the first bad one, becomes one U+FFFD, and a
    truncated sequence at the end of the input becomes one U+FFFD. *)
Fixpoint utf8_decode (bs : list N) : str :=
  match bs with
  | [] => []
  | ch :: r1 =>
      (if ch <? 128 then ch :: utf8_decode r1
       else if ch <? 194 then REPLACEMENT :: utf8_decode r1
       else if ch <? 224 then
         match r1 with
         | [] => [REPLACEMENT]
         | ch2 :: r2 =>
             if is_cont ch2
             then ((ch - 192) * 64 + (ch2 - 128)) :: utf8_decode r2
             else REPLACEMENT :: utf8_decode r1
         end
       else if ch <? 240 then
         match r1 with
         | [] => [REPLACEMENT]
         | ch2 :: r2 =>
             if negb (is_cont ch2)
                || (if ch2 <? 160 then ch =? 224 else ch =? 237)
             then REPLACEMENT :: utf8_decode r1
             else
               match r2 with
               | [] => [REPLACEMENT]
               | ch3 :: r3 =>
                   if is_cont ch3
                   then ((ch - 224) * 4096 + (ch2 - 128) * 64 + (ch3 - 128))
                          :: utf8_decode r3
                   else REPLACEMENT :: utf8_decode r2
               end
         end
       else if ch <? 245 then
         match r1 with
         | [] => [REPLACEMENT]
         | ch2 :: r2 =>
             if negb (is_cont ch2)
                || (if ch2 <? 144 then ch =? 240 else ch =? 244)
             then REPLACEMENT :: utf8_decode r1
             else
               match r2 with
               | [] => [REPLACEMENT]
               | ch3 :: r3 =>
                   if negb (is_cont ch3) then REPLACEMENT :: utf8_decode r2
                   else
                     match r3 with
                     | [] => [REPLACEMENT]
                     | ch4 :: r4 =>
                         if is_cont ch4
                         then ((ch - 240) * 262144 + (ch2 - 128) * 4096
                               + (ch3 - 128) * 64 + (ch4 - 128))
                                :: utf8_decode r4
                         else REPLACEMENT :: utf8_decode r3
                     end
               end
         end
       else REPLACEMENT :: utf8_decode r1)%N
  end.

(** *** urllib.parse: quoting *)

Definition is_hexdig (c : N) : bool :=
  ((48 <=? c) && (c <=? 57) || (65 <=? c) && (c <=? 70)
   || (97 <=? c) && (c <=? 102))%N.

Definition hexval (c : N) : N :=
  (if c <=? 57 then c - 48 else if c <=? 70 then c - 55 else c - 87)%N.

(** One upper-case hexadecimal digit. *)
Definition hexdigit_upper (d : N) : N :=
  (if d <? 10 then 48 + d else 55 + d)%N.

(** [unquote_to_bytes] on an ASCII string: every [%] followed by two
    hexadecimal digits is the byte they spell, any other [%] stays. *)
Fixpoint unquote_to_bytes (s : str) : list N :=
  match s with
  | [] => []
  | c :: r =>
      if (c =? 37)%N then
        match r with
        | h1 :: h2 :: r' =>
            if is_hexdig h1 && is_hexdig h2
            then (16 * hexval h1 + hexval h2)%N :: unquote_to_bytes r'
            else 37%N :: unquote_to_bytes r
        | _ => 37%N :: unquote_to_bytes r
        end
      else c :: unquote_to_bytes r
  end.

(** The body of [unquote]: [_asciire.split] cuts the string into maximal
    ASCII runs and the text between them; each run is percent-decoded and
    UTF-8 decoded with [errors="replace"], the rest is copied.  [run] is
    the ASCII run read so far. *)
Fixpoint unquote_go (run : str) (s : str) : str :=
  match s with
  | [] => utf8_decode (unquote_to_bytes run)
  | c :: r =>
      if (c <? 128)%N then unquote_go (run ++ [c]) r
      else utf8_decode (unquote_to_bytes run) ++ c :: unquote_go [] r
  end.

Definition unquote (s : str) : str :=
  if negb (str_contains 37 s) then s else unquote_go [] s.

(** [s.replace(a, b)] for single characters. *)
Definition str_replace (a b : N) (s : str) : str :=
  map (fun c => if N.eqb c a then b else c) s.

(** [_ALWAYS_SAFE]: letters, digits and [_.-~]. *)
Definition always_safe (b : N) : bool :=
  is_alnum b || ((b =? 95) || (b =? 46) || (b =? 45) || (b =? 126))%N.

(** [quote_from_bytes(bs, safe)]. *)
Definition quoter (safe : list N) (b : N) : str :=
  if always_safe b || str_contains b safe then [b]
  else [37%N; hexdigit_upper (b / 16)%N; hexdigit_upper (b mod 16)%N].

Definition quote_from_bytes (safe : list N) (bs : list N) : str :=
  flat_map (quoter safe) bs.

Definition quote (safe : list N) (s : str) : option str :=
  match s with
  | [] => Some []
  | _ :: _ => quote_from_bytes safe <$> utf8_encode s
  end.

Definition quote_plus (s : str) : option str :=
  if negb (str_contains 32 s) then quote [] s
  else str_replace 32 43 <$> quote [32%N] s.

(** [urlencode(query)] for a list of pairs of strings. *)
Fixpoint urlencode_items (q : list (str * str)) : option (list str) :=
  match q with
  | [] => Some []
  | (k, v) :: rest =>
      k' ← quote_plus k;
      v' ← quote_plus v;
      l ← urlencode_items rest;
      Some ((k' ++ [61%N] ++ v') :: l)
  end.

Definition urlencode (q : list (str * str)) : option str :=
  str_join [38%N] <$> urlencode_items q.

(** [s.partition(c)]: the text before the first [c], whether [c] occurs,
    and the text after it. *)
Fixpoint str_partition (c : N) (s : str) : str * bool * str :=
  match s with
  | [] => ([], false, [])
  | x :: r =>
      if N.eqb x c then ([], true, r)
      else let '(a, found, b) := str_partition c r in (x :: a, found, b)
  end.

(** [s.rpartition(c)]: when [c] does not occur the text is the third
    component. *)
Definition str_rpartition (c : N) (s : str) : str * bool * str :=
  let '(b, found, a) := str_partition c (rev s) in
  if found then (rev a, true, rev b) else ([], false, s).

(** [parse_qsl(qs, keep_blank_values=True)]. *)
Definition parse_field (name_value : str) : list (str * str) :=
  match name_value with
  | [] => []
  | _ :: _ =>
      let '(n, _, v) := str_partition 61 name_value in
      [(unquote (str_replace 43 32 n), unquote (str_replace 43 32 v))]
  end.

Definition parse_qsl (qs : str) : list (str * str) :=
  let query_args := match qs with [] => [] | _ :: _ => str_split 38 qs end in
  flat_map parse_field query_args.

(** *** urllib.parse: splitting and joining *)

Record SplitResult := mkSplit {
  u_scheme : str; u_netloc : str; u_path : str; u_query : str;
  u_fragment : str }.

Record ParseResult := mkParse {
  p_scheme : str; p_netloc : str; p_path : str; p_params : str;
  p_query : str; p_fragment : str }.

Definition uses_netloc : list str :=
  [] :: map py ["ftp"; "http"; "gopher"; "nntp"; "telnet"; "imap"; "wais";
                "file"; "mms"; "https"; "shttp"; "snews"; "prospero"; "rtsp";
                "rtspu"; "rsync"; "svn"; "svn+ssh"; "sftp"; "nfs"; "git";
                "git+ssh"; "ws"; "wss"]%string.

Definition uses_params : list str :=
  [] :: map py ["ftp"; "hdl"; "prospero"; "http"; "imap"; "https"; "shttp";
                "rtsp"; "rtspu"; "sip"; "sips"; "mms"; "sftp"; "tel"]%string.

Definition str_in (s : str) (l : list str) : bool := bool_decide (s ∈ l).

Definition nonempty (s : str) : bool :=
  match s with [] => false | _ :: _ => true end.

(** [scheme_chars]: letters, digits and [+-.]. *)
Definition is_scheme_char (c : N) : bool :=
  is_alnum c || ((c =? 43) || (c =? 45) || (c =? 46))%N.

Definition is_ascii_alpha (c : N) : bool :=
  ((65 <=? c) && (c <=? 90) || (97 <=? c) && (c <=? 122))%N.

(** [url.lstrip(_WHATWG_C0_CONTROL_OR_SPACE)]. *)
Fixpoint lstrip_c0 (s : str) : str :=
  match s with
  | c :: r => if (c <=? 32)%N then lstrip_c0 r else s
  | [] => []
  end.

(** Removal of tab, carriage return and newline
    ([_UNSAFE_URL_BYTES_TO_REMOVE]). *)
Definition is_unsafe (c : N) : bool := ((c =? 9) || (c =? 13) || (c =? 10))%N.

Definition remove_unsafe (s : str) : str :=
  List.filter (fun c => negb (is_unsafe c)) s.

Definition is_netloc_delim (c : N) : bool :=
  ((c =? 47) || (c =? 63) || (c =? 35))%N.

(** [s] up to the first character satisfying [p], and the rest from it. *)
Fixpoint break_at (p : N -> bool) (s : str) : str * str :=
  match s with
  | [] => ([], [])
  | c :: r =>
      if p c then ([], s)
      else let '(a, b) := break_at p r in (c :: a, b)
  end.

(** [_splitnetloc(url, 2)]. *)
Definition splitnetloc (url : str) : str * str :=
  break_at is_netloc_delim (slice_from 2 url).

(** [url.split(c, 1)] when [c in url], else the URL and the empty string. *)
Definition split_once (c : N) (url : str) : str * str :=
  if str_contains c url
  then let '(a, _, b) := str_partition c url in (a, b)
  else (url, []).

(** *** hashlib.md5 (RFC 1321) *)

Definition md5_K : list Z :=
  [3614090360; 3905402710; 606105819; 3250441966; 4118548399; 1200080426;
   2821735955; 4249261313; 1770035416; 2336552879; 4294925233; 2304563134;
   1804603682; 4254626195; 2792965006; 1236535329; 4129170786; 3225465664;
   643717713; 3921069994; 3593408605; 38016083; 3634488961; 3889429448;
   568446438; 3275163606; 4107603335; 1163531501; 2850285829; 4243563512;
   1735328473; 2368359562; 4294588738; 2272392833; 1839030562; 4259657740;
   2763975236; 1272893353; 4139469664; 3200236656; 681279174; 3936430074;
   3572445317; 76029189; 3654602809; 3873151461; 530742520; 3299628645;
   4096336452; 1126891415; 2878612391; 4237533241; 1700485571; 2399980690;
   4293915773; 2240044497; 1873313359; 4264355552; 2734768916; 1309151649;
   4149444226; 3174756917; 718787259; 3951481745].

Definition md5_s : list Z :=
  [7; 12; 17; 22; 7; 12; 17; 22; 7; 12; 17; 22; 7; 12; 17; 22;
   5; 9; 14; 20; 5; 9; 14; 20; 5; 9; 14; 20; 5; 9; 14; 20;
   4; 11; 16; 23; 4; 11; 16; 23; 4; 11; 16; 23; 4; 11; 16; 23;
   6; 10; 15; 21; 6; 10; 15; 21; 6; 10; 15; 21; 6; 10; 15; 21].

Definition w32 (x : Z) : Z := x mod 4294967296.

Definition rotl32 (x c : Z) : Z :=
  w32 (Z.lor (Z.shiftl x c) (Z.shiftr x (32 - c))).

Definition not32 (x : Z) : Z := Z.lxor x 4294967295.

(** [n] as [k] little-endian bytes. *)
Fixpoint le_bytes (k : nat) (n : Z) : list Z :=
  match k with
  | O => []
  | S k' => n mod 256 :: le_bytes k' (n / 256)
  end.

(** A little-endian 32-bit word from four bytes. *)
Definition le_word (b : list Z) : Z :=
  fold_right (fun x acc => x + 256 * acc) 0 b.

(** The bytes cut into groups of [n]; the fuel bounds the number of
    groups. *)
Fixpoint groups (fuel : nat) (n : nat) (l : list Z) : list (list Z) :=
  match fuel, l with
  | S f, _ :: _ => take n l :: groups f n (drop n l)
  | _, _ => []
  end.

Definition md5_pad (msg : list Z) : list Z :=
  let n := Z.of_nat (length msg) in
  msg ++ [128] ++ repeat 0 (Z.to_nat ((55 - n) mod 64)) ++ le_bytes 8 (8 * n).

Definition md5_round (M : list Z) (st : Z * Z * Z * Z) (i : Z) : Z * Z * Z * Z :=
  let '(A, B, C, D) := st in
  let '(F, g) :=
    if i <? 16 then (Z.lor (Z.land B C) (Z.land (not32 B) D), i)
    else if i <? 32 then
      (Z.lor (Z.land D B) (Z.land (not32 D) C), (5 * i + 1) mod 16)
    else if i <? 48 then (Z.lxor B (Z.lxor C D), (3 * i + 5) mod 16)
    else (Z.lxor C (Z.lor B (not32 D)), (7 * i) mod 16) in
  let F := w32 (F + A + nth (Z.to_nat i) md5_K 0 + nth (Z.to_nat g) M 0) in
  (D, w32 (B + rotl32 F (nth (Z.to_nat i) md5_s 0)), B, C).

Definition md5_chunk (st : Z * Z * Z * Z) (chunk : list Z) : Z * Z * Z * Z :=
  let M := map le_word (groups 16 4 chunk) in
  let '(a0, b0, c0, d0) := st in
  let '(A, B, C, D) :=
    fold_left (md5_round M) (map Z.of_nat (seq 0 64)) st in
  (w32 (a0 + A), w32 (b0 + B), w32 (c0 + C), w32 (d0 + D)).

(** [hashlib.md5(msg).digest()]. *)
Definition md5 (msg : list N) : list N :=
  let padded := md5_pad (map Z.of_N msg) in
  let '(a, b, c, d) :=
    fold_left md5_chunk (groups (length padded) 64 padded)
              (1732584193, 4023233417, 2562383102, 271733878) in
  map Z.to_N (le_bytes 4 a ++ le_bytes 4 b ++ le_bytes 4 c ++ le_bytes 4 d).

Definition hexdigit_lower (d : N) : N :=
  (if d <? 10 then 48 + d else 87 + d)%N.

(** [.hexdigest()] of a digest. *)
Definition hexdigest (digest : list N) : str :=
  flat_map (fun b => [hexdigit_lower (b / 16); hexdigit_lower (b mod 16)]%N)
           digest.

(** [re.sub(r"[^a-zA-Z0-9]+", "-", s)]: every maximal run of characters
    other than ASCII letters and digits becomes one hyphen; [in_run] tells
    whether the previous character belonged to such a run. *)
Fixpoint re_sub_nonalnum (in_run : bool) (s : str) : str :=
  match s with
  | [] => []
  | c :: r =>
      if is_alnum c then c :: re_sub_nonalnum false r
      else if in_run then re_sub_nonalnum true r
      else 45%N :: re_sub_nonalnum true r
  end.

(** [s.strip("-")]. *)
Fixpoint lstrip_char (x : N) (s : str) : str :=
  match s with
  | c :: r => if N.eqb c x then lstrip_char x r else s
  | [] => []
  end.
Definition strip_char (x : N) (s : str) : str :=
  rev (lstrip_char x (rev (lstrip_char x s))).

(** *** Documents and the file system *)

Inductive style := h1 | h2 | normal.

(** The flowables [make_pdf] hands to the layout engine; a spacer's height
    is kept in hundredths of an inch. *)
Inductive flowable :=
| Paragraph (text : str) (st : style)
| Spacer (hundredths : Z).

Record payload := mkPayload {
  pl_url : str; pl_title : str; pl_meta : str; pl_text : str;
  pl_outgoing_links : list str }.

(** A written document: the title given to [SimpleDocTemplate] and the
    story it was built from. *)
Record pdf := mkPdf { pdf_title : str; pdf_story : list flowable }.

#[warnings="-register-all"]
Inductive file :=
| PdfFile (d : pdf)
| ZipFile (entries : list (str * file)).

Record fsys := mkFs { fs_dirs : gset str; fs_files : gmap str file }.

(** A call either returns or raises; a call that does not come back at all
    (a loop out of fuel) is [None] around this type. *)
Inductive outcome (A : Type) :=
| Returns (a : A)
| Raises (e : str).
Arguments Returns {A} a.
Arguments Raises {A} e.

(** The value of a call that returned. *)
Definition returned {A : Type} (r : option (outcome A)) : option A :=
  match r with
  | Some (Returns a) => Some a
  | _ => None
  end.

(** [os.path.join(a, b)]. *)
Definition path_join (a b : str) : str :=
  if str_startswith (py "/") b then b
  else if negb (nonempty a) || str_endswith (py "/") a then a ++ b
  else a ++ py "/" ++ b.

(** The name of [p] inside the directory [d], when [p] lies directly in it. *)
Definition entry_name (d p : str) : option str :=
  let prefix := d ++ py "/" in
  let name := drop (length prefix) p in
  if str_startswith prefix p && nonempty name && negb (str_contains 47 name)
  then Some name else None.

(** [os.listdir(d)]: the entries of [d], in the order the system gives. *)
Definition listdir (fs : fsys) (d : str) : list str :=
  omap (entry_name d) (map fst (map_to_list (fs_files fs))).

Definition write_file (path : str) (f : file) (fs : fsys) : fsys :=
  mkFs (fs_dirs fs) (<[path := f]> (fs_files fs)).

Definition make_dir (d : str) (fs : fsys) : fsys :=
  mkFs ({[ d ]} ∪ fs_dirs fs) (fs_files fs).

(** The story of [make_pdf]; [None] only if a chunking loop ran out of
    fuel. *)
Definition story_of (p : payload) : option (list flowable) :=
  let head :=
    [Paragraph (if nonempty (pl_title p) then pl_title p else py "(No title)") h1;
     Paragraph (pl_url p) normal; Spacer 15; Spacer 10] in
  if nonempty (pl_text p) then
    pieces ← body_pieces (body_paragraphs (pl_text p));
    Some (head ++ [Paragraph (py "Page Text") h2]
            ++ flat_map (fun piece => [Paragraph piece normal; Spacer 5]) pieces)
  else Some head.

(** The document [make_pdf] builds from a payload. *)
Definition document_of (p : payload) (story : list flowable) : pdf :=
  mkPdf (if nonempty (pl_title p) then pl_title p else pl_url p) story.

(** *** The crawl: responses, requests *)

(** A downloaded page, given by what the selectors and the link extractor
    of the framework return on it: [response.url], the first
    [//title/text()], [visible_text_from_html(response.text)],
    [meta_as_text(response.text)] and the URLs of
    [self.link_extractor.extract_links(response)]. *)
Record Response := mkResponse {
  r_url : str; r_title : option str; r_text : str; r_meta : str;
  r_links : list str }.

(** The final result of the download of a request, retries included;
    a failure carries [repr(failure.value)]. *)
Inductive fetch_result :=
| Fetched (r : Response)
| Failed (failure_repr : str).

Record Request := mkRequest {
  q_url : str; q_depth : Z; q_errback : bool; q_dont_filter : bool }.

(** The answer of the endpoint. *)
Inductive http_result :=
| HTTPException (status_code : Z) (detail : str)
| FileResponse (path : str) (media_type : str) (filename : str).

Record CrawlRequest := mkCrawlRequest { url : str; depth : Z }.

(** DepthMiddleware of the framework: a request at [depth] is dropped when
    [maxdepth] is non-zero and [depth > maxdepth]; DEPTH_LIMIT 0 means no
    limit. *)
Definition depth_allowed (maxdepth depth : Z) : bool :=
  negb (negb (maxdepth =? 0) && (maxdepth <? depth)).

(** OffsiteMiddleware of the framework: with allowed domains, the host must
    be one of them or a sub-domain of one. *)
Definition host_allowed (allowed : gset str) (host : str) : bool :=
  bool_decide (allowed = ∅)
  || existsb (fun d => bool_decide (host = d) || str_endswith (py "." ++ d) host)
             (elements allowed).

(** The scheme test of [urlsplit]: a colon at a positive index, a first
    character that is an ASCII letter, and only scheme characters before
    the colon. *)
Definition has_scheme (url : str) : bool :=
  let i := str_find 58 url in
  (0 <? i) && is_ascii_alpha (hd 0%N url)
  && forallb is_scheme_char (slice_to i url).

Definition split_scheme (url : str) : str * str :=
  let i := str_find 58 url in
  if has_scheme url
  then (str_lower (slice_to i url), slice_from (i + 1) url)
  else ([], url).

Definition split_authority (url : str) : str * str :=
  if bool_decide (slice_to 2 url = py "//") then splitnetloc url
  else ([], url).

(** *** Predicates used in the statements below *)

(** The characters [quote_plus] can write: the always-safe ones, the
    percent sign and the plus sign. *)
Definition quote_char (c : N) : bool :=
  always_safe c || ((c =? 37) || (c =? 43))%N.

(** The characters of a query string written by [urlencode]. *)
Definition is_query_char (c : N) : bool :=
  quote_char c || ((c =? 61) || (c =? 38))%N.

(** The text that stands for the byte [b] in a quoted string, once plus
    signs are read as spaces: the byte itself, or a percent escape that
    spells it. *)
Definition spells_byte (seg : str) (b : N) : bool :=
  match seg with
  | [x] => ((x =? b) && negb (x =? 37) && (x <? 128))%N
  | [p; d1; d2] =>
      ((p =? 37) && is_hexdig d1 && is_hexdig d2
       && (16 * hexval d1 + hexval d2 =? b))%N
  | _ => false
  end.

(** The query part of a URL as [urlunsplit] writes it. *)
Definition query_suffix (qs : str) : str :=
  if nonempty qs then 63%N :: qs else [].

(** The scheme part and the authority part as [urlunsplit] writes them. *)
Definition scheme_prefix (scheme : str) : str :=
  if nonempty scheme then scheme ++ [58%N] else [].

Definition authority_prefix (has_authority : bool) (netloc : str) : str :=
  if has_authority then 47%N :: 47%N :: netloc else [].

(** The characters of a file name written by
    [sanitize_filename_from_url]. *)
Definition is_filename_char (c : N) : bool :=
  is_alnum c || ((c =? 45) || (c =? 46))%N.

(** A scheme as [urlsplit] returns it: it starts with an ASCII letter, is
    made of scheme characters, and is in lower case. *)
Definition valid_scheme (scheme : str) : Prop :=
  is_ascii_alpha (hd 0%N scheme) = true
  /\ forallb is_scheme_char scheme = true
  /\ str_lower scheme = scheme.

(** No tab, carriage return or newline. *)
Definition no_unsafe (s : str) : Prop :=
  forallb (fun c => negb (is_unsafe c)) s = true.

(** What holds of the components [urlsplit] returns. *)
Record wf_split (sp : SplitResult) : Prop := mkWf {
  wf_scheme : u_scheme sp = [] \/ valid_scheme (u_scheme sp);
  wf_netloc_delim :
    forallb (fun c => negb (is_netloc_delim c)) (u_netloc sp) = true;
  wf_netloc_unsafe : no_unsafe (u_netloc sp);
  wf_path_query : str_contains 63 (u_path sp) = false;
  wf_path_fragment : str_contains 35 (u_path sp) = false;
  wf_path_unsafe : no_unsafe (u_path sp);
  wf_path_after_netloc :
    u_netloc sp <> [] -> u_path sp = [] \/ hd 0%N (u_path sp) = 47%N;
  wf_relative :
    u_scheme sp = [] -> u_netloc sp = [] ->
    has_scheme (u_path sp) = false /\ lstrip_c0 (u_path sp) = u_path sp }.

(** [urlsplit] raises [ValueError] when the network location fails the
    interpreter's checks (unbalanced or ill-formed brackets, characters
    that NFKC-normalise to delimiters).  The checks read the network
    location only and differ between Python releases, so they are a
    parameter of the model; an empty network location always passes. *)
Class NetlocCheck := netloc_ok : str -> bool.

(** What lies outside the program: the download of a URL by the framework
    and the rendering engine ([fetch]), whether the layout engine builds a
    document and writes it at a path or raises ([build_ok]), and a failure
    of the crawl as a whole, the exception that [await d.asFuture(loop)]
    raises when the engine cannot start ([engine_fault]). *)
Class World := mkWorld {
  fetch : str -> fetch_result;
  build_ok : str -> pdf -> bool;
  engine_fault : option str }.

Section Model.

Context {nc : NetlocCheck} {world : World}.

Definition urlsplit (url : str) : option SplitResult :=
  let url := remove_unsafe (lstrip_c0 url) in
  let '(scheme, url) := split_scheme url in
  let '(netloc, url) := split_authority url in
  let '(url, fragment) := split_once 35 url in
  let '(url, query) := split_once 63 url in
  if negb (nonempty netloc) || netloc_ok netloc
  then Some (mkSplit scheme netloc url query fragment)
  else None.

Definition urlunsplit (scheme netloc url query fragment : str) : str :=
  let url :=
    if nonempty netloc
       || (nonempty scheme && str_in scheme uses_netloc
           && negb (bool_decide (slice_to 2 url = py "//")))
    then
      let url :=
        if nonempty url && negb (bool_decide (slice_to 1 url = py "/"))
        then py "/" ++ url else url in
      py "//" ++ netloc ++ url
    else url in
  let url := if nonempty scheme then scheme ++ py ":" ++ url else url in
  let url := if nonempty query then url ++ py "?" ++ query else url in
  let url := if nonempty fragment then url ++ py "#" ++ fragment else url in
  url.

(** [url.find(c, start)] for [start >= -1]; a start of -1 names the last
    position. *)
Definition str_find_at (c : N) (start : Z) (s : str) : Z :=
  let start := if start <? 0 then Z.max 0 (len s + start) else start in
  let r := str_find c (slice_from start s) in
  if r <? 0 then -1 else start + r.

Definition splitparams (url : str) : str * str :=
  if str_contains 47 url then
    let i := str_find_at 59 (str_rfind 47 url) url in
    if i <? 0 then (url, [])
    else (slice_to i url, slice_from (i + 1) url)
  else
    let i := str_find 59 url in
    (slice_to i url, slice_from (i + 1) url).

Definition urlparse (url : str) : option ParseResult :=
  sp ← urlsplit url;
  let '(path, params) :=
    if str_in (u_scheme sp) uses_params && str_contains 59 (u_path sp)
    then splitparams (u_path sp) else (u_path sp, []) in
  Some (mkParse (u_scheme sp) (u_netloc sp) path params (u_query sp)
                (u_fragment sp)).

Definition urlunparse (scheme netloc url params query fragment : str) : str :=
  let url := if nonempty params then url ++ py ";" ++ params else url in
  urlunsplit scheme netloc url query fragment.

(** [urldefrag(url)[0]]. *)
Definition urldefrag (url : str) : option str :=
  if str_contains 35 url then
    p ← urlparse url;
    Some (urlunparse (p_scheme p) (p_netloc p) (p_path p) (p_params p)
                     (p_query p) [])
  else Some url.

(** [urlparse(url).hostname]; [None] is Python's [None]. *)
Definition hostname (netloc : str) : option str :=
  let '(_, _, hostinfo) := str_rpartition 64 netloc in
  let '(_, have_open_br, bracketed) := str_partition 91 hostinfo in
  let host :=
    if have_open_br then (str_partition 93 bracketed).1.1
    else (str_partition 58 hostinfo).1.1 in
  match host with
  | [] => None
  | _ :: _ =>
      let '(h, percent, zone) := str_partition 37 host in
      Some (str_lower h ++ (if percent then py "%" else []) ++ zone)
  end.

(** *** Utilities of scraper.py *)

Definition tracking_prefixes : list str :=
  map py ["utm_"; "fbclid"; "gclid"; "mc_eid"]%string.

(** The test [k.lower().startswith(("utm_", "fbclid", "gclid", "mc_eid"))]. *)
Definition is_tracking (k : str) : bool :=
  existsb (fun p => str_startswith p (str_lower k)) tracking_prefixes.

(** The pairs of a query string that [_strip_tracking] keeps. *)
Definition kept_pairs (query : str) : list (str * str) :=
  List.filter (fun kv => negb (is_tracking kv.1)) (parse_qsl query).

Definition _strip_tracking (u : str) : option str :=
  sp ← urlsplit u;
  let q := List.filter (fun kv => negb (is_tracking kv.1))
                       (parse_qsl (u_query sp)) in
  qs ← urlencode q;
  Some (urlunsplit (u_scheme sp) (u_netloc sp) (u_path sp) qs []).

(** The set of hosts of [same_site_allowed_domains]; the source returns
    [list(allow)], a list in no particular order used as a set.  [None]
    stands for the [ValueError] of [urlparse]. *)
Definition same_site_allowed_domains (base_url : str) : option (gset str) :=
  parsed ← urlparse base_url;
  let host := str_lower (default [] (hostname (p_netloc parsed))) in
  if negb (nonempty host) then Some ∅
  else
    let naked :=
      if str_startswith (py "www.") host then slice_from 4 host else host in
    let allow : gset str := {[ host ]} ∪ {[ naked ]} ∪ {[ py "www." ++ naked ]} in
    let parts := str_split 46 naked in
    Some (if (2 <? length parts)%nat
          then allow ∪ {[ str_join (py ".") (drop (length parts - 2) parts) ]}
          else allow).

(** [None] stands for an exception ([ValueError] of [urlparse],
    [UnicodeEncodeError] of [encode]). *)
Definition sanitize_filename_from_url (url : str) : option str :=
  clean_url ← urldefrag url;
  bytes ← utf8_encode clean_url;
  let h := slice_to 10 (hexdigest (md5 bytes)) in
  parsed ← urlparse clean_url;
  let stem :=
    strip_char 45
      (slice_to 80
         (re_sub_nonalnum false (p_netloc parsed ++ p_path parsed))) in
  Some ((if nonempty stem then stem else py "page") ++ py "-" ++ h ++ py ".pdf").

(** *** make_pdf and the spider *)

Definition make_pdf (path : str) (p : payload) (fs : fsys)
  : option (outcome fsys) :=
  story ← story_of p;
  let doc :=
    mkPdf (if nonempty (pl_title p) then pl_title p else pl_url p) story in
  Some (if build_ok path doc then Returns (write_file path (PdfFile doc) fs)
        else Raises (py "build failed")).

(** [try: make_pdf(...) except Exception: log]. *)
Definition try_make_pdf (path : str) (p : payload) (fs : fsys) : option fsys :=
  r ← make_pdf path p fs;
  Some (match r with Returns fs' => fs' | Raises _ => fs end).

(** [errback_first]: the error document of the start URL.  An exception of
    [sanitize_filename_from_url] leaves the callback and is logged by the
    framework. *)
Definition errback_first (start_url outdir failure_repr : str) (fs : fsys)
  : option fsys :=
  match sanitize_filename_from_url start_url with
  | None => Some fs
  | Some filename =>
      let pdf_path := path_join outdir filename in
      let p :=
        mkPayload start_url (py "(Fetch error)") []
          (py "Failed to fetch " ++ start_url ++ [10%N; 10%N] ++ failure_repr)
          [] in
      try_make_pdf pdf_path p fs
  end.

(** The [for link in ...] loop of [parse]: the hrefs yielded, and whether
    the loop ran to its end (an exception of [urldefrag] or
    [_strip_tracking] ends the generator). *)
Fixpoint parse_links (links : list str) : list str * bool :=
  match links with
  | [] => ([], true)
  | l :: rest =>
      match urldefrag l ≫= _strip_tracking with
      | Some href =>
          let '(hrefs, completed) := parse_links rest in
          (href :: hrefs, completed)
      | None => ([], false)
      end
  end.

(** [parse]: the hrefs it yields to follow and the file system after it. *)
Definition parse (outdir : str) (response : Response) (fs : fsys)
  : option (list str * fsys) :=
  let title := str_strip (default [] (r_title response)) in
  let '(links, completed) := parse_links (r_links response) in
  if completed then
    match sanitize_filename_from_url (r_url response) with
    | None => Some (links, fs)
    | Some filename =>
        let pdf_path := path_join outdir filename in
        let p :=
          mkPayload (r_url response)
            (if nonempty title then title else py "(No title)")
            (r_meta response) (r_text response) links in
        fs' ← try_make_pdf pdf_path p fs;
        Some (links, fs')
    end
  else Some (links, fs).

(** The request of [start_requests]. *)
Definition start_request (start_url : str) : Request :=
  mkRequest start_url 0 true true.

(** The requests of [response.follow(href, callback=self.parse)] that
    reach the scheduler: each is one level deeper than the response, passes
    the depth and off-site filters, and is dropped by the duplicate filter
    when its URL was scheduled before. *)
Fixpoint schedule (maxdepth : Z) (allowed : gset str) (depth : Z)
    (hrefs : list str) (seen : gset str) : list Request * gset str :=
  match hrefs with
  | [] => ([], seen)
  | href :: rest =>
      let host :=
        default [] (sp ← urlsplit href; hostname (u_netloc sp)) in
      if depth_allowed maxdepth (depth + 1) && host_allowed allowed host
         && negb (bool_decide (href ∈ seen))
      then
        let '(rs, seen') :=
          schedule maxdepth allowed depth rest ({[ href ]} ∪ seen) in
        (mkRequest href (depth + 1) false false :: rs, seen')
      else schedule maxdepth allowed depth rest seen
  end.

(** What the framework does with one request: it downloads the URL and
    hands the response to [parse], or the failure to the errback of the
    request when it has one.  The result is the hrefs to follow and the
    file system afterwards. *)
Definition handle_request (start_url outdir : str) (request : Request)
    (fs : fsys) : option (list str * fsys) :=
  match fetch (q_url request) with
  | Fetched response => parse outdir response fs
  | Failed failure_repr =>
      fs' ← (if q_errback request
             then errback_first start_url outdir failure_repr fs
             else Some fs);
      Some ([], fs')
  end.

(** The engine: requests leave the queue first in, first out.  [None] when
    the fuel runs out before the queue is empty. *)
Fixpoint crawl_loop (fuel : nat) (start_url outdir : str) (maxdepth : Z)
    (allowed : gset str) (queue : list Request) (seen : gset str)
    (fs : fsys) : option fsys :=
  match queue with
  | [] => Some fs
  | request :: queue' =>
      match fuel with
      | O => None
      | S fuel' =>
          '(hrefs, fs') ← handle_request start_url outdir request fs;
          let '(new, seen') :=
            schedule maxdepth allowed (q_depth request) hrefs seen in
          crawl_loop fuel' start_url outdir maxdepth allowed
                     (queue' ++ new) seen' fs'
      end
  end.

(** [crawl_to_pdfs(start_url, depth, outdir)]: DEPTH_LIMIT is [depth]. *)
Definition crawl_to_pdfs (fuel : nat) (start_url : str) (depth : Z)
    (outdir : str) (fs : fsys) : option (outcome fsys) :=
  match same_site_allowed_domains start_url with
  | None => Some (Raises (py "ValueError"))
  | Some allowed =>
      match engine_fault with
      | Some e => Some (Raises e)
      | None =>
          Returns <$> crawl_loop fuel start_url outdir depth allowed
                                 [start_request start_url] ∅ fs
      end
  end.

(** *** The endpoint *)

Definition is_pdf_name (f : str) : bool :=
  str_endswith (py ".pdf") (str_lower f).

(** The entries [zf.write(os.path.join(outdir, name), arcname=name)]. *)
Definition zip_entries (fs : fsys) (outdir : str) (names : list str)
  : list (str * file) :=
  omap (fun name => (fun f => (name, f)) <$> fs_files fs !! path_join outdir name)
       names.

(** [scrape(req)], with the directory [workdir] that [tempfile.mkdtemp]
    creates. *)
Definition scrape (fuel : nat) (workdir : str) (req : CrawlRequest)
    (fs : fsys) : option (http_result * fsys) :=
  let fs := make_dir workdir fs in
  let outdir := path_join workdir (py "pdfs") in
  let fs := make_dir outdir fs in
  let start_url := url req in
  r ← crawl_to_pdfs fuel start_url (depth req) outdir fs;
  match r with
  | Raises e => Some (HTTPException 500 (py "Crawl failed: " ++ e), fs)
  | Returns fs =>
      let pdf_files := List.filter is_pdf_name (listdir fs outdir) in
      match pdf_files with
      | [] =>
          Some (HTTPException 504
                  (py "Fetch timed out or was blocked before any page could be saved."),
                fs)
      | _ :: _ =>
          let zip_path := path_join workdir (py "result.zip") in
          let fs :=
            write_file zip_path (ZipFile (zip_entries fs outdir pdf_files)) fs in
          Some (FileResponse zip_path (py "application/zip")
                             (py "scraped_pdfs.zip"), fs)
      end
  end.

End Model.

(** ** Part I, continued: the text of a page, and predicates *)

(** *** visible_text_from_html: the text of a page *)

(** The class [[ \t\r\f\v]] of the first substitution. *)
Definition is_blank (c : N) : bool :=
  ((c =? 32) || (c =? 9) || (c =? 13) || (c =? 12) || (c =? 11))%N.

(** [re.sub(r"[ \t\r\f\v]+", " ", s)]: every maximal run of blanks becomes
    one space; [in_run] tells whether the previous character was a blank. *)
Fixpoint re_sub_blanks (in_run : bool) (s : str) : str :=
  match s with
  | [] => []
  | c :: r =>
      if is_blank c then
        if in_run then re_sub_blanks true r else 32%N :: re_sub_blanks true r
      else c :: re_sub_blanks false r
  end.

(** What a run of [run] newlines becomes under
    [re.sub(r"\n{k,}", "\n\n", s)]. *)
Definition newline_run (k run : nat) : str :=
  if (k <=? run)%nat then [10%N; 10%N] else repeat 10%N run.

(** [re.sub(r"\n{k,}", "\n\n", s)] for [k >= 1]; [run] counts the newlines
    read since the last other character. *)
Fixpoint re_sub_newlines (k run : nat) (s : str) : str :=
  match s with
  | [] => newline_run k run
  | c :: r =>
      if N.eqb c 10 then re_sub_newlines k (S run) r
      else newline_run k run ++ c :: re_sub_newlines k 0 r
  end.

(** The line boundaries of [str.splitlines]: LF, VT, FF, CR, FS, GS, RS,
    NEL, LS and PS. *)
Definition is_linebreak (c : N) : bool :=
  ((10 <=? c) && (c <=? 13) || (28 <=? c) && (c <=? 30) || (c =? 133)
   || (c =? 8232) || (c =? 8233))%N.

(** [s.splitlines()]: CR LF is one boundary, and a boundary at the end of
    the text opens no further line. *)
Fixpoint splitlines_go (cur : str) (s : str) : list str :=
  match s with
  | [] => match cur with [] => [] | _ :: _ => [cur] end
  | c :: r =>
      if is_linebreak c then
        cur :: match r with
               | d :: r' =>
                   if ((c =? 13) && (d =? 10))%N then splitlines_go [] r'
                   else splitlines_go [] r
               | [] => splitlines_go [] r
               end
      else splitlines_go (cur ++ [c]) r
  end.
Definition str_splitlines (s : str) : list str := splitlines_go [] s.

(** [s.split()]: the maximal runs of characters that are not white space. *)
Fixpoint split_ws_go (cur : str) (s : str) : list str :=
  match s with
  | [] => match cur with [] => [] | _ :: _ => [cur] end
  | c :: r =>
      if is_space c then
        match cur with
        | [] => split_ws_go [] r
        | _ :: _ => cur :: split_ws_go [] r
        end
      else split_ws_go (cur ++ [c]) r
  end.
Definition str_split_ws (s : str) : list str := split_ws_go [] s.

(** [tok in s] for a string [tok]. *)
Fixpoint str_contains_sub (tok s : str) : bool :=
  str_startswith tok s
  || match s with
     | [] => false
     | _ :: r => str_contains_sub tok r
     end.

(** [s.count(c)] for a one-character [c]. *)
Definition str_count (c : N) (s : str) : Z :=
  len (List.filter (N.eqb c) s).

Definition css_tokens : list str :=
  map py [":hover"; ":root"; "@media"; "function("; "var "]%string.

(** One round of the loop over the lines: the line appended to [lines], or
    [None] when the line is dropped as a leftover of a style sheet or a
    script. *)
Definition kept_line (ln : str) : option str :=
  let s := str_strip ln in
  if negb (nonempty s) then Some []
  else if (300 <? len s)
          && existsb (fun tok => str_contains_sub tok s) css_tokens
  then None
  else if 4 <? str_count 123 s + str_count 125 s + str_count 59 s then None
  else Some s.

(** The second half of [visible_text_from_html]: the white space of the
    text content is normalised and the lines that look like code are
    dropped. *)
Definition normalize_visible_text (text : str) : str :=
  let text := re_sub_blanks false text in
  let text := str_replace 160 32 text in
  let text := re_sub_newlines 3 0 text in
  let text := str_join [10%N] (map str_strip (str_splitlines text)) in
  let text := str_strip (re_sub_newlines 2 0 text) in
  let lines := omap kept_line (str_splitlines text) in
  let text := str_join [10%N] lines in
  str_strip (re_sub_newlines 3 0 text).

(** The HTML library, as far as [visible_text_from_html] uses it:
    [html.fromstring(document_html, base_url=...)], [None] when it raises,
    and the text content of the tree once [CLEANER.clean_html] and the
    removal of the hidden and the decorative elements have run, [None]
    when one of them raises. *)
Class HtmlParser := mkHtmlParser {
  html_tree : Type;
  html_fromstring : str -> str -> option html_tree;
  visible_content : html_tree -> option str }.

(** [visible_text_from_html(document_html, base_url)]; [None] stands for an
    exception of the cleaning steps, which the function does not catch. *)
Definition visible_text_from_html `{HtmlParser} (document_html base_url : str)
  : option str :=
  match html_fromstring document_html base_url with
  | None => Some (str_join (py " ") (str_split_ws document_html))
  | Some root => normalize_visible_text <$> visible_content root
  end.

(** The characters that never reach the text: tab, the line boundaries
    other than LF, and the no-break space. *)
Definition is_stray_space (c : N) : bool :=
  ((c =? 9) || (11 <=? c) && (c <=? 13) || (28 <=? c) && (c <=? 30)
   || (c =? 133) || (c =? 160) || (c =? 8232) || (c =? 8233))%N.

(** Both ends of a stripped string are characters other than white space. *)
Definition ends_ok (l : str) : Prop :=
  l = [] \/ (is_space (hd 0%N l) = false /\ is_space (hd 0%N (rev l)) = false).

(** The characters of the stem of a file name. *)
Definition is_slug_char (c : N) : bool := is_alnum c || (c =? 45)%N.

(** Whether a call returned. *)
Definition has_returned {A : Type} (r : option (outcome A)) : bool :=
  match r with
  | Some (Returns _) => true
  | _ => false
  end.

Section CrawlFilesDef.

Context {nc : NetlocCheck}.

(** [fs'] is [fs] with nothing removed, no directory added, and every new
    or changed file a document stored in [outdir] under a name of
    [sanitize_filename_from_url]. *)
Definition documents_added (outdir : str) (fs fs' : fsys) : Prop :=
  fs_dirs fs' = fs_dirs fs
  /\ forall p,
       fs_files fs' !! p = fs_files fs !! p
       \/ exists u name d,
            sanitize_filename_from_url u = Some name
            /\ p = path_join outdir name
            /\ fs_files fs' !! p = Some (PdfFile d).

End CrawlFilesDef.

Section CrawlBound.

Context {nc : NetlocCheck} {world : World}.

(** The links [parse] yields for the page at [url]; none when the page
    cannot be fetched. *)
Definition hrefs_of (url : str) : list str :=
  match fetch url with
  | Fetched response => (parse_links (r_links response)).1
  | Failed _ => []
  end.

(** A bound on the requests that the request for [url] leads to, itself
    included, when links are followed for [levels] more levels. *)
Fixpoint requests_bound (levels : nat) (url : str) : nat :=
  match levels with
  | O => 1
  | S k => S (list_sum (map (requests_bound k) (hrefs_of url)))
  end.

(** The bound of the requests of a queue under the depth limit
    [maxdepth]. *)
Definition queue_bound (maxdepth : Z) (queue : list Request) : nat :=
  list_sum (map (fun r => requests_bound (Z.to_nat (maxdepth - q_depth r))
                                         (q_url r)) queue).

End CrawlBound.

(** Lines that make well-formed paragraphs: no line has a newline or white
    space at its ends, the first and the last line are not empty, and no
    two empty lines follow each other. *)
Fixpoint wf_lines (lines : list str) : Prop :=
  match lines with
  | [] => False
  | l :: rest =>
      l <> [] /\ ends_ok l /\ str_contains 10 l = false
      /\ match rest with
         | [] => True
         | [] :: rest' => wf_lines rest'
         | _ :: _ => wf_lines rest
         end
  end.

(** *** insert_data.py *)

(** [_split_table(qualified)]: the schema and the table of a qualified
    name, the schema [public] when the name has no dot. *)
Definition _split_table (qualified : str) : str * str :=
  if str_contains 46 qualified
  then let '(s, _, t) := str_partition 46 qualified in (s, t)
  else (py "public", qualified).

(** *** Sample data *)

(** A check that accepts the network locations every Python release
    accepts: ASCII text without brackets. *)
Definition plain_netloc : NetlocCheck :=
  fun netloc =>
    forallb (fun c => (c <? 128) && negb (c =? 91) && negb (c =? 93))%N netloc.


Definition empty_fs : fsys := mkFs ∅ ∅.

Definition sample_workdir : str := py "/tmp/scrape_pdfs_x1".

Definition sample_seed : str := py "https://example.com/".

Definition sample_about : str := py "https://example.com/about".

(** A site of two pages: the seed links to [/about], which links nowhere. *)
Definition two_page_world : World :=
  mkWorld
    (fun u =>
       if bool_decide (u = sample_seed)
       then Fetched (mkResponse sample_seed (Some (py "Home")) (py "Welcome")
                                [] [sample_about])
       else if bool_decide (u = sample_about)
       then Fetched (mkResponse sample_about (Some (py "About")) (py "About us")
                                [] [])
       else Failed (py "TimeoutError()"))
    (fun _ _ => true)
    None.

(** The same seed, but the page it links to cannot be fetched. *)
Definition broken_link_world : World :=
  mkWorld
    (fun u =>
       if bool_decide (u = sample_seed)
       then Fetched (mkResponse sample_seed (Some (py "Home")) (py "Welcome")
                                [] [sample_about])
       else Failed (py "TimeoutError()"))
    (fun _ _ => true)
    None.

(** A world whose engine cannot start. *)
Definition engine_down_world : World :=
  mkWorld (fun _ => Failed (py "TimeoutError()")) (fun _ _ => true)
          (Some (py "BrowserType.launch failed")).

(** A site that cannot be reached at all. *)
Definition unreachable_world : World :=
  mkWorld (fun _ => Failed (py "TimeoutError()")) (fun _ _ => true) None.

(** A page with three links, the second of which has an unbalanced
    bracket in its network location. *)
Definition bracket_link : str := py "http://[::1/".

Definition bad_link_response : Response :=
  mkResponse sample_seed (Some (py "Home")) (py "Welcome") []
             [py "https://example.com/a#top"; bracket_link; sample_about].

(** A site whose seed is that page; no other page can be fetched. *)
Definition bad_link_world : World :=
  mkWorld
    (fun u =>
       if bool_decide (u = sample_seed) then Fetched bad_link_response
       else Failed (py "TimeoutError()"))
    (fun _ _ => true)
    None.

(** A parser that takes the markup for its own text content, and one that
    rejects every document. *)
Definition plain_text_parser : HtmlParser :=
  mkHtmlParser str (fun document_html _ => Some document_html) Some.

Definition failing_parser : HtmlParser :=
  mkHtmlParser str (fun _ _ => None) Some.

(** A text with a tab, a no-break space, a line of code and a run of blank
    lines. *)
Definition sample_markup : str :=
  py "Title" ++ [9%N; 160%N; 13%N; 10%N; 10%N; 10%N; 10%N]
     ++ py "a{b;c};d{e;}" ++ [10%N] ++ py "  last line " ++ [10%N].

(** ** Part II: properties *)

(** *** Strings *)

Lemma len_nonneg (s : str) : 0 <= len s.
Proof. unfold len. lia. Qed.

(** [rfind] answers the default or an index where the character stands. *)
Lemma str_rfind_from_spec (c : N) (s : str) :
  forall i last,
    str_rfind_from i c s last = last
    \/ (i <= str_rfind_from i c s last < i + len s
        /\ s !! Z.to_nat (str_rfind_from i c s last - i) = Some c).
Proof.
  induction s as [|x r IH]; intros i last; simpl.
  - now left.
  - destruct (IH (i + 1) (if N.eqb x c then i else last)) as [E | [Hr Hl]].
    + rewrite E. destruct (N.eqb_spec x c) as [-> | _].
      * right. unfold len. simpl length. split; [lia|].
        now replace (i - i) with 0 by lia.
      * now left.
    + right. unfold len in *. simpl length. split; [lia|].
      replace (Z.to_nat (str_rfind_from (i + 1) c r
                           (if N.eqb x c then i else last) - i))
        with (S (Z.to_nat (str_rfind_from (i + 1) c r
                             (if N.eqb x c then i else last) - (i + 1))))
        by lia.
      exact Hl.
Qed.

Lemma str_rfind_spec (c : N) (s : str) :
  str_rfind c s = -1
  \/ (0 <= str_rfind c s < len s
      /\ s !! Z.to_nat (str_rfind c s) = Some c).
Proof.
  unfold str_rfind.
  destruct (str_rfind_from_spec c s 0 (-1)) as [E | [Hr Hl]]; [now left|].
  right. split; [lia|]. now rewrite Z.sub_0_r in Hl.
Qed.




Lemma str_join_cons (sep p : str) (rest : list str) :
  rest <> [] -> str_join sep (p :: rest) = p ++ sep ++ str_join sep rest.
Proof. destruct rest; [congruence | reflexivity]. Qed.

(** *** The chunking loop of make_pdf *)

(** What one iteration does: it emits the whole paragraph and stops, or it
    cuts at a space inside the first [chunk_size] characters, drops that
    space, and leaves a shorter, non-empty rest. *)
Lemma chunk_step_cases (para : str) :
  (chunk_step para = (para, [])
   /\ (len para <= chunk_size
       \/ str_rfind 32 (slice_to chunk_size para) = -1))
  \/ (exists cut : nat,
        (cut < 1600)%nat /\ (1600 < length para)%nat
        /\ str_rfind 32 (slice_to chunk_size para) = Z.of_nat cut
        /\ chunk_step para = (take cut para, drop (S cut) para)
        /\ para = take cut para ++ 32%N :: drop (S cut) para).
Proof.
  unfold chunk_step.
  destruct (str_rfind_spec 32 (slice_to chunk_size para)) as [E | [Hr Hl]].
  - left. rewrite E. simpl. auto.
  - destruct (Z.leb_spec (len para) chunk_size) as [Hle | Hgt].
    + left. rewrite orb_true_r. auto.
    + right. rewrite orb_false_r.
      destruct (Z.eqb_spec (str_rfind 32 (slice_to chunk_size para)) (-1))
        as [E | _]; [lia|].
      set (cut := str_rfind 32 (slice_to chunk_size para)) in *.
      unfold slice_to, chunk_size, len in *.
      rewrite length_take in Hr.
      exists (Z.to_nat cut). repeat split; try lia.
      * unfold slice_from. now replace (Z.to_nat (cut + 1)) with (S (Z.to_nat cut)) by lia.
      * rewrite lookup_take_lt in Hl by lia.
        rewrite <- (take_drop_middle _ _ _ Hl) at 1. reflexivity.
Qed.


Lemma chunk_step_rest_shorter (para : str) :
  (chunk_step para).2 = [] \/
  (length (chunk_step para).2 < length para)%nat.
Proof.
  destruct (chunk_step_cases para) as [[-> _] | (cut & _ & Hlen & _ & -> & _)].
  - now left.
  - right. simpl. rewrite length_drop. lia.
Qed.

(** Fuel equal to the length of the paragraph is enough, and more fuel
    changes nothing. *)
Lemma chunk_while_enough_fuel (fuel : nat) :
  forall para, (length para <= fuel)%nat -> is_Some (chunk_while fuel para).
Proof.
  induction fuel as [|fuel IH]; intros para Hlen.
  - destruct para; [now eexists | simpl in Hlen; lia].
  - destruct para as [|c s]; [now eexists|].
    cbn [chunk_while].
    destruct (chunk_step (c :: s)) as [piece rest] eqn:E.
    destruct (IH rest) as [pieces Hp].
    + destruct (chunk_step_rest_shorter (c :: s)) as [H | H];
        rewrite E in H; cbn [snd length] in *; [subst rest; simpl; lia | lia].
    + rewrite Hp. now eexists.
Qed.

Lemma chunk_while_pieces (fuel : nat) :
  forall para pieces,
    chunk_while fuel para = Some pieces ->
    Forall piece_fits pieces /\ str_join (py " ") pieces = para
    /\ (para <> [] -> pieces <> []).
Proof.
  induction fuel as [|fuel IH]; intros para pieces H.
  - destruct para; [|discriminate]. injection H as <-. now repeat constructor.
  - destruct para as [|c s]; [injection H as <-; now repeat constructor|].
    cbn [chunk_while] in H.
    destruct (chunk_step_cases (c :: s))
      as [[E Hfit] | (cut & Hcut & Hlen & _ & E & Hpara)]; rewrite E in H.
    + assert (Hnil : chunk_while fuel [] = Some []) by now destruct fuel.
      rewrite Hnil in H. simpl in H. injection H as <-.
      split; [|now split].
      constructor; [exact Hfit | constructor].
    + destruct (chunk_while fuel (drop (S cut) (c :: s))) as [more|] eqn:Hm;
        [|discriminate].
      simpl in H. injection H as <-.
      destruct (IH _ _ Hm) as (Hall & Hjoin & Hne).
      assert (Hrest : drop (S cut) (c :: s) <> []).
      { intros Hnil. apply (f_equal length) in Hnil.
        rewrite length_drop in Hnil. simpl in Hnil, Hlen. lia. }
      split; [|split; [|discriminate]].
      * constructor; [|exact Hall]. left. unfold len, chunk_size.
        rewrite length_take. lia.
      * rewrite str_join_cons by auto. rewrite Hjoin.
        symmetry. exact Hpara.
Qed.

Lemma body_pieces_total (paragraphs : list str) :
  exists pieces, body_pieces paragraphs = Some pieces
                 /\ Forall piece_fits pieces.
Proof.
  induction paragraphs as [|para rest (more & Hm & Hall)].
  - exists []. split; [reflexivity | constructor].
  - cbn [body_pieces]. cbv zeta.
    destruct (str_strip para) as [|c s] eqn:E; [now exists more|].
    destruct (chunk_while_enough_fuel (length (c :: s)) (c :: s))
      as [pieces Hp]; [lia|].
    rewrite Hp, Hm. simpl. exists (pieces ++ more). split; [reflexivity|].
    apply Forall_app. split; [|exact Hall].
    now apply (chunk_while_pieces _ _ _ Hp).
Qed.

(** *** The blank-line split *)














Lemma blank_split_nonempty (s : str) (ps : list str) :
  blank_split s ps -> ps <> [].
Proof. now intros []. Qed.



(** C10: the chunking loop of [make_pdf] terminates on every paragraph.  A
    cut is taken only at a real index, so that [cut + 1 >= 1] characters
    go; an iteration therefore leaves an empty rest or a strictly shorter
    one, and fuel equal to the length of the paragraph, or any larger
    amount, always suffices. *)
Theorem chunk_loop_terminates (para : str) (extra : nat) :
  (str_rfind 32 (slice_to chunk_size para) = -1
   \/ 1 <= str_rfind 32 (slice_to chunk_size para) + 1)
  /\ ((chunk_step para).2 = []
      \/ (length (chunk_step para).2 < length para)%nat)
  /\ is_Some (chunk_while (length para + extra) para).
Proof.
  split.
  { destruct (str_rfind_spec 32 (slice_to chunk_size para)) as [-> | [H _]];
      [now left | right; lia]. }
  split; [apply chunk_step_rest_shorter|].
  apply chunk_while_enough_fuel. lia.
Qed.


(** *** UTF-8 *)

(** Replace every comparison of the goal by its value when arithmetic on
    the hypotheses decides it. *)
Ltac ndecide :=
  repeat match goal with
  | |- context [N.ltb ?a ?b] =>
      first [ rewrite (proj2 (N.ltb_lt a b)) by lia
            | rewrite (proj2 (N.ltb_ge a b)) by lia ]
  | |- context [N.leb ?a ?b] =>
      first [ rewrite (proj2 (N.leb_le a b)) by lia
            | rewrite (proj2 (N.leb_gt a b)) by lia ]
  | |- context [N.eqb ?a ?b] =>
      first [ rewrite (proj2 (N.eqb_eq a b)) by lia
            | rewrite (proj2 (N.eqb_neq a b)) by lia ]
  end.

Ltac ncases :=
  repeat match goal with
  | |- context [N.ltb ?a ?b] => destruct (N.ltb_spec a b); try lia
  | |- context [N.leb ?a ?b] => destruct (N.leb_spec a b); try lia
  | |- context [N.eqb ?a ?b] => destruct (N.eqb_spec a b); try lia
  end.

Ltac ncases_in H :=
  repeat match type of H with
  | context [N.ltb ?a ?b] => destruct (N.ltb_spec a b)
  | context [N.leb ?a ?b] => destruct (N.leb_spec a b)
  | context [N.eqb ?a ?b] => destruct (N.eqb_spec a b)
  end.

(** A boolean property of characters holds of all of them when it holds
    above the ASCII range and on each of the 128 ASCII characters. *)
Lemma by_ascii (P : N -> bool) :
  (forall c, (128 <= c)%N -> P c = true) ->
  forallb P (map N.of_nat (seq 0 128)) = true ->
  forall c, P c = true.
Proof.
  intros Hhigh Hlow c. destruct (N.le_gt_cases 128 c) as [H | H].
  - now apply Hhigh.
  - rewrite forallb_forall in Hlow. apply Hlow.
    apply in_map_iff. exists (N.to_nat c). split; [lia|].
    apply in_seq. lia.
Qed.

Ltac char_unfold :=
  cbv beta delta [is_query_char quote_char always_safe is_alnum is_unsafe
                  is_scheme_char is_ascii_alpha lower_char is_hexdig
                  is_netloc_delim].

(** [char_fact P c] proves [P c = true] for a property [P] built from the
    character classes. *)
Ltac char_fact P c :=
  exact (by_ascii P
           ltac:(let x := fresh "x" in let Hx := fresh "Hx" in
                 intros x Hx; char_unfold;
                 repeat (progress ndecide; cbn [andb orb negb implb]);
                 reflexivity)
           ltac:(vm_compute; reflexivity) c).

Ltac have_char_fact P c A :=
  assert (A : P c = true) by char_fact P c; cbv beta in A.

(** Name the quotient and the remainder of [x] by 64, keeping only their
    defining equations. *)
Ltac divmod64 x q r :=
  pose proof (N.div_mod x 64 ltac:(discriminate));
  pose proof (N.mod_lt x 64 ltac:(discriminate));
  set (q := (x / 64)%N) in *; set (r := (x mod 64)%N) in *;
  clearbody q r.

Lemma div_4096 (c : N) : (c / 4096 = c / 64 / 64)%N.
Proof. now rewrite N.Div0.div_div. Qed.

Lemma div_262144 (c : N) : (c / 262144 = c / 64 / 64 / 64)%N.
Proof. now rewrite !N.Div0.div_div. Qed.

Lemma utf8_encode_char_bytes (c : N) (bs : list N) :
  utf8_encode_char c = Some bs -> Forall (fun b => (b < 256)%N) bs.
Proof.
  unfold utf8_encode_char. rewrite div_4096, div_262144.
  divmod64 c q1 r0. divmod64 q1 q2 r1. divmod64 q2 q3 r2.
  intros E. ncases_in E; cbn in E;
    try discriminate; injection E as <-;
    repeat (apply Forall_cons_2; [lia|]); apply Forall_nil_2.
Qed.

Lemma utf8_decode_encode_char (c : N) (bs rest : list N) :
  utf8_encode_char c = Some bs ->
  utf8_decode (bs ++ rest) = c :: utf8_decode rest.
Proof.
  unfold utf8_encode_char. rewrite div_4096, div_262144.
  divmod64 c q1 r0. divmod64 q1 q2 r1. divmod64 q2 q3 r2.
  intros E. ncases_in E; cbn in E;
    try discriminate; injection E as <-; cbn [app utf8_decode];
    unfold is_cont; ndecide; ncases; cbn [negb orb andb]; f_equal; lia.
Qed.

Lemma utf8_encode_bytes (s : str) :
  forall bs, utf8_encode s = Some bs -> Forall (fun b => (b < 256)%N) bs.
Proof.
  induction s as [|c r IH]; intros bs H; simpl in H.
  - injection H as <-. constructor.
  - destruct (utf8_encode_char c) as [b|] eqn:Ec; [|discriminate].
    destruct (utf8_encode r) as [bs'|]; [|discriminate].
    injection H as <-. apply Forall_app. split.
    + eapply utf8_encode_char_bytes, Ec.
    + now apply IH.
Qed.

(** Decoding undoes encoding. *)
Lemma utf8_decode_encode (s : str) :
  forall bs, utf8_encode s = Some bs -> utf8_decode bs = s.
Proof.
  induction s as [|c r IH]; intros bs H; simpl in H.
  - now injection H as <-.
  - destruct (utf8_encode_char c) as [b|] eqn:Ec; [|discriminate].
    destruct (utf8_encode r) as [bs'|]; [|discriminate].
    injection H as <-.
    rewrite (utf8_decode_encode_char _ _ _ Ec). f_equal. now apply IH.
Qed.

Lemma utf8_decode_ascii (s : str) :
  Forall (fun c => (c < 128)%N) s -> utf8_decode s = s.
Proof.
  induction 1 as [|c r Hc _ IH]; [reflexivity|].
  cbn [utf8_decode]. apply N.ltb_lt in Hc. rewrite Hc. now f_equal.
Qed.

(** *** Quoting *)

Lemma unquote_to_bytes_plain (s : str) :
  str_contains 37 s = false -> unquote_to_bytes s = s.
Proof.
  induction s as [|c r IH]; [reflexivity|]. cbn [str_contains existsb].
  intros H. apply orb_false_elim in H as [Hc Hr].
  cbn [unquote_to_bytes]. rewrite N.eqb_sym, Hc. f_equal. now apply IH.
Qed.

Lemma unquote_go_ascii (s : str) :
  Forall (fun c => (c < 128)%N) s ->
  forall run, unquote_go run s = utf8_decode (unquote_to_bytes (run ++ s)).
Proof.
  induction 1 as [|c r Hc _ IH]; intros run; cbn [unquote_go].
  - now rewrite app_nil_r.
  - apply N.ltb_lt in Hc. rewrite Hc, IH. now rewrite <- app_assoc.
Qed.

(** On an ASCII string [unquote] percent-decodes and then decodes UTF-8. *)
Lemma unquote_ascii (s : str) :
  Forall (fun c => (c < 128)%N) s ->
  unquote s = utf8_decode (unquote_to_bytes s).
Proof.
  intros H. unfold unquote.
  destruct (str_contains 37 s) eqn:E; cbn [negb].
  - now rewrite unquote_go_ascii.
  - now rewrite unquote_to_bytes_plain, utf8_decode_ascii.
Qed.

Lemma is_hexdig_ascii (d : N) : is_hexdig d = true -> (d < 128)%N.
Proof.
  intros H.
  have_char_fact (fun d => implb (is_hexdig d) (d <? 128)%N) d A.
  rewrite H in A. now apply N.ltb_lt.
Qed.

Lemma spells_byte_decodes (seg : str) (b : N) (rest : str) :
  spells_byte seg b = true ->
  unquote_to_bytes (seg ++ rest) = b :: unquote_to_bytes rest
  /\ Forall (fun c => (c < 128)%N) seg.
Proof.
  destruct seg as [|x [|d1 [|d2 [|? ?]]]]; try discriminate; cbn [spells_byte].
  - intros H. apply andb_prop in H as [H Hlt]. apply andb_prop in H as [Hx Hp].
    apply N.eqb_eq in Hx as ->. apply N.ltb_lt in Hlt.
    apply negb_true_iff in Hp. cbn [app unquote_to_bytes]. rewrite Hp.
    split; [reflexivity|]. apply Forall_cons_2; [lia | apply Forall_nil_2].
  - intros H. apply andb_prop in H as [H Hv]. apply andb_prop in H as [H H2].
    apply andb_prop in H as [Hp H1].
    apply N.eqb_eq in Hp as ->. apply N.eqb_eq in Hv as <-.
    cbn [app unquote_to_bytes]. rewrite H1, H2. cbn.
    split; [reflexivity|].
    apply is_hexdig_ascii in H1, H2.
    repeat (apply Forall_cons_2; [lia|]). apply Forall_nil_2.
Qed.

Lemma unquote_segments (seg : N -> str) (bs : list N) :
  (forall b, (b < 256)%N -> spells_byte (seg b) b = true) ->
  Forall (fun b => (b < 256)%N) bs ->
  unquote_to_bytes (flat_map seg bs) = bs
  /\ Forall (fun c => (c < 128)%N) (flat_map seg bs).
Proof.
  intros Hseg. induction 1 as [|b r Hb _ [IH1 IH2]]; [now split|].
  cbn [flat_map].
  destruct (spells_byte_decodes (seg b) b (flat_map seg r) (Hseg b Hb))
    as [-> Hasc].
  split; [now f_equal | now apply Forall_app].
Qed.

(** A property of every byte, checked on the 256 of them. *)
Lemma all_bytes (P : N -> bool) :
  forallb P (map N.of_nat (seq 0 256)) = true ->
  forall b, (b < 256)%N -> P b = true.
Proof.
  intros H b Hb. rewrite forallb_forall in H. apply H.
  apply in_map_iff. exists (N.to_nat b). split; [lia|].
  apply in_seq. lia.
Qed.

Lemma quoter_spells (b : N) :
  (b < 256)%N ->
  spells_byte (str_replace 43 32 (quoter [] b)) b = true
  /\ spells_byte (str_replace 43 32 (str_replace 32 43 (quoter [32%N] b))) b
     = true
  /\ forallb quote_char (quoter [] b) = true
  /\ forallb quote_char (str_replace 32 43 (quoter [32%N] b)) = true.
Proof.
  intros Hb.
  pose proof (all_bytes (fun b =>
    spells_byte (str_replace 43 32 (quoter [] b)) b
    && spells_byte (str_replace 43 32 (str_replace 32 43 (quoter [32%N] b))) b
    && forallb quote_char (quoter [] b)
    && forallb quote_char (str_replace 32 43 (quoter [32%N] b)))
    ltac:(vm_compute; reflexivity) b Hb) as H.
  cbv beta in H.
  apply andb_prop in H as [H H4]. apply andb_prop in H as [H H3].
  apply andb_prop in H as [H1 H2]. auto.
Qed.

Lemma str_replace_flat_map (a b : N) (f : N -> str) (l : list N) :
  str_replace a b (flat_map f l) = flat_map (fun x => str_replace a b (f x)) l.
Proof.
  unfold str_replace. induction l as [|x r IH]; [reflexivity|].
  cbn [flat_map]. now rewrite map_app, IH.
Qed.

Lemma forallb_flat_map {A B} (P : B -> bool) (f : A -> list B) (l : list A) :
  (forall x, x ∈ l -> forallb P (f x) = true) ->
  forallb P (flat_map f l) = true.
Proof.
  induction l as [|x r IH]; intros H; [reflexivity|].
  cbn [flat_map]. rewrite forallb_app, H, IH; [reflexivity | | left].
  intros y Hy. apply H. now right.
Qed.

(** What [quote_plus] writes is made of quote characters, and reading it
    back (plus signs as spaces, then [unquote]) gives the text again. *)
Lemma quote_plus_spec (k k' : str) :
  quote_plus k = Some k' ->
  forallb quote_char k' = true /\ unquote (str_replace 43 32 k') = k.
Proof.
  unfold quote_plus, quote. intros H.
  destruct k as [|c r]; [injection H as <-; now split|].
  set (s := c :: r) in *. clearbody s.
  destruct (utf8_encode s) as [bs|] eqn:Ebs;
    [|destruct (negb (str_contains 32 s)); discriminate].
  pose proof (utf8_encode_bytes _ _ Ebs) as Hbytes.
  pose proof (utf8_decode_encode _ _ Ebs) as Hdec.
  assert (Hin : forall b, b ∈ bs -> (b < 256)%N)
    by (now apply Forall_forall).
  destruct (negb (str_contains 32 s)); cbn in H; injection H as <-;
    unfold quote_from_bytes.
  - split.
    + apply forallb_flat_map. intros b Hb. now apply quoter_spells, Hin.
    + rewrite str_replace_flat_map.
      destruct (unquote_segments
                  (fun b => str_replace 43 32 (quoter [] b)) bs) as [E Hasc];
        [intros b Hb; now apply quoter_spells | exact Hbytes |].
      now rewrite unquote_ascii, E.
  - split.
    + rewrite str_replace_flat_map. apply forallb_flat_map.
      intros b Hb. now apply quoter_spells, Hin.
    + rewrite !str_replace_flat_map.
      destruct (unquote_segments
                  (fun b => str_replace 43 32
                              (str_replace 32 43 (quoter [32%N] b))) bs)
        as [E Hasc];
        [intros b Hb; now apply quoter_spells | exact Hbytes |].
      now rewrite unquote_ascii, E.
Qed.

(** *** Splitting and joining on a character *)

Lemma str_contains_app (c : N) (a b : str) :
  str_contains c (a ++ b) = str_contains c a || str_contains c b.
Proof. apply existsb_app. Qed.

Lemma str_contains_false (c : N) (s : str) :
  str_contains c s = false <-> c ∉ s.
Proof.
  unfold str_contains. rewrite <- not_true_iff_false, existsb_exists.
  split.
  - intros H Hin. apply H. exists c. split; [now apply list_elem_of_In|].
    apply N.eqb_refl.
  - intros H (x & Hx & E). apply N.eqb_eq in E as <-.
    now apply H, list_elem_of_In.
Qed.

Lemma str_split_go_plain (sep : N) (s : str) :
  str_contains sep s = false ->
  forall cur, str_split_go sep cur s = [cur ++ s].
Proof.
  induction s as [|c r IH]; intros H cur; cbn [str_split_go].
  - now rewrite app_nil_r.
  - cbn [str_contains existsb] in H. apply orb_false_elim in H as [Hc Hr].
    rewrite N.eqb_sym, Hc, IH by exact Hr. now rewrite <- app_assoc.
Qed.

Lemma str_split_go_app (sep : N) (s t : str) :
  str_contains sep s = false ->
  forall cur,
    str_split_go sep cur (s ++ sep :: t) = (cur ++ s) :: str_split_go sep [] t.
Proof.
  induction s as [|c r IH]; intros H cur; cbn [str_split_go app].
  - now rewrite N.eqb_refl, app_nil_r.
  - cbn [str_contains existsb] in H. apply orb_false_elim in H as [Hc Hr].
    rewrite N.eqb_sym, Hc, IH by exact Hr. now rewrite <- app_assoc.
Qed.

(** Splitting a joined list gives the list back when no item holds the
    separator. *)
Lemma str_split_join (sep : N) (items : list str) :
  items <> [] ->
  Forall (fun item => str_contains sep item = false) items ->
  str_split sep (str_join [sep] items) = items.
Proof.
  intros Hne Hall. unfold str_split.
  induction Hall as [|item rest Hitem Hrest IH]; [congruence|].
  destruct rest as [|item' rest'].
  - cbn [str_join]. now rewrite str_split_go_plain.
  - rewrite str_join_cons by discriminate. cbn [app].
    rewrite str_split_go_app by exact Hitem. cbn [app]. f_equal.
    now apply IH.
Qed.

Lemma str_partition_app (c : N) (a b : str) :
  str_contains c a = false -> str_partition c (a ++ c :: b) = (a, true, b).
Proof.
  induction a as [|x r IH]; intros H; cbn [str_partition app].
  - now rewrite N.eqb_refl.
  - cbn [str_contains existsb] in H. apply orb_false_elim in H as [Hc Hr].
    rewrite N.eqb_sym, Hc, IH by exact Hr. reflexivity.
Qed.

(** A string of quote characters holds none of the delimiters. *)
Lemma quote_char_not (c : N) (s : str) :
  quote_char c = false -> forallb quote_char s = true ->
  str_contains c s = false.
Proof.
  intros Hc Hs. apply str_contains_false. intros Hin.
  rewrite forallb_forall in Hs. apply list_elem_of_In, Hs in Hin. congruence.
Qed.

(** *** parse_qsl after urlencode *)

Lemma parse_field_item (k v k' v' : str) :
  quote_plus k = Some k' -> quote_plus v = Some v' ->
  parse_field (k' ++ 61%N :: v') = [(k, v)].
Proof.
  intros Hk Hv.
  destruct (quote_plus_spec _ _ Hk) as [Hck Huk].
  destruct (quote_plus_spec _ _ Hv) as [Hcv Huv].
  unfold parse_field.
  rewrite str_partition_app by (now apply quote_char_not).
  rewrite Huk, Huv. now destruct k'.
Qed.

Lemma urlencode_items_spec (q : list (str * str)) :
  forall items,
    urlencode_items q = Some items ->
    flat_map parse_field items = q
    /\ Forall (fun item => str_contains 38 item = false) items
    /\ Forall (fun item => forallb is_query_char item = true
                           /\ str_contains 61 item = true) items
    /\ length items = length q.
Proof.
  induction q as [|[k v] rest IH]; intros items H; cbn [urlencode_items] in H.
  - injection H as <-. now repeat split.
  - destruct (quote_plus k) as [k'|] eqn:Hk; [|discriminate].
    destruct (quote_plus v) as [v'|] eqn:Hv; [|discriminate].
    destruct (urlencode_items rest) as [l|]; [|discriminate].
    cbn in H. injection H as <-.
    destruct (IH l eq_refl) as (Hpf & Hamp & Hch & Hlen).
    destruct (quote_plus_spec _ _ Hk) as [Hck _].
    destruct (quote_plus_spec _ _ Hv) as [Hcv _].
    split; [|split; [|split]].
    + cbn [flat_map app]. rewrite (parse_field_item k v) by assumption.
      cbn [app]. now f_equal.
    + constructor; [|exact Hamp]. cbn [app].
      change (k' ++ 61%N :: v') with (k' ++ [61%N] ++ v').
      rewrite !str_contains_app.
      rewrite (quote_char_not 38 k'), (quote_char_not 38 v')
        by (assumption || reflexivity).
      reflexivity.
    + constructor; [|exact Hch]. cbn [app].
      change (k' ++ 61%N :: v') with (k' ++ [61%N] ++ v'). split.
      * rewrite !forallb_app. cbn [forallb].
        assert (Hq : forall s, forallb quote_char s = true ->
                               forallb is_query_char s = true).
        { intros s Hs. rewrite forallb_forall in *. intros x Hx.
          unfold is_query_char. now rewrite (Hs x Hx). }
        now rewrite !Hq by assumption.
      * rewrite !str_contains_app. cbn. now rewrite orb_true_r.
    + cbn [length]. now f_equal.
Qed.

(** The query string written by [urlencode] is made of query characters
    and parses back to the pairs it was written from. *)
Lemma parse_qsl_urlencode (q : list (str * str)) (qs : str) :
  urlencode q = Some qs ->
  parse_qsl qs = q /\ forallb is_query_char qs = true.
Proof.
  unfold urlencode. intros H.
  destruct (urlencode_items q) as [items|] eqn:E; [|discriminate].
  cbn in H. injection H as <-.
  destruct (urlencode_items_spec _ _ E) as (Hpf & Hamp & Hch & Hlen).
  destruct items as [|item rest].
  - destruct q; [now split | discriminate].
  - split.
    + unfold parse_qsl.
      assert (Hne : str_join [38%N] (item :: rest) <> []).
      { apply Forall_cons_1 in Hch as [[_ Heq] _].
        destruct rest; cbn [str_join]; destruct item; try discriminate. }
      destruct (str_join [38%N] (item :: rest)) eqn:Ej; [congruence|].
      rewrite <- Ej, str_split_join by (assumption || discriminate).
      exact Hpf.
    + clear -Hch. induction Hch as [|it r [Hit _] _ IH]; [reflexivity|].
      destruct r; [exact Hit|].
      rewrite str_join_cons by discriminate.
      rewrite !forallb_app, Hit, IH. reflexivity.
Qed.

(** *** Finding a character *)

Lemma str_find_from_shift (c : N) (s : str) :
  forall i, str_find_from i c s
            = if str_find_from 0 c s <? 0 then -1 else i + str_find_from 0 c s.
Proof.
  induction s as [|x r IH]; intros i; cbn [str_find_from]; [reflexivity|].
  destruct (N.eqb x c).
  - cbn. lia.
  - rewrite (IH (i + 1)), (IH (0 + 1)).
    destruct (str_find_from 0 c r <? 0) eqn:E; [reflexivity|].
    apply Z.ltb_ge in E.
    destruct (Z.ltb_spec (0 + 1 + str_find_from 0 c r) 0); lia.
Qed.

Lemma str_find_none (c : N) (s : str) :
  str_contains c s = false -> str_find c s = -1.
Proof.
  unfold str_find. induction s as [|x r IH]; [reflexivity|].
  cbn [str_contains existsb str_find_from]. intros H.
  apply orb_false_elim in H as [Hc Hr]. rewrite N.eqb_sym, Hc.
  rewrite str_find_from_shift, IH by exact Hr. reflexivity.
Qed.

Lemma str_find_app (c : N) (a b : str) :
  str_contains c a = false -> str_find c (a ++ c :: b) = len a.
Proof.
  unfold str_find. induction a as [|x r IH]; cbn [app str_find_from].
  - now rewrite N.eqb_refl.
  - cbn [str_contains existsb]. intros H.
    apply orb_false_elim in H as [Hc Hr]. rewrite N.eqb_sym, Hc.
    rewrite str_find_from_shift, IH by exact Hr.
    pose proof (len_nonneg r). unfold len in *. cbn [length].
    destruct (Z.ltb_spec (Z.of_nat (length r)) 0); lia.
Qed.

(** A string holds no [c], or splits at its first [c]. *)
Lemma first_occurrence (c : N) (s : str) :
  str_contains c s = false
  \/ exists a b, s = a ++ c :: b /\ str_contains c a = false.
Proof.
  induction s as [|x r [IH | (a & b & -> & Ha)]].
  - now left.
  - destruct (N.eqb_spec c x) as [<- | Hne].
    + right. now exists [], r.
    + left. cbn [str_contains existsb].
      apply N.eqb_neq in Hne. now rewrite Hne.
  - right. destruct (N.eqb_spec c x) as [<- | Hne].
    + now exists [], (a ++ c :: b).
    + exists (x :: a), b. split; [reflexivity|].
      cbn [str_contains existsb]. apply N.eqb_neq in Hne. now rewrite Hne.
Qed.

Lemma slice_to_len_app (a b : str) : slice_to (len a) (a ++ b) = a.
Proof.
  unfold slice_to, len. rewrite Nat2Z.id. now rewrite take_app_length.
Qed.

Lemma slice_from_len_app (a : str) (c : N) (b : str) :
  slice_from (len a + 1) (a ++ c :: b) = b.
Proof.
  unfold slice_from, len.
  replace (Z.to_nat (Z.of_nat (length a) + 1)) with (length a + 1)%nat by lia.
  rewrite <- drop_drop, drop_app_length. reflexivity.
Qed.

(** *** The stages of urlsplit *)

Lemma scheme_char_not_colon (s : str) :
  forallb is_scheme_char s = true -> str_contains 58 s = false.
Proof.
  intros H. apply str_contains_false. intros Hin.
  rewrite forallb_forall in H. apply list_elem_of_In, H in Hin. discriminate.
Qed.

Lemma has_scheme_at_colon (a b : str) :
  str_contains 58 a = false ->
  has_scheme (a ++ 58%N :: b)
  = nonempty a && is_ascii_alpha (hd 0%N a) && forallb is_scheme_char a.
Proof.
  intros Ha. unfold has_scheme. rewrite str_find_app by exact Ha.
  rewrite slice_to_len_app. destruct a as [|x r]; [reflexivity|].
  cbn [app hd nonempty]. unfold len. cbn [length].
  now destruct (Z.ltb_spec 0 (Z.of_nat (S (length r)))); [|lia].
Qed.

Lemma has_scheme_no_colon (s : str) :
  str_contains 58 s = false -> has_scheme s = false.
Proof. intros H. unfold has_scheme. now rewrite str_find_none. Qed.

(** A delimiter after the text does not change the scheme test. *)
Lemma has_scheme_app_delim (x : str) (c : N) (t : str) :
  is_scheme_char c = false -> c <> 58%N ->
  has_scheme (x ++ c :: t) = has_scheme x.
Proof.
  intros Hc Hne.
  destruct (first_occurrence 58 x) as [Hx | (a & b & -> & Ha)].
  - rewrite (has_scheme_no_colon x) by exact Hx.
    destruct (first_occurrence 58 t) as [Ht | (a & b & -> & Ha)].
    + apply has_scheme_no_colon. rewrite str_contains_app, Hx.
      cbn [str_contains existsb orb]. apply N.eqb_neq in Hne.
      now rewrite N.eqb_sym, Hne.
    + change (x ++ c :: a ++ 58%N :: b) with (x ++ (c :: a) ++ 58%N :: b).
      rewrite app_assoc, has_scheme_at_colon.
      * rewrite forallb_app. cbn [forallb]. rewrite Hc.
        now rewrite andb_false_r, andb_false_r.
      * rewrite str_contains_app, Hx. cbn [str_contains existsb orb].
        apply N.eqb_neq in Hne. now rewrite N.eqb_sym, Hne.
  - rewrite <- app_assoc. cbn [app]. now rewrite !has_scheme_at_colon.
Qed.

Lemma split_scheme_cases (url : str) :
  (split_scheme url = ([], url) /\ has_scheme url = false)
  \/ (exists a b,
         url = a ++ 58%N :: b /\ is_ascii_alpha (hd 0%N a) = true
         /\ forallb is_scheme_char a = true
         /\ split_scheme url = (str_lower a, b)).
Proof.
  unfold split_scheme. destruct (has_scheme url) eqn:E; [|now left].
  right. destruct (first_occurrence 58 url) as [H | (a & b & -> & Ha)].
  - now rewrite has_scheme_no_colon in E.
  - rewrite has_scheme_at_colon in E by exact Ha.
    apply andb_prop in E as [E Hsc]. apply andb_prop in E as [_ Hal].
    exists a, b. repeat split; try assumption.
    rewrite str_find_app by exact Ha.
    now rewrite slice_to_len_app, slice_from_len_app.
Qed.

Lemma valid_scheme_nonempty (scheme : str) :
  valid_scheme scheme -> nonempty scheme = true.
Proof. intros [H _]. now destruct scheme. Qed.

Lemma split_scheme_build (scheme rest : str) :
  valid_scheme scheme -> split_scheme (scheme ++ 58%N :: rest) = (scheme, rest).
Proof.
  intros Hv. pose proof (valid_scheme_nonempty _ Hv) as Hne.
  destruct Hv as (Hal & Hsc & Hlow).
  unfold split_scheme.
  rewrite has_scheme_at_colon, Hne, Hal, Hsc
    by now apply scheme_char_not_colon.
  cbn [andb]. rewrite str_find_app by now apply scheme_char_not_colon.
  now rewrite slice_to_len_app, slice_from_len_app, Hlow.
Qed.

Lemma break_at_spec (p : N -> bool) (s : str) :
  forall a b, break_at p s = (a, b) ->
    s = a ++ b /\ forallb (fun c => negb (p c)) a = true
    /\ (b = [] \/ p (hd 0%N b) = true).
Proof.
  induction s as [|c r IH]; intros a b H; cbn [break_at] in H.
  - injection H as <- <-. auto.
  - destruct (p c) eqn:Hc.
    + injection H as <- <-. cbn. auto.
    + destruct (break_at p r) as [a' b'] eqn:E. injection H as <- <-.
      destruct (IH _ _ eq_refl) as (-> & Ha & Hb).
      cbn [app forallb]. rewrite Hc, Ha. auto.
Qed.

Lemma break_at_build (p : N -> bool) (a b : str) :
  forallb (fun c => negb (p c)) a = true ->
  b = [] \/ p (hd 0%N b) = true ->
  break_at p (a ++ b) = (a, b).
Proof.
  intros Ha Hb. induction a as [|c r IH]; cbn [app].
  - destruct Hb as [-> | Hb]; [reflexivity|].
    destruct b as [|x t]; [reflexivity|]. cbn in *. now rewrite Hb.
  - cbn [forallb] in Ha. apply andb_prop in Ha as [Hc Hr].
    cbn [break_at]. apply negb_true_iff in Hc. now rewrite Hc, IH.
Qed.

Lemma split_authority_build (netloc rest : str) :
  forallb (fun c => negb (is_netloc_delim c)) netloc = true ->
  rest = [] \/ is_netloc_delim (hd 0%N rest) = true ->
  split_authority (47%N :: 47%N :: netloc ++ rest) = (netloc, rest).
Proof.
  intros Hn Hr. unfold split_authority, splitnetloc.
  rewrite bool_decide_eq_true_2 by reflexivity.
  unfold slice_from. cbn [Z.to_nat Pos.to_nat Pos.iter_op Nat.add drop].
  now apply break_at_build.
Qed.

Lemma split_authority_cases (url netloc rest : str) :
  split_authority url = (netloc, rest) ->
  (netloc = [] /\ rest = url /\ slice_to 2 url <> py "//")
  \/ (url = 47%N :: 47%N :: netloc ++ rest
      /\ forallb (fun c => negb (is_netloc_delim c)) netloc = true
      /\ (rest = [] \/ is_netloc_delim (hd 0%N rest) = true)).
Proof.
  unfold split_authority. case_bool_decide as Hs.
  - intros H. right. unfold splitnetloc in H.
    apply break_at_spec in H as (E & Hn & Hr).
    destruct url as [|x [|y t]]; try discriminate.
    change (py "//") with [47%N; 47%N] in Hs.
    unfold slice_to in Hs. cbn in Hs. injection Hs as -> ->.
    unfold slice_from in E.
    change (drop (Z.to_nat 2) (47%N :: 47%N :: t)) with t in E.
    subst t. auto.
  - intros H. injection H as <- <-. now left.
Qed.

Lemma split_authority_none (url : str) :
  slice_to 2 url <> py "//" -> split_authority url = ([], url).
Proof. intros H. unfold split_authority. now rewrite bool_decide_eq_false_2. Qed.

Lemma str_partition_spec (c : N) (s : str) :
  forall a found b, str_partition c s = (a, found, b) ->
    str_contains c a = false
    /\ (if found then s = a ++ c :: b else s = a /\ b = []).
Proof.
  induction s as [|x r IH]; intros a found b H; cbn [str_partition] in H.
  - now injection H as <- <- <-.
  - destruct (N.eqb_spec x c) as [-> | Hne].
    + now injection H as <- <- <-.
    + destruct (str_partition c r) as [[a' f'] b'] eqn:E.
      injection H as <- <- <-. destruct (IH _ _ _ eq_refl) as [Ha Hs].
      split.
      * cbn [str_contains existsb]. apply N.eqb_neq in Hne.
        now rewrite N.eqb_sym, Hne.
      * destruct f'; [now subst r | destruct Hs as [-> ->]; auto].
Qed.

Lemma split_once_cases (c : N) (url a b : str) :
  split_once c url = (a, b) ->
  str_contains c a = false /\ (url = a /\ b = [] \/ url = a ++ c :: b).
Proof.
  unfold split_once. destruct (str_contains c url) eqn:E.
  - destruct (str_partition c url) as [[a' f] b'] eqn:Ep.
    intros H. injection H as <- <-.
    destruct (str_partition_spec _ _ _ _ _ Ep) as [Ha Hs].
    split; [exact Ha|]. destruct f; [now right | left; tauto].
  - intros H. injection H as <- <-. auto.
Qed.

Lemma split_once_build (c : N) (a b : str) :
  str_contains c a = false -> split_once c (a ++ c :: b) = (a, b).
Proof.
  intros Ha. unfold split_once.
  rewrite str_contains_app. cbn [str_contains existsb].
  rewrite N.eqb_refl, orb_true_r. cbn [orb].
  now rewrite str_partition_app.
Qed.

Lemma split_once_plain (c : N) (a : str) :
  str_contains c a = false -> split_once c a = (a, []).
Proof. intros Ha. unfold split_once. now rewrite Ha. Qed.

(** *** Cleaning the input of urlsplit *)

Lemma lstrip_c0_head (s : str) :
  lstrip_c0 s = [] \/ (32 < hd 0 (lstrip_c0 s))%N.
Proof.
  induction s as [|c r IH]; [now left|]. cbn [lstrip_c0].
  destruct (N.leb_spec c 32); [exact IH | right; cbn; lia].
Qed.

Lemma lstrip_c0_fixed (s : str) :
  s = [] \/ (32 < hd 0 s)%N -> lstrip_c0 s = s.
Proof.
  intros [-> | H]; [reflexivity|]. destruct s as [|c r]; [reflexivity|].
  cbn in *. destruct (N.leb_spec c 32); [lia | reflexivity].
Qed.

Lemma lstrip_c0_fixed_inv (s : str) :
  lstrip_c0 s = s -> s = [] \/ (32 < hd 0 s)%N.
Proof. intros <-. apply lstrip_c0_head. Qed.

Lemma no_unsafe_app (a b : str) :
  no_unsafe (a ++ b) <-> no_unsafe a /\ no_unsafe b.
Proof. unfold no_unsafe. rewrite forallb_app. apply andb_true_iff. Qed.

Lemma no_unsafe_cons (c : N) (s : str) :
  no_unsafe (c :: s) <-> is_unsafe c = false /\ no_unsafe s.
Proof.
  unfold no_unsafe. cbn [forallb]. rewrite andb_true_iff, negb_true_iff.
  reflexivity.
Qed.

Lemma remove_unsafe_safe (s : str) : no_unsafe (remove_unsafe s).
Proof.
  unfold no_unsafe, remove_unsafe. apply forallb_forall.
  intros x Hx. now apply filter_In in Hx.
Qed.

Lemma remove_unsafe_fixed (s : str) : no_unsafe s -> remove_unsafe s = s.
Proof.
  unfold no_unsafe, remove_unsafe. induction s as [|c r IH]; [reflexivity|].
  cbn [forallb List.filter]. intros H. apply andb_prop in H as [-> Hr].
  now rewrite IH.
Qed.

Lemma clean_fixed (s : str) :
  no_unsafe s -> s = [] \/ (32 < hd 0 s)%N ->
  remove_unsafe (lstrip_c0 s) = s.
Proof.
  intros Hs Hh. now rewrite lstrip_c0_fixed, remove_unsafe_fixed.
Qed.

Lemma clean_head (s : str) :
  remove_unsafe (lstrip_c0 s) = []
  \/ (32 < hd 0 (remove_unsafe (lstrip_c0 s)))%N.
Proof.
  destruct (lstrip_c0_head s) as [-> | H]; [now left|].
  destruct (lstrip_c0 s) as [|c r]; [now left|]. right.
  cbn [hd] in H. unfold remove_unsafe. cbn [List.filter].
  replace (is_unsafe c) with false; [cbn; lia|].
  unfold is_unsafe. symmetry.
  destruct (N.eqb_spec c 9), (N.eqb_spec c 13), (N.eqb_spec c 10);
    try reflexivity; lia.
Qed.

Lemma forallb_impl {A} (P Q : A -> bool) (l : list A) :
  (forall x, P x = true -> Q x = true) ->
  forallb P l = true -> forallb Q l = true.
Proof.
  intros H. rewrite !forallb_forall. intros Hl x Hx. now apply H, Hl.
Qed.

Lemma scheme_char_safe (c : N) :
  is_scheme_char c = true -> negb (is_unsafe c) = true.
Proof.
  intros H.
  have_char_fact (fun c => implb (is_scheme_char c) (negb (is_unsafe c))) c A.
  now rewrite H in A.
Qed.

Lemma query_char_props (c : N) :
  is_query_char c = true ->
  negb (is_unsafe c) = true /\ c <> 35%N /\ c <> 63%N /\ c <> 58%N
  /\ (32 < c)%N.
Proof.
  intros H.
  have_char_fact
    (fun c => implb (is_query_char c)
                (negb (is_unsafe c) && negb (c =? 35) && negb (c =? 63)
                 && negb (c =? 58) && (32 <? c))%N) c A.
  rewrite H in A. cbn [implb] in A.
  apply andb_prop in A as [A A5]. apply andb_prop in A as [A A4].
  apply andb_prop in A as [A A3]. apply andb_prop in A as [A1 A2].
  apply negb_true_iff in A2, A3, A4.
  apply N.eqb_neq in A2, A3, A4. apply N.ltb_lt in A5. auto.
Qed.

Lemma query_chars_no (c : N) (qs : str) :
  is_query_char c = false -> forallb is_query_char qs = true ->
  str_contains c qs = false.
Proof.
  intros Hc Hs. apply str_contains_false. intros Hin.
  rewrite forallb_forall in Hs. apply list_elem_of_In, Hs in Hin. congruence.
Qed.

Lemma query_chars_safe (qs : str) :
  forallb is_query_char qs = true -> no_unsafe qs.
Proof. apply forallb_impl. intros c H. now apply query_char_props. Qed.

(** *** Lower case *)

Lemma lower_char_idem (c : N) : lower_char (lower_char c) = lower_char c.
Proof.
  apply N.eqb_eq.
  char_fact (fun c => lower_char (lower_char c) =? lower_char c)%N c.
Qed.

Lemma str_lower_idem (s : str) : str_lower (str_lower s) = str_lower s.
Proof.
  unfold str_lower. rewrite map_map. apply map_ext, lower_char_idem.
Qed.

Lemma lower_char_scheme (c : N) :
  is_scheme_char c = true -> is_scheme_char (lower_char c) = true.
Proof.
  intros H.
  have_char_fact
    (fun c => implb (is_scheme_char c) (is_scheme_char (lower_char c))) c A.
  now rewrite H in A.
Qed.

Lemma lower_char_alpha (c : N) :
  is_ascii_alpha c = true -> is_ascii_alpha (lower_char c) = true.
Proof.
  intros H.
  have_char_fact
    (fun c => implb (is_ascii_alpha c) (is_ascii_alpha (lower_char c))) c A.
  now rewrite H in A.
Qed.

Lemma valid_scheme_lower (a : str) :
  is_ascii_alpha (hd 0%N a) = true -> forallb is_scheme_char a = true ->
  valid_scheme (str_lower a).
Proof.
  intros Hal Hsc. split; [|split].
  - destruct a as [|c r]; [discriminate|]. cbn in *. now apply lower_char_alpha.
  - unfold str_lower. rewrite forallb_forall in *. intros x Hx.
    apply in_map_iff in Hx as (y & <- & Hy). now apply lower_char_scheme, Hsc.
  - apply str_lower_idem.
Qed.

Lemma valid_scheme_safe (scheme : str) : valid_scheme scheme -> no_unsafe scheme.
Proof.
  intros (_ & H & _). revert H. apply forallb_impl, scheme_char_safe.
Qed.

Lemma has_scheme_head (s : str) :
  is_ascii_alpha (hd 0%N s) = false -> has_scheme s = false.
Proof. intros H. unfold has_scheme. now rewrite H, andb_false_r. Qed.

(** *** The components urlsplit returns *)

Section UrlSplit.

Context {nc : NetlocCheck}.

(** The result of [urlsplit] in terms of its stages. *)
Lemma urlsplit_stages (u : str) (sp : SplitResult) :
  urlsplit u = Some sp ->
  exists url2 url3 url4,
    split_scheme (remove_unsafe (lstrip_c0 u)) = (u_scheme sp, url2)
    /\ split_authority url2 = (u_netloc sp, url3)
    /\ split_once 35 url3 = (url4, u_fragment sp)
    /\ split_once 63 url4 = (u_path sp, u_query sp)
    /\ negb (nonempty (u_netloc sp)) || netloc_ok (u_netloc sp) = true.
Proof.
  unfold urlsplit.
  destruct (split_scheme _) as [scheme url2] eqn:E1.
  destruct (split_authority url2) as [netloc url3] eqn:E2.
  destruct (split_once 35 url3) as [url4 fragment] eqn:E3.
  destruct (split_once 63 url4) as [path query] eqn:E4.
  destruct (negb (nonempty netloc) || netloc_ok netloc) eqn:E; [|discriminate].
  intros H. injection H as <-. cbn [u_scheme u_netloc u_path u_query u_fragment].
  now exists url2, url3, url4.
Qed.

(** The path is what stands before the first [?] or [#] of the text after
    the authority. *)
Lemma path_prefix (url3 url4 path query fragment : str) :
  split_once 35 url3 = (url4, fragment) ->
  split_once 63 url4 = (path, query) ->
  str_contains 63 path = false /\ str_contains 35 path = false
  /\ exists t, url3 = path ++ t
               /\ (t = [] \/ hd 0%N t = 63%N \/ hd 0%N t = 35%N).
Proof.
  intros H3 H4.
  apply split_once_cases in H3 as [Hf H3], H4 as [Hq H4].
  assert (Hp : str_contains 35 path = false).
  { destruct H4 as [[-> _] | ->]; [exact Hf|].
    rewrite str_contains_app in Hf. now apply orb_false_elim in Hf. }
  split; [exact Hq|]. split; [exact Hp|].
  destruct H3 as [[-> ->] | ->], H4 as [[-> ->] | ->].
  - exists []. rewrite app_nil_r. auto.
  - exists (63%N :: query). cbn. auto.
  - exists (35%N :: fragment). cbn. auto.
  - exists (63%N :: query ++ 35%N :: fragment).
    rewrite <- app_assoc. cbn. auto.
Qed.

(** What [urlsplit] returns is well formed. *)
Lemma urlsplit_wf (u : str) (sp : SplitResult) :
  urlsplit u = Some sp -> wf_split sp.
Proof.
  intros H. destruct (urlsplit_stages _ _ H)
    as (url2 & url3 & url4 & E1 & E2 & E3 & E4 & _).
  destruct sp as [scheme netloc path query fragment]. cbn [u_scheme u_netloc
    u_path u_query u_fragment] in *.
  set (url1 := remove_unsafe (lstrip_c0 u)) in *.
  pose proof (remove_unsafe_safe (lstrip_c0 u)) as Hs1. fold url1 in Hs1.
  pose proof (clean_head u) as Hh1. fold url1 in Hh1. clearbody url1.
  destruct (path_prefix _ _ _ _ _ E3 E4) as (Hq & Hf & t & -> & Ht).
  (* the scheme stage *)
  assert (Hsch :
    (scheme = [] /\ url2 = url1 /\ has_scheme url1 = false)
    \/ (valid_scheme scheme /\ no_unsafe url2)).
  { destruct (split_scheme_cases url1) as [[E Hn] | (a & b & -> & Hal & Hsc & E)];
      rewrite E in E1; injection E1 as <- <-.
    - now left.
    - right. split; [now apply valid_scheme_lower|].
      apply no_unsafe_app in Hs1 as [_ Hs1].
      now apply no_unsafe_cons in Hs1. }
  assert (Hs2 : no_unsafe url2)
    by (destruct Hsch as [(_ & -> & _) | [_ ?]]; assumption).
  (* the authority stage *)
  apply split_authority_cases in E2.
  assert (Hs3 : no_unsafe netloc /\ no_unsafe (path ++ t)).
  { destruct E2 as [(-> & <- & _) | (-> & _ & _)]; [now split|].
    apply no_unsafe_cons in Hs2 as [_ Hs2].
    apply no_unsafe_cons in Hs2 as [_ Hs2].
    now apply no_unsafe_app in Hs2. }
  destruct Hs3 as [Hsn Hsp]. apply no_unsafe_app in Hsp as [Hsp _].
  assert (Hslash : forall rest : str,
             rest = path ++ t ->
             rest = [] \/ is_netloc_delim (hd 0%N rest) = true ->
             path = [] \/ hd 0%N path = 47%N).
  { intros rest -> Hr. destruct path as [|c r]; [now left|]. right.
    destruct Hr as [Hr | Hr]; [discriminate|]. cbn [hd app] in *.
    cbn [str_contains existsb] in Hq, Hf.
    apply orb_false_elim in Hq as [Hq _], Hf as [Hf _].
    apply N.eqb_neq in Hq, Hf. unfold is_netloc_delim in Hr.
    destruct (N.eqb_spec c 47); [assumption|].
    destruct (N.eqb_spec c 63); [congruence|].
    destruct (N.eqb_spec c 35); [congruence | discriminate]. }
  constructor; cbn [u_scheme u_netloc u_path u_query u_fragment].
  - destruct Hsch as [(-> & _) | [Hv _]]; auto.
  - destruct E2 as [(-> & _) | (_ & Hn & _)]; [reflexivity | exact Hn].
  - exact Hsn.
  - exact Hq.
  - exact Hf.
  - exact Hsp.
  - intros Hne. destruct E2 as [(-> & _) | (_ & _ & Hr)]; [congruence|].
    now apply (Hslash (path ++ t)).
  - intros -> ->.
    destruct Hsch as [(_ & -> & Hns) | [Hv _]];
      [|now apply valid_scheme_nonempty in Hv].
    destruct E2 as [(_ & <- & _) | (-> & _ & Hr)].
    + split.
      * destruct Ht as [-> | Ht]; [now rewrite app_nil_r in Hns|].
        destruct t as [|c t']; [now rewrite app_nil_r in Hns|].
        cbn [hd] in Ht. rewrite has_scheme_app_delim in Hns; [exact Hns| |];
          destruct Ht as [-> | ->]; (reflexivity || discriminate).
      * apply lstrip_c0_fixed. destruct path as [|c r]; [now left|]. right.
        destruct Hh1 as [Hh1 | Hh1]; [discriminate | exact Hh1].
    + destruct (Hslash (path ++ t) eq_refl Hr) as [-> | Hp].
      * now split.
      * split; [apply has_scheme_head; now rewrite Hp|].
        apply lstrip_c0_fixed. right. rewrite Hp. reflexivity.
Qed.

End UrlSplit.

(** *** Splitting what urlunsplit wrote *)

Section Canonical.

Context {nc : NetlocCheck}.

Lemma query_suffix_split (path qs : str) :
  str_contains 63 path = false -> str_contains 35 path = false ->
  forallb is_query_char qs = true ->
  split_once 35 (path ++ query_suffix qs) = (path ++ query_suffix qs, [])
  /\ split_once 63 (path ++ query_suffix qs) = (path, qs).
Proof.
  intros Hq Hf Hqs. unfold query_suffix.
  destruct qs as [|c qs']; cbn [nonempty].
  - rewrite app_nil_r. now rewrite !split_once_plain.
  - split; [|now apply split_once_build].
    apply split_once_plain. rewrite str_contains_app, Hf.
    cbn [orb]. change (63%N :: c :: qs') with ([63%N] ++ c :: qs').
    rewrite str_contains_app.
    rewrite (query_chars_no 35 (c :: qs')) by (reflexivity || assumption).
    reflexivity.
Qed.

Lemma no_unsafe_query_suffix (qs : str) :
  forallb is_query_char qs = true -> no_unsafe (query_suffix qs).
Proof.
  intros H. unfold query_suffix. destruct (nonempty qs); [|reflexivity].
  apply no_unsafe_cons. split; [reflexivity | now apply query_chars_safe].
Qed.

Lemma no_unsafe_scheme_prefix (scheme : str) :
  scheme = [] \/ valid_scheme scheme -> no_unsafe (scheme_prefix scheme).
Proof.
  unfold scheme_prefix. intros [-> | Hv]; [reflexivity|].
  rewrite (valid_scheme_nonempty _ Hv). apply no_unsafe_app.
  split; [now apply valid_scheme_safe | reflexivity].
Qed.

Lemma two_slashes_app (path t : str) :
  slice_to 2 path <> py "//" -> t = [] \/ hd 0%N t = 63%N ->
  slice_to 2 (path ++ t) <> py "//".
Proof.
  change (py "//") with [47%N; 47%N]. unfold slice_to.
  change (Z.to_nat 2) with 2%nat.
  intros Hp Ht. destruct path as [|c1 [|c2 r]]; cbn [app take] in *.
  - destruct Ht as [-> | Ht]; [discriminate|].
    destruct t as [|x [|y r]]; cbn [take hd] in *; subst; discriminate.
  - destruct Ht as [-> | Ht]; [discriminate|].
    destruct t as [|x r]; cbn [take hd] in *; subst; [discriminate|].
    destruct r; discriminate.
  - exact Hp.
Qed.

Lemma query_suffix_head (qs : str) :
  query_suffix qs = [] \/ hd 0%N (query_suffix qs) = 63%N.
Proof. unfold query_suffix. destruct (nonempty qs); auto. Qed.

(** [urlsplit] reads back the components of a URL written in the shape
    [scheme:] [//netloc] path [?query]. *)
Lemma urlsplit_build (scheme netloc path qs : str) (has_authority : bool) :
  scheme = [] \/ valid_scheme scheme ->
  forallb (fun c => negb (is_netloc_delim c)) netloc = true ->
  no_unsafe netloc ->
  str_contains 63 path = false -> str_contains 35 path = false ->
  no_unsafe path ->
  forallb is_query_char qs = true ->
  (if has_authority then path = [] \/ hd 0%N path = 47%N
   else netloc = [] /\ slice_to 2 path <> py "//") ->
  (scheme = [] -> has_authority = false ->
   has_scheme path = false /\ lstrip_c0 path = path) ->
  negb (nonempty netloc) || netloc_ok netloc = true ->
  urlsplit (scheme_prefix scheme ++ authority_prefix has_authority netloc
              ++ path ++ query_suffix qs)
  = Some (mkSplit scheme netloc path qs []).
Proof.
  intros Hsch Hnd Hns Hq Hf Hps Hqs Hauth Hrel Hok.
  set (rest := authority_prefix has_authority netloc ++ path ++ query_suffix qs).
  assert (Hrest_safe : no_unsafe rest).
  { unfold rest, authority_prefix. destruct has_authority.
    - cbn [app]. apply no_unsafe_cons. split; [reflexivity|].
      apply no_unsafe_cons. split; [reflexivity|].
      rewrite !no_unsafe_app. auto using no_unsafe_query_suffix.
    - cbn [app]. rewrite no_unsafe_app. auto using no_unsafe_query_suffix. }
  assert (Hclean : remove_unsafe (lstrip_c0 (scheme_prefix scheme ++ rest))
                   = scheme_prefix scheme ++ rest).
  { apply clean_fixed.
    - apply no_unsafe_app. auto using no_unsafe_scheme_prefix.
    - unfold scheme_prefix. destruct Hsch as [-> | Hv].
      + cbn [nonempty app]. unfold rest, authority_prefix.
        destruct has_authority; [right; cbn; lia|]. cbn [app].
        destruct (Hrel eq_refl eq_refl) as [_ Hl].
        apply lstrip_c0_fixed_inv in Hl.
        destruct path as [|c r].
        * cbn [app]. destruct (query_suffix_head qs) as [-> | H];
            [now left | right].
          destruct (query_suffix qs); [discriminate | cbn in *; subst; lia].
        * right. destruct Hl as [? | Hl]; [discriminate | exact Hl].
      + rewrite (valid_scheme_nonempty _ Hv). right.
        destruct Hv as (Hal & _). destruct scheme as [|c r]; [discriminate|].
        cbn [app hd] in *.
        have_char_fact (fun c => implb (is_ascii_alpha c) (32 <? c)%N) c A.
        rewrite Hal in A. now apply N.ltb_lt. }
  assert (Hss : split_scheme (scheme_prefix scheme ++ rest) = (scheme, rest)).
  { unfold scheme_prefix. destruct Hsch as [-> | Hv].
    - cbn [nonempty app]. unfold split_scheme.
      replace (has_scheme rest) with false; [reflexivity|]. symmetry.
      unfold rest, authority_prefix. destruct has_authority.
      + now apply has_scheme_head.
      + cbn [app]. destruct (Hrel eq_refl eq_refl) as [Hn _].
        unfold query_suffix. destruct (nonempty qs).
        * now rewrite has_scheme_app_delim.
        * now rewrite app_nil_r.
    - rewrite (valid_scheme_nonempty _ Hv), <- app_assoc.
      now apply split_scheme_build. }
  assert (Hsa : split_authority rest = (netloc, path ++ query_suffix qs)).
  { unfold rest, authority_prefix. destruct has_authority.
    - cbn [app]. apply split_authority_build; [exact Hnd|].
      destruct path as [|c r].
      + cbn [app]. destruct (query_suffix_head qs) as [-> | H]; [now left|].
        right. now rewrite H.
      + right. destruct Hauth as [? | Hp]; [discriminate|].
        cbn [app hd] in *. now subst c.
    - destruct Hauth as [-> Hp]. cbn [app].
      apply split_authority_none, two_slashes_app; [exact Hp|].
      apply query_suffix_head. }
  destruct (query_suffix_split path qs Hq Hf Hqs) as [Ef Eq].
  unfold urlsplit. rewrite Hclean, Hss, Hsa, Ef, Eq, Hok. reflexivity.
Qed.

(** [urlunsplit] without a fragment, in the same shape. *)
Lemma urlunsplit_shape (scheme netloc path qs : str) :
  let has_authority :=
    nonempty netloc
    || (nonempty scheme && str_in scheme uses_netloc
        && negb (bool_decide (slice_to 2 path = py "//"))) in
  let path' :=
    if has_authority
       && (nonempty path && negb (bool_decide (slice_to 1 path = py "/")))
    then 47%N :: path else path in
  urlunsplit scheme netloc path qs []
  = scheme_prefix scheme ++ authority_prefix has_authority netloc
      ++ path' ++ query_suffix qs.
Proof.
  cbv zeta. unfold urlunsplit, scheme_prefix, authority_prefix, query_suffix.
  change (py "//") with [47%N; 47%N]. change (py "/") with [47%N].
  change (py ":") with [58%N]. change (py "?") with [63%N].
  cbn [nonempty].
  destruct (nonempty netloc
            || nonempty scheme && str_in scheme uses_netloc
               && negb (bool_decide (slice_to 2 path = [47%N; 47%N])));
    cbn [andb];
    destruct (nonempty path && negb (bool_decide (slice_to 1 path = [47%N])));
    destruct (nonempty scheme); destruct (nonempty qs);
    cbn [app]; rewrite <- ?app_assoc, ?app_nil_r; cbn [app];
    rewrite <- ?app_assoc; reflexivity.
Qed.

Lemma slice_to_1_slash (path : str) :
  path = [] \/ hd 0%N path = 47%N ->
  nonempty path && negb (bool_decide (slice_to 1 path = py "/")) = false.
Proof.
  intros [-> | H]; [reflexivity|]. destruct path as [|c r]; [reflexivity|].
  cbn in H. subst c. reflexivity.
Qed.

(** Splitting the URL written from the components of a split, with a new
    query string, gives the same components back, up to a slash that
    [urlunsplit] puts before a relative path, and writing them again gives
    the same URL. *)
Lemma canonical_resplit (sp : SplitResult) (qs : str) :
  wf_split sp ->
  u_netloc sp <> [] \/ slice_to 2 (u_path sp) <> py "//" ->
  forallb is_query_char qs = true ->
  negb (nonempty (u_netloc sp)) || netloc_ok (u_netloc sp) = true ->
  exists path2,
    urlsplit (urlunsplit (u_scheme sp) (u_netloc sp) (u_path sp) qs [])
    = Some (mkSplit (u_scheme sp) (u_netloc sp) path2 qs [])
    /\ urlunsplit (u_scheme sp) (u_netloc sp) path2 qs []
       = urlunsplit (u_scheme sp) (u_netloc sp) (u_path sp) qs [].
Proof.
  intros [Hsch Hnd Hns Hq Hf Hps Hafter Hrel] Hshape Hqs Hok.
  destruct sp as [scheme netloc path query fragment].
  cbn [u_scheme u_netloc u_path u_query u_fragment] in *.
  pose proof (urlunsplit_shape scheme netloc path qs) as Hu. cbv zeta in Hu.
  destruct (nonempty netloc) eqn:En.
  - (* a network location: the path is empty or starts with a slash *)
    assert (Hp : path = [] \/ hd 0%N path = 47%N)
      by (apply Hafter; now destruct netloc).
    cbn [orb andb] in Hu. rewrite slice_to_1_slash in Hu by exact Hp.
    exists path. split; [|reflexivity]. rewrite Hu.
    apply urlsplit_build; try assumption; [|now rewrite En].
    intros _ ?. discriminate.
  - destruct netloc; [|discriminate]. cbn [orb] in Hu.
    destruct Hshape as [? | Hshape]; [congruence|].
    rewrite (bool_decide_eq_false_2 _ Hshape) in Hu. cbn [negb] in Hu.
    rewrite andb_true_r in Hu.
    destruct (nonempty scheme && str_in scheme uses_netloc) eqn:Eu;
      cbn [andb] in Hu.
    + (* a scheme that takes a network location: [//] is written *)
      set (path2 := if nonempty path
                       && negb (bool_decide (slice_to 1 path = py "/"))
                    then 47%N :: path else path) in *.
      assert (Hp2 : path2 = [] \/ hd 0%N path2 = 47%N).
      { unfold path2. destruct path as [|c r]; [now left|]. right.
        cbn [nonempty andb]. case_bool_decide as Hc; [|reflexivity].
        cbn [negb]. change (py "/") with [47%N] in Hc.
        unfold slice_to in Hc. change (Z.to_nat 1) with 1%nat in Hc.
        cbn [take] in Hc. now injection Hc as ->. }
      assert (Hshape2 : slice_to 2 path2 <> py "//").
      { unfold path2. destruct path as [|c r]; [discriminate|].
        cbn [nonempty andb]. case_bool_decide as Hc; [exact Hshape|].
        cbn [negb]. change (py "//") with [47%N; 47%N].
        change (py "/") with [47%N] in Hc. unfold slice_to in *.
        change (Z.to_nat 2) with 2%nat. change (Z.to_nat 1) with 1%nat in Hc.
        cbn [take] in *. intros E. injection E as ->. now apply Hc. }
      assert (Hq2 : str_contains 63 path2 = false
                    /\ str_contains 35 path2 = false /\ no_unsafe path2).
      { unfold path2. destruct (nonempty path && _); [|auto].
        repeat split; [now cbn [str_contains existsb]; rewrite ?Hq
                      | now cbn [str_contains existsb]; rewrite ?Hf
                      | now apply no_unsafe_cons]. }
      destruct Hq2 as (Hq2 & Hf2 & Hps2).
      exists path2. split.
      * rewrite Hu. apply andb_prop in Eu as [Esch _].
        apply urlsplit_build; try assumption.
        intros ->. discriminate.
      * rewrite Hu, urlunsplit_shape. cbv zeta. cbn [nonempty orb].
        rewrite Eu, (bool_decide_eq_false_2 _ Hshape2). cbn [negb andb].
        now rewrite slice_to_1_slash by exact Hp2.
    + exists path. split; [|reflexivity]. rewrite Hu.
      apply urlsplit_build; try assumption; [now split|].
      intros -> _. now apply Hrel.
Qed.

End Canonical.

(** *** A fragment does not reach the other components *)

Lemma lstrip_c0_app_hash (base f : str) :
  lstrip_c0 (base ++ 35%N :: f) = lstrip_c0 base ++ 35%N :: f.
Proof.
  induction base as [|c r IH]; [reflexivity|]. cbn [app lstrip_c0].
  now destruct (c <=? 32)%N.
Qed.

Lemma remove_unsafe_app (a b : str) :
  remove_unsafe (a ++ b) = remove_unsafe a ++ remove_unsafe b.
Proof. apply List.filter_app. Qed.

Lemma str_contains_lstrip_c0 (c : N) (s : str) :
  str_contains c s = false -> str_contains c (lstrip_c0 s) = false.
Proof.
  induction s as [|x r IH]; [reflexivity|]. cbn [lstrip_c0].
  destruct (x <=? 32)%N; [|auto]. cbn [str_contains existsb].
  intros H. apply orb_false_elim in H as [_ H]. now apply IH.
Qed.

Lemma str_contains_remove_unsafe (c : N) (s : str) :
  str_contains c s = false -> str_contains c (remove_unsafe s) = false.
Proof.
  rewrite !str_contains_false. intros H Hin. apply H.
  apply list_elem_of_In in Hin. apply filter_In in Hin as [Hin _].
  now apply list_elem_of_In.
Qed.

Lemma split_scheme_at (a rest : str) :
  is_ascii_alpha (hd 0%N a) = true -> forallb is_scheme_char a = true ->
  split_scheme (a ++ 58%N :: rest) = (str_lower a, rest).
Proof.
  intros Hal Hsc. pose proof (scheme_char_not_colon _ Hsc) as Hc.
  unfold split_scheme. rewrite has_scheme_at_colon, Hal, Hsc by exact Hc.
  destruct a as [|x r]; [discriminate|]. cbn [nonempty andb].
  rewrite str_find_app by exact Hc.
  now rewrite slice_to_len_app, slice_from_len_app.
Qed.

Lemma split_scheme_app_hash (url f : str) :
  split_scheme (url ++ 35%N :: f)
  = ((split_scheme url).1, (split_scheme url).2 ++ 35%N :: f).
Proof.
  destruct (split_scheme_cases url) as [[E Hn] | (a & b & -> & Hal & Hsc & E)];
    rewrite E; cbn [fst snd].
  - unfold split_scheme. now rewrite has_scheme_app_delim, Hn.
  - rewrite <- app_assoc. cbn [app]. now apply split_scheme_at.
Qed.

Lemma two_slashes_app_other (url t : str) :
  slice_to 2 url <> py "//" -> hd 0%N t <> 47%N ->
  slice_to 2 (url ++ t) <> py "//".
Proof.
  change (py "//") with [47%N; 47%N]. unfold slice_to.
  change (Z.to_nat 2) with 2%nat.
  intros Hp Ht. destruct url as [|c1 [|c2 r]]; cbn [app take] in *.
  - destruct t as [|x [|y r]]; cbn [take hd] in *; congruence.
  - destruct t as [|x r]; cbn [take hd] in *; congruence.
  - exact Hp.
Qed.

Lemma split_authority_app_hash (url f : str) :
  split_authority (url ++ 35%N :: f)
  = ((split_authority url).1, (split_authority url).2 ++ 35%N :: f).
Proof.
  destruct (split_authority url) as [netloc rest] eqn:E. cbn [fst snd].
  apply split_authority_cases in E as [(-> & -> & Hs) | (-> & Hn & Hr)].
  - apply split_authority_none, two_slashes_app_other; [exact Hs|].
    discriminate.
  - cbn [app]. rewrite <- app_assoc. apply split_authority_build; [exact Hn|].
    right. destruct Hr as [-> | Hr]; [reflexivity|].
    now destruct rest.
Qed.

Lemma str_contains_cons (c x : N) (s : str) :
  str_contains c (x :: s) = N.eqb c x || str_contains c s.
Proof. reflexivity. Qed.

Section Fragment.

Context {nc : NetlocCheck}.

(** Appending a fragment to a URL without one changes the fragment that
    [urlsplit] returns and nothing else. *)
Lemma urlsplit_fragment (base f : str) :
  str_contains 35 base = false ->
  urlsplit (base ++ 35%N :: f)
  = (fun sp => mkSplit (u_scheme sp) (u_netloc sp) (u_path sp) (u_query sp)
                       (remove_unsafe f)) <$> urlsplit base.
Proof.
  intros Hb. unfold urlsplit.
  rewrite lstrip_c0_app_hash, remove_unsafe_app.
  change (remove_unsafe (35%N :: f)) with (35%N :: remove_unsafe f).
  assert (H1 : str_contains 35 (remove_unsafe (lstrip_c0 base)) = false)
    by now apply str_contains_remove_unsafe, str_contains_lstrip_c0.
  set (url1 := remove_unsafe (lstrip_c0 base)) in *. clearbody url1.
  rewrite split_scheme_app_hash.
  assert (H2 : str_contains 35 (split_scheme url1).2 = false).
  { destruct (split_scheme_cases url1) as [[E _] | (a & b & -> & _ & _ & E)];
      rewrite E; cbn [snd]; [exact H1|].
    rewrite str_contains_app, str_contains_cons in H1.
    apply orb_false_elim in H1 as [_ H1]. now apply orb_false_elim in H1. }
  destruct (split_scheme url1) as [scheme url2]. cbn [fst snd] in *.
  rewrite split_authority_app_hash.
  assert (H3 : str_contains 35 (split_authority url2).2 = false).
  { destruct (split_authority url2) as [netloc rest] eqn:E. cbn [snd].
    apply split_authority_cases in E as [(_ & -> & _) | (-> & _ & _)];
      [exact H2|].
    change (47%N :: 47%N :: netloc ++ rest)
      with ([47%N; 47%N] ++ netloc ++ rest) in H2.
    rewrite !str_contains_app in H2.
    apply orb_false_elim in H2 as [_ H2]. now apply orb_false_elim in H2. }
  destruct (split_authority url2) as [netloc url3]. cbn [fst snd] in *.
  rewrite (split_once_build 35), (split_once_plain 35 url3) by exact H3.
  destruct (split_once 63 url3) as [path query].
  now destruct (negb (nonempty netloc) || netloc_ok netloc).
Qed.

End Fragment.

(** *** Canonicalization *)

Section StripTracking.

Context {nc : NetlocCheck}.

Lemma strip_tracking_unfold (u : str) (sp : SplitResult) :
  urlsplit u = Some sp ->
  _strip_tracking u
  = (fun qs => urlunsplit (u_scheme sp) (u_netloc sp) (u_path sp) qs [])
      <$> urlencode (kept_pairs (u_query sp)).
Proof.
  intros H. unfold _strip_tracking, kept_pairs. rewrite H. cbn.
  now destruct (urlencode _).
Qed.

Lemma filter_filter_same {A} (f : A -> bool) (l : list A) :
  List.filter f (List.filter f l) = List.filter f l.
Proof.
  induction l as [|x r IH]; [reflexivity|]. cbn [List.filter].
  destruct (f x) eqn:E; [|exact IH]. cbn [List.filter]. now rewrite E, IH.
Qed.

Lemma urlsplit_netloc_ok (u : str) (sp : SplitResult) :
  urlsplit u = Some sp ->
  negb (nonempty (u_netloc sp)) || netloc_ok (u_netloc sp) = true.
Proof.
  intros H. now destruct (urlsplit_stages _ _ H) as (? & ? & ? & ? & ? & ? & ? & ?).
Qed.

(** The canonical URL holds no [#]. *)
Lemma urlunsplit_no_fragment (sp : SplitResult) (qs : str) :
  wf_split sp -> forallb is_query_char qs = true ->
  str_contains 35
    (urlunsplit (u_scheme sp) (u_netloc sp) (u_path sp) qs []) = false.
Proof.
  intros [Hsch Hnd _ _ Hf _ _ _] Hqs. rewrite urlunsplit_shape. cbv zeta.
  rewrite !str_contains_app.
  assert (H1 : str_contains 35 (scheme_prefix (u_scheme sp)) = false).
  { unfold scheme_prefix. destruct Hsch as [-> | Hv]; [reflexivity|].
    rewrite (valid_scheme_nonempty _ Hv).
    destruct Hv as (_ & Hsc & _). apply str_contains_false. intros Hin.
    apply elem_of_app in Hin as [Hin | Hin].
    - rewrite forallb_forall in Hsc. apply list_elem_of_In, Hsc in Hin.
      discriminate.
    - apply list_elem_of_singleton in Hin. discriminate. }
  assert (H2 : forall b, str_contains 35 (authority_prefix b (u_netloc sp))
                         = false).
  { intros b. unfold authority_prefix. destruct b; [|reflexivity].
    rewrite !str_contains_cons. cbn [orb].
    apply str_contains_false. intros Hin.
    rewrite forallb_forall in Hnd. apply list_elem_of_In, Hnd in Hin.
    discriminate. }
  assert (H3 : str_contains 35 (query_suffix qs) = false).
  { unfold query_suffix. destruct (nonempty qs); [|reflexivity].
    rewrite str_contains_cons. now rewrite (query_chars_no 35 qs). }
  rewrite H1, H2, H3.
  destruct (_ && _); [rewrite str_contains_cons|]; now rewrite Hf.
Qed.

(** C2 (amended): canonicalization is idempotent on every URL that has a
    network location or whose path does not begin with two slashes; when
    the first application raises, so does the composition. *)
Theorem strip_tracking_idempotent (u : str) (sp : SplitResult) :
  urlsplit u = Some sp ->
  u_netloc sp <> [] \/ slice_to 2 (u_path sp) <> py "//" ->
  _strip_tracking u ≫= _strip_tracking = _strip_tracking u.
Proof.
  intros Hsp Hshape. rewrite (strip_tracking_unfold _ _ Hsp).
  destruct (urlencode (kept_pairs (u_query sp))) as [qs|] eqn:Eq;
    [|reflexivity].
  cbn [fmap option_fmap option_map mbind option_bind].
  destruct (parse_qsl_urlencode _ _ Eq) as [Hparse Hchars].
  destruct (canonical_resplit sp qs (urlsplit_wf _ _ Hsp) Hshape Hchars
              (urlsplit_netloc_ok _ _ Hsp)) as (path2 & Hre & Hsame).
  rewrite (strip_tracking_unfold _ _ Hre).
  cbn [u_scheme u_netloc u_path u_query].
  unfold kept_pairs at 1. rewrite Hparse. unfold kept_pairs.
  rewrite filter_filter_same. fold (kept_pairs (u_query sp)). rewrite Eq.
  cbn [fmap option_fmap option_map]. now rewrite Hsame.
Qed.

(** C3 (amended): canonicalization removes exactly the query parameters
    whose lower-cased name starts with [utm_], [fbclid], [gclid] or
    [mc_eid] (all four are prefix tests) and keeps the others in their
    order, re-encoded; the result holds no fragment; a URL that differs
    only by a fragment, or only in such parameters, has the same canonical
    form. *)
Theorem strip_tracking_removes_prefixed (u s : str) (sp : SplitResult) :
  urlsplit u = Some sp ->
  _strip_tracking u = Some s ->
  (forall k, is_tracking k = true
             <-> exists p, In p tracking_prefixes
                           /\ str_startswith p (str_lower k) = true)
  /\ (exists qs,
         s = urlunsplit (u_scheme sp) (u_netloc sp) (u_path sp) qs []
         /\ parse_qsl qs
            = List.filter (fun kv => negb (is_tracking kv.1))
                          (parse_qsl (u_query sp)))
  /\ str_contains 35 s = false
  /\ (forall f, str_contains 35 u = false ->
                _strip_tracking (u ++ 35%N :: f) = Some s)
  /\ (forall u2 sp2,
         urlsplit u2 = Some sp2 ->
         u_scheme sp2 = u_scheme sp -> u_netloc sp2 = u_netloc sp ->
         u_path sp2 = u_path sp ->
         List.filter (fun kv => negb (is_tracking kv.1))
                     (parse_qsl (u_query sp2))
         = List.filter (fun kv => negb (is_tracking kv.1))
                       (parse_qsl (u_query sp)) ->
         _strip_tracking u2 = Some s).
Proof.
  intros Hsp Hs. pose proof Hs as Hs'.
  rewrite (strip_tracking_unfold _ _ Hsp) in Hs'.
  destruct (urlencode (kept_pairs (u_query sp))) as [qs|] eqn:Eq;
    [|discriminate].
  cbn in Hs'. injection Hs' as <-.
  destruct (parse_qsl_urlencode _ _ Eq) as [Hparse Hchars].
  split; [|split; [|split; [|split]]].
  - intros k. unfold is_tracking. apply existsb_exists.
  - now exists qs.
  - apply urlunsplit_no_fragment; [now apply (urlsplit_wf u) | exact Hchars].
  - intros f Hu.
    assert (Hf : urlsplit (u ++ 35%N :: f)
                 = Some (mkSplit (u_scheme sp) (u_netloc sp) (u_path sp)
                                 (u_query sp) (remove_unsafe f)))
      by now rewrite urlsplit_fragment, Hsp.
    rewrite (strip_tracking_unfold _ _ Hf). cbn [u_scheme u_netloc u_path u_query].
    now rewrite Eq.
  - intros u2 sp2 Hsp2 E1 E2 E3 E4.
    rewrite (strip_tracking_unfold _ _ Hsp2), E1, E2, E3.
    unfold kept_pairs in *. now rewrite E4, Eq.
Qed.

End StripTracking.

(** *** The same-site scope *)

Lemma str_startswith_app (p s : str) :
  str_startswith p s = true -> p ++ drop (length p) s = s.
Proof.
  revert s. induction p as [|a p IH]; intros s H; [reflexivity|].
  destruct s as [|b s]; [discriminate|]. cbn [str_startswith] in H.
  apply andb_prop in H as [Hab H]. apply N.eqb_eq in Hab as ->.
  cbn [app length drop]. f_equal. now apply IH.
Qed.

Section Scope.

Context {nc : NetlocCheck}.

(** C4 (amended): the scope set of a seed with a host is exactly the
    lower-cased host, the host without a leading [www.], that name with
    [www.] in front, and, when that name has more than two labels, its last
    two labels; a seed without a host has the empty scope. *)
Theorem same_site_scope (base_url : str) (allow : gset str) :
  same_site_allowed_domains base_url = Some allow ->
  exists parsed,
    urlparse base_url = Some parsed
    /\ let host := str_lower (default [] (hostname (p_netloc parsed))) in
       let naked :=
         if str_startswith (py "www.") host then slice_from 4 host else host in
       let parts := str_split 46 naked in
       (host = [] -> allow = ∅)
       /\ (host <> [] ->
           forall h,
             h ∈ allow
             <-> h = host \/ h = naked \/ h = py "www." ++ naked
                 \/ ((2 < length parts)%nat
                     /\ h = str_join (py ".") (drop (length parts - 2) parts)))
       /\ (str_startswith (py "www.") host = true -> py "www." ++ naked = host).
Proof.
  unfold same_site_allowed_domains. intros H.
  destruct (urlparse base_url) as [parsed|]; [|discriminate].
  exists parsed. split; [reflexivity|]. cbn [mbind option_bind] in H.
  cbv zeta in *.
  set (host := str_lower (default [] (hostname (p_netloc parsed)))) in *.
  clearbody host.
  set (naked := if str_startswith (py "www.") host then slice_from 4 host
                else host) in *.
  split; [|split].
  - intros ->. now injection H as <-.
  - intros Hne h. destruct host as [|c r] eqn:Eh; [congruence|].
    rewrite <- Eh in *. assert (Hn : nonempty host = true) by now rewrite Eh.
    rewrite Hn in H. cbn [negb] in H. injection H as <-.
    destruct (2 <? length (str_split 46 naked))%nat eqn:E.
    + apply Nat.ltb_lt in E.
      rewrite !elem_of_union, !elem_of_singleton. tauto.
    + apply Nat.ltb_ge in E.
      rewrite !elem_of_union, !elem_of_singleton.
      split; [tauto|]. intros [? | [? | [? | [? _]]]]; [tauto.. | lia].
  - intros Hw. unfold naked. rewrite Hw. now apply (str_startswith_app (py "www.")).
Qed.

End Scope.

(** *** File names *)

Lemma le_bytes_length (k : nat) : forall n, length (le_bytes k n) = k.
Proof. induction k as [|k IH]; intros n; cbn; [reflexivity | now rewrite IH]. Qed.

Lemma le_bytes_range (k : nat) :
  forall n, Forall (fun b => 0 <= b < 256) (le_bytes k n).
Proof.
  induction k as [|k IH]; intros n; cbn [le_bytes]; constructor; [|apply IH].
  apply Z.mod_pos_bound. lia.
Qed.

Lemma md5_digest (msg : list N) :
  length (md5 msg) = 16%nat /\ Forall (fun b => (b < 256)%N) (md5 msg).
Proof.
  unfold md5. destruct (fold_left _ _ _) as [[[a b] c] d]. split.
  - rewrite length_map, !length_app, !le_bytes_length. reflexivity.
  - apply Forall_map. rewrite !Forall_app. repeat split;
      (eapply Forall_impl; [apply le_bytes_range|]); cbn; intros; lia.
Qed.

Lemma hexdigest_length (d : list N) : length (hexdigest d) = (2 * length d)%nat.
Proof.
  unfold hexdigest. induction d as [|b r IH]; [reflexivity|].
  cbn [flat_map length app]. rewrite IH. lia.
Qed.

Lemma hexdigit_lower_alnum (d : N) :
  (d < 16)%N -> is_filename_char (hexdigit_lower d) = true.
Proof.
  intros H.
  pose proof (all_bytes (fun d => implb (d <? 16)%N
                                    (is_filename_char (hexdigit_lower d)))
                ltac:(vm_compute; reflexivity) d ltac:(lia)) as A.
  cbv beta in A. apply N.ltb_lt in H. now rewrite H in A.
Qed.

Lemma hexdigest_chars (d : list N) :
  Forall (fun b => (b < 256)%N) d ->
  forallb is_filename_char (hexdigest d) = true.
Proof.
  unfold hexdigest. induction 1 as [|b r Hb _ IH]; [reflexivity|].
  cbn [flat_map app forallb]. rewrite IH, !hexdigit_lower_alnum; [reflexivity| |].
  - apply N.mod_lt. discriminate.
  - apply N.Div0.div_lt_upper_bound. exact Hb.
Qed.

Lemma re_sub_nonalnum_chars (s : str) :
  forall in_run, forallb is_filename_char (re_sub_nonalnum in_run s) = true.
Proof.
  induction s as [|c r IH]; intros in_run; [reflexivity|].
  cbn [re_sub_nonalnum]. destruct (is_alnum c) eqn:E.
  - cbn [forallb]. unfold is_filename_char at 1. now rewrite E, IH.
  - destruct in_run; [apply IH|]. cbn [forallb]. now rewrite IH.
Qed.

Lemma forallb_take {A} (P : A -> bool) (n : nat) (l : list A) :
  forallb P l = true -> forallb P (take n l) = true.
Proof.
  revert n. induction l as [|x r IH]; intros [|n] H; try reflexivity.
  cbn [forallb take] in *. apply andb_prop in H as [-> H]. now apply IH.
Qed.

Lemma lstrip_char_spec (x : N) (s : str) :
  (length (lstrip_char x s) <= length s)%nat
  /\ forall P, forallb P s = true -> forallb P (lstrip_char x s) = true.
Proof.
  induction s as [|c r [IH1 IH2]]; [now split|]. cbn [lstrip_char].
  destruct (N.eqb c x); [|now split]. split; [cbn [length]; lia|].
  intros P H. cbn [forallb] in H. apply andb_prop in H as [_ H]. now apply IH2.
Qed.

Lemma forallb_rev {A} (P : A -> bool) (l : list A) :
  forallb P (rev l) = forallb P l.
Proof.
  induction l as [|x r IH]; [reflexivity|]. cbn [rev forallb].
  rewrite forallb_app, IH. cbn [forallb]. now rewrite andb_true_r, andb_comm.
Qed.

Lemma strip_char_spec (x : N) (s : str) :
  (length (strip_char x s) <= length s)%nat
  /\ forall P, forallb P s = true -> forallb P (strip_char x s) = true.
Proof.
  unfold strip_char. split.
  - rewrite length_rev.
    etransitivity; [apply lstrip_char_spec|]. rewrite length_rev.
    apply lstrip_char_spec.
  - intros P H. rewrite forallb_rev. apply lstrip_char_spec.
    rewrite forallb_rev. now apply lstrip_char_spec.
Qed.

Lemma str_endswith_app (p s : str) : str_endswith p (s ++ p) = true.
Proof.
  unfold str_endswith. rewrite rev_app_distr.
  induction (rev p) as [|a r IH]; [reflexivity|].
  cbn [app str_startswith]. now rewrite N.eqb_refl, IH.
Qed.

Section FileNames.

Context {nc : NetlocCheck}.

(** The shape of a file name: a non-empty stem of at most 80 characters, a
    hyphen, ten hexadecimal digits of the MD5 digest of the URL without its
    fragment, and [.pdf]. *)
Lemma sanitize_filename_shape (u name : str) :
  sanitize_filename_from_url u = Some name ->
  exists d bytes stem,
    urldefrag u = Some d /\ utf8_encode d = Some bytes
    /\ name = stem ++ py "-" ++ slice_to 10 (hexdigest (md5 bytes)) ++ py ".pdf"
    /\ stem <> [] /\ (length stem <= 80)%nat
    /\ length (slice_to 10 (hexdigest (md5 bytes))) = 10%nat
    /\ forallb is_filename_char name = true.
Proof.
  unfold sanitize_filename_from_url. intros H.
  destruct (urldefrag u) as [d|]; [|discriminate]. cbn [mbind option_bind] in H.
  destruct (utf8_encode d) as [bytes|] eqn:Eb; [|discriminate].
  cbn [mbind option_bind] in H. cbv zeta in H.
  destruct (urlparse d) as [parsed|]; [|discriminate].
  cbn [mbind option_bind] in H. cbv zeta in H.
  apply (inj Some) in H. subst name.
  set (raw := re_sub_nonalnum false (p_netloc parsed ++ p_path parsed)).
  set (stem0 := strip_char 45 (slice_to 80 raw)).
  assert (Hs0 : (length stem0 <= 80)%nat
                /\ forallb is_filename_char stem0 = true).
  { unfold stem0. split.
    - etransitivity; [apply strip_char_spec|]. unfold slice_to.
      rewrite length_take. lia.
    - apply strip_char_spec, forallb_take, re_sub_nonalnum_chars. }
  destruct Hs0 as [Hlen Hch].
  destruct (md5_digest bytes) as [Hmd Hmb].
  assert (Hh : length (slice_to 10 (hexdigest (md5 bytes))) = 10%nat).
  { unfold slice_to. rewrite length_take, hexdigest_length, Hmd. reflexivity. }
  assert (Hhc : forallb is_filename_char
                  (slice_to 10 (hexdigest (md5 bytes))) = true)
    by now apply forallb_take, hexdigest_chars.
  exists d, bytes, (if nonempty stem0 then stem0 else py "page").
  split; [reflexivity|]. split; [exact Eb|]. split; [reflexivity|].
  split; [destruct stem0; discriminate|].
  split; [destruct stem0; [cbn; lia | exact Hlen]|].
  split; [exact Hh|].
  rewrite !forallb_app, Hhc. destruct stem0; [reflexivity|].
  cbn [nonempty]. now rewrite Hch.
Qed.

(** A file name is the name of a PDF entry of its directory. *)
Lemma sanitize_filename_is_pdf (u name : str) :
  sanitize_filename_from_url u = Some name ->
  str_endswith (py ".pdf") (str_lower name) = true
  /\ str_contains 47 name = false /\ name <> []
  /\ str_startswith (py "/") name = false.
Proof.
  intros H.
  destruct (sanitize_filename_shape _ _ H)
    as (d & bytes & stem & _ & _ & -> & Hne & _ & _ & Hch).
  repeat split.
  - unfold str_lower. rewrite !app_assoc, map_app.
    change (map lower_char (py ".pdf")) with (py ".pdf").
    apply str_endswith_app.
  - apply str_contains_false. intros Hin.
    rewrite forallb_forall in Hch. apply list_elem_of_In, Hch in Hin.
    discriminate.
  - now destruct stem.
  - destruct stem as [|c r]; [congruence|]. cbn [app str_startswith].
    change (py "/") with [47%N]. cbn [str_startswith].
    cbn [app forallb] in Hch. apply andb_prop in Hch as [Hc _].
    destruct (N.eqb_spec 47 c) as [<- | _]; [discriminate | reflexivity].
Qed.

Lemma urldefrag_fragment (base f f2 : str) :
  str_contains 35 base = false ->
  urldefrag (base ++ 35%N :: f) = urldefrag (base ++ 35%N :: f2).
Proof.
  intros Hb. unfold urldefrag, urlparse.
  rewrite !str_contains_app, !str_contains_cons. cbn [N.eqb Pos.eqb orb].
  rewrite !orb_true_r. rewrite !urlsplit_fragment by exact Hb.
  destruct (urlsplit base) as [sp|]; [|reflexivity].
  cbn [fmap option_fmap option_map mbind option_bind
       u_scheme u_netloc u_path u_query u_fragment].
  now destruct (if str_in (u_scheme sp) uses_params && _ then _ else _)
    as [path params].
Qed.

(** The stem and the digest part of a file name. *)
Lemma sanitize_filename_parts (u name : str) :
  sanitize_filename_from_url u = Some name ->
  exists d bytes parsed,
    urldefrag u = Some d /\ utf8_encode d = Some bytes
    /\ urlparse d = Some parsed
    /\ let stem :=
         strip_char 45
           (slice_to 80
              (re_sub_nonalnum false (p_netloc parsed ++ p_path parsed))) in
       name = (if nonempty stem then stem else py "page") ++ py "-"
                ++ slice_to 10 (hexdigest (md5 bytes)) ++ py ".pdf".
Proof.
  unfold sanitize_filename_from_url. intros H.
  destruct (urldefrag u) as [d|] eqn:Ed; [|discriminate].
  cbn [mbind option_bind] in H.
  destruct (utf8_encode d) as [bytes|] eqn:Eb; [|discriminate].
  cbn [mbind option_bind] in H. cbv zeta in H.
  destruct (urlparse d) as [parsed|] eqn:Ep; [|discriminate].
  cbn [mbind option_bind] in H. cbv zeta in H.
  apply (inj Some) in H. subst name.
  exists d, bytes, parsed. split; [reflexivity|]. split; [exact Eb|].
  split; [exact Ep | reflexivity].
Qed.

(** A URL without [#] is its own defragmented form. *)
Lemma urldefrag_no_fragment (u : str) :
  str_contains 35 u = false -> urldefrag u = Some u.
Proof. intros H. unfold urldefrag. now rewrite H. Qed.

(** C9 (amended): the file name is a function of the URL as [urldefrag]
    returns it.  Its stem is the slug of host and path (every run of
    characters other than ASCII letters and digits replaced by one hyphen,
    cut to 80 characters, hyphens stripped from both ends), or [page] when
    the slug is empty; then come a hyphen, ten hexadecimal digits of the MD5
    digest of the defragmented URL, and [.pdf].  URLs with the same
    defragmented form get the same name, and so do two URLs that agree up
    to their first [#].  A URL without [#] is used as it is written. *)
Theorem filename_from_defragmented_url (u name : str) :
  sanitize_filename_from_url u = Some name ->
  (exists d bytes parsed,
      urldefrag u = Some d /\ utf8_encode d = Some bytes
      /\ urlparse d = Some parsed
      /\ (str_contains 35 u = false -> d = u)
      /\ let slug :=
           strip_char 45
             (slice_to 80
                (re_sub_nonalnum false (p_netloc parsed ++ p_path parsed))) in
         let stem := if nonempty slug then slug else py "page" in
         name = stem ++ py "-" ++ slice_to 10 (hexdigest (md5 bytes))
                  ++ py ".pdf"
         /\ stem <> [] /\ (length stem <= 80)%nat
         /\ length (slice_to 10 (hexdigest (md5 bytes))) = 10%nat)
  /\ (forall u2, urldefrag u2 = urldefrag u ->
                 sanitize_filename_from_url u2 = Some name)
  /\ (forall base f f2,
         u = base ++ 35%N :: f -> str_contains 35 base = false ->
         sanitize_filename_from_url (base ++ 35%N :: f2) = Some name).
Proof.
  intros H. split; [|split].
  - destruct (sanitize_filename_parts _ _ H)
      as (d & bytes & parsed & Ed & Eb & Ep & Hname).
    exists d, bytes, parsed.
    split; [exact Ed|]. split; [exact Eb|]. split; [exact Ep|].
    split.
    { intros Hu. rewrite (urldefrag_no_fragment _ Hu) in Ed.
      now injection Ed. }
    cbv zeta in *.
    set (slug := strip_char 45 _) in *.
    assert (Hlen : (length slug <= 80)%nat).
    { unfold slug. etransitivity; [apply strip_char_spec|].
      unfold slice_to. rewrite length_take. lia. }
    destruct (md5_digest bytes) as [Hmd _].
    split; [exact Hname|]. split; [now destruct slug|].
    split; [destruct slug; [cbn; lia | exact Hlen]|].
    unfold slice_to. now rewrite length_take, hexdigest_length, Hmd.
  - intros u2 E. rewrite <- H. unfold sanitize_filename_from_url.
    now rewrite E.
  - intros base f f2 -> Hb. rewrite <- H. unfold sanitize_filename_from_url.
    now rewrite (urldefrag_fragment base f2 f).
Qed.

End FileNames.

(** *** Documents *)

Lemma story_of_total (p : payload) :
  exists story,
    story_of p = Some story
    /\ take 2 story
       = [Paragraph (if nonempty (pl_title p) then pl_title p
                     else py "(No title)") h1;
          Paragraph (pl_url p) normal].
Proof.
  unfold story_of. destruct (nonempty (pl_text p)); [|now eexists].
  destruct (body_pieces_total (body_paragraphs (pl_text p)))
    as (pieces & -> & _).
  now eexists.
Qed.

Section Spider.

Context {nc : NetlocCheck} {world : World}.

Lemma try_make_pdf_spec (path : str) (p : payload) (fs : fsys) :
  exists story,
    story_of p = Some story
    /\ try_make_pdf path p fs
       = Some (if build_ok path (document_of p story)
               then write_file path (PdfFile (document_of p story)) fs
               else fs).
Proof.
  destruct (story_of_total p) as (story & Hs & _). exists story.
  split; [exact Hs|]. unfold try_make_pdf, make_pdf. rewrite Hs.
  cbn [mbind option_bind]. unfold document_of.
  now destruct (build_ok path _).
Qed.

Lemma errback_first_total (start_url outdir failure_repr : str) (fs : fsys) :
  exists fs', errback_first start_url outdir failure_repr fs = Some fs'
              /\ fs_dirs fs' = fs_dirs fs.
Proof.
  unfold errback_first.
  destruct (sanitize_filename_from_url start_url) as [filename|];
    [|now exists fs].
  match goal with |- context [try_make_pdf ?a ?b ?c] =>
    destruct (try_make_pdf_spec a b c) as (story & _ & E) end.
  eexists. split; [exact E|]. now destruct (build_ok _ _).
Qed.

Lemma parse_total (outdir : str) (response : Response) (fs : fsys) :
  exists fs', parse outdir response fs
              = Some ((parse_links (r_links response)).1, fs')
              /\ fs_dirs fs' = fs_dirs fs.
Proof.
  unfold parse. destruct (parse_links (r_links response)) as [links completed].
  cbn [fst]. destruct completed; [|now exists fs].
  destruct (sanitize_filename_from_url (r_url response)) as [filename|];
    [|now exists fs].
  match goal with |- context [try_make_pdf ?a ?b ?c] =>
    destruct (try_make_pdf_spec a b c) as (story & _ & E) end.
  rewrite E. cbn [mbind option_bind]. eexists. split; [reflexivity|].
  now destruct (build_ok _ _).
Qed.

Lemma handle_request_total (start_url outdir : str) (request : Request)
    (fs : fsys) :
  exists hrefs fs',
    handle_request start_url outdir request fs = Some (hrefs, fs')
    /\ fs_dirs fs' = fs_dirs fs.
Proof.
  unfold handle_request. destruct (fetch (q_url request)) as [response | repr].
  - destruct (parse_total outdir response fs) as (fs' & E & Hd). eauto.
  - destruct (q_errback request).
    + destruct (errback_first_total start_url outdir repr fs) as (fs' & -> & Hd).
      cbn. eauto.
    + cbn. eauto.
Qed.

(** The requests that follow links carry no errback. *)
Lemma schedule_requests (maxdepth : Z) (allowed : gset str) (depth : Z)
    (hrefs : list str) :
  forall seen,
    Forall (fun r => q_errback r = false /\ q_depth r = depth + 1
                     /\ (maxdepth <> 0 -> q_depth r <= maxdepth))
           (schedule maxdepth allowed depth hrefs seen).1.
Proof.
  induction hrefs as [|href rest IH]; intros seen; cbn [schedule];
    [constructor|].
  destruct (depth_allowed maxdepth (depth + 1)) eqn:Ed; cbn [andb];
    [|apply IH].
  destruct (host_allowed allowed _ && negb _); [|apply IH].
  specialize (IH ({[href]} ∪ seen)).
  destruct (schedule maxdepth allowed depth rest ({[href]} ∪ seen))
    as [rs seen'].
  cbn [fst] in *. constructor; [|exact IH]. cbn. repeat split.
  intros Hm. unfold depth_allowed in Ed.
  destruct (Z.eqb_spec maxdepth 0); [congruence|]. cbn [negb andb] in Ed.
  apply negb_true_iff, Z.ltb_ge in Ed. exact Ed.
Qed.

(** C6 (amended): every request the engine handles yields at most one
    document.  A page is fetched when the framework hands [parse] a
    response whose title, text, meta data and links have been extracted.
    Such a page yields the document of the page, under the file name of its
    URL, when the link loop of [parse] runs to its end (no link makes
    [urldefrag] or [_strip_tracking] raise), the file name can be computed
    and the layout engine builds the document; it yields no document
    otherwise.  A failed fetch yields the error document, with the title
    "(Fetch error)", the start URL and the failure description, only for
    the start request (and when the file name of the start URL can be
    computed and the layout engine builds the document): a request that
    follows a link has no errback, and its failure writes nothing. *)
Theorem one_document_per_fetched_page (start_url outdir : str)
    (request : Request) (fs : fsys) :
  (q_errback (start_request start_url) = true
   /\ q_url (start_request start_url) = start_url)
  /\ (forall maxdepth allowed depth hrefs seen,
         Forall (fun r => q_errback r = false)
                (schedule maxdepth allowed depth hrefs seen).1)
  /\ exists hrefs fs',
      handle_request start_url outdir request fs = Some (hrefs, fs')
      /\ (fs' = fs \/ exists path doc, fs' = write_file path (PdfFile doc) fs)
      /\ match fetch (q_url request) with
         | Fetched response =>
             hrefs = (parse_links (r_links response)).1
             /\ ((parse_links (r_links response)).2 = false -> fs' = fs)
             /\ (sanitize_filename_from_url (r_url response) = None ->
                 fs' = fs)
             /\ forall filename,
               (parse_links (r_links response)).2 = true ->
               sanitize_filename_from_url (r_url response) = Some filename ->
               exists title story,
                 let p := mkPayload (r_url response) title (r_meta response)
                                    (r_text response) hrefs in
                 let path := path_join outdir filename in
                 title = (if nonempty (str_strip (default [] (r_title response)))
                          then str_strip (default [] (r_title response))
                          else py "(No title)")
                 /\ story_of p = Some story
                 /\ (build_ok path (mkPdf title story) = true ->
                     fs' = write_file path (PdfFile (mkPdf title story)) fs)
                 /\ (build_ok path (mkPdf title story) = false -> fs' = fs)
         | Failed failure_repr =>
             hrefs = []
             /\ if q_errback request then
               (sanitize_filename_from_url start_url = None -> fs' = fs)
               /\ forall filename,
                 sanitize_filename_from_url start_url = Some filename ->
                 exists story,
                   let p :=
                     mkPayload start_url (py "(Fetch error)") []
                       (py "Failed to fetch " ++ start_url ++ [10%N; 10%N]
                          ++ failure_repr) [] in
                   let path := path_join outdir filename in
                   let doc := mkPdf (py "(Fetch error)") story in
                   story_of p = Some story
                   /\ take 2 story = [Paragraph (py "(Fetch error)") h1;
                                      Paragraph start_url normal]
                   /\ (build_ok path doc = true ->
                       fs' = write_file path (PdfFile doc) fs)
                   /\ (build_ok path doc = false -> fs' = fs)
             else fs' = fs
         end.
Proof.
  split; [now split|]. split.
  { intros. eapply Forall_impl; [apply schedule_requests|]. cbn. tauto. }
  destruct (handle_request_total start_url outdir request fs)
    as (hrefs & fs' & E & _).
  exists hrefs, fs'. split; [exact E|].
  unfold handle_request in E.
  destruct (fetch (q_url request)) as [response | repr].
  - unfold parse in E.
    destruct (parse_links (r_links response)) as [links completed].
    cbn [fst snd].
    destruct completed;
      [|injection E as <- <-; split; [now left|];
        split; [reflexivity|]; split; [reflexivity|];
        split; [reflexivity | discriminate]].
    destruct (sanitize_filename_from_url (r_url response)) as [filename|];
      [|injection E as <- <-; split; [now left|];
        split; [reflexivity|]; split; [discriminate|];
        split; [reflexivity | discriminate]].
    set (title := str_strip (default [] (r_title response))) in *.
    set (title' := if nonempty title then title else py "(No title)") in *.
    assert (Ht : nonempty title' = true)
      by (unfold title'; now destruct title).
    match type of E with context [try_make_pdf ?a ?b ?c] =>
      destruct (try_make_pdf_spec a b c) as (story & Hs & E') end.
    rewrite E' in E. cbn [mbind option_bind] in E.
    unfold document_of in E. cbn [pl_title] in E. rewrite Ht in E.
    injection E as <- <-.
    split.
    { match goal with |- context [build_ok ?a ?b] =>
        destruct (build_ok a b) end; [right; eauto | now left]. }
    split; [reflexivity|]. split; [discriminate|]. split; [discriminate|].
    intros ? _ [= <-].
    exists title', story. cbv zeta. split; [reflexivity|]. split; [exact Hs|].
    split; intros ->; reflexivity.
  - destruct (q_errback request).
    + unfold errback_first in E.
      destruct (sanitize_filename_from_url start_url) as [filename|];
        [|injection E as <- <-; split; [now left|];
          split; [reflexivity|]; split; [reflexivity | discriminate]].
      match type of E with context [try_make_pdf ?a ?b ?c] =>
        destruct (try_make_pdf_spec a b c) as (story & Hs & E');
        destruct (story_of_total b) as (story2 & Hs2 & Hhead) end.
      rewrite Hs in Hs2. injection Hs2 as <-.
      rewrite E' in E. cbn [mbind option_bind] in E.
      unfold document_of in E. cbn [pl_title nonempty] in E.
      injection E as <- <-.
      split.
      { match goal with |- context [build_ok ?a ?b] =>
          destruct (build_ok a b) end; [right; eauto | now left]. }
      split; [reflexivity|]. split; [discriminate|].
      intros ? [= <-].
      exists story. cbv zeta. split; [exact Hs|]. split; [exact Hhead|].
      split; intros ->; reflexivity.
    + cbn in E. injection E as <- <-. split; [now left|]. now split.
Qed.

End Spider.

(** *** The output directory *)

Lemma str_startswith_prefix (p s : str) : str_startswith p (p ++ s) = true.
Proof.
  induction p as [|a p IH]; [reflexivity|]. cbn [app str_startswith].
  now rewrite N.eqb_refl, IH.
Qed.

Lemma outdir_shape (workdir : str) :
  exists x, path_join workdir (py "pdfs") = x ++ py "pdfs".
Proof.
  unfold path_join. change (str_startswith (py "/") (py "pdfs")) with false.
  cbv iota. destruct (negb (nonempty workdir) || str_endswith (py "/") workdir).
  - now exists workdir.
  - exists (workdir ++ py "/"). now rewrite <- app_assoc.
Qed.

Lemma path_join_plain (d name : str) :
  (exists x, d = x ++ py "pdfs") ->
  str_startswith (py "/") name = false ->
  path_join d name = (d ++ py "/") ++ name.
Proof.
  intros [x ->] Hn. unfold path_join. rewrite Hn.
  assert (E1 : nonempty (x ++ py "pdfs") = true)
    by (destruct x; reflexivity).
  assert (E2 : str_endswith (py "/") (x ++ py "pdfs") = false)
    by (unfold str_endswith; rewrite rev_app_distr; reflexivity).
  rewrite E1, E2. cbn [negb orb]. now rewrite <- !app_assoc.
Qed.

(** A file written under a name of [sanitize_filename_from_url] is listed. *)
Lemma listdir_entry (fs : fsys) (d name : str) (f : file) :
  (exists x, d = x ++ py "pdfs") ->
  name <> [] -> str_contains 47 name = false ->
  str_startswith (py "/") name = false ->
  fs_files fs !! path_join d name = Some f ->
  name ∈ listdir fs d.
Proof.
  intros Hd Hne Hslash Hstart Hf. unfold listdir.
  apply list_elem_of_omap. exists (path_join d name). split.
  - apply list_elem_of_In, in_map_iff. exists (path_join d name, f).
    split; [reflexivity|]. now apply list_elem_of_In, elem_of_map_to_list.
  - rewrite (path_join_plain d name Hd Hstart). unfold entry_name.
    rewrite str_startswith_prefix, drop_app_length, Hslash.
    now destruct name.
Qed.

Section Endpoint.

Context {nc : NetlocCheck} {world : World}.

Lemma crawl_loop_dirs (fuel : nat) (start_url outdir : str) (maxdepth : Z)
    (allowed : gset str) :
  forall queue seen fs fs',
    crawl_loop fuel start_url outdir maxdepth allowed queue seen fs = Some fs' ->
    fs_dirs fs' = fs_dirs fs.
Proof.
  induction fuel as [|fuel IH]; intros queue seen fs fs' H;
    destruct queue as [|request queue']; cbn [crawl_loop] in H;
    try discriminate; try (now injection H as <-).
  destruct (handle_request_total start_url outdir request fs)
    as (hrefs & fs1 & E & Hd).
  rewrite E in H. cbn [mbind option_bind] in H.
  destruct (schedule maxdepth allowed (q_depth request) hrefs seen)
    as [new seen'].
  apply IH in H. congruence.
Qed.

Lemma crawl_to_pdfs_dirs (fuel : nat) (start_url : str) (d : Z)
    (outdir : str) (fs fs' : fsys) :
  crawl_to_pdfs fuel start_url d outdir fs = Some (Returns fs') ->
  fs_dirs fs' = fs_dirs fs.
Proof.
  unfold crawl_to_pdfs.
  destruct (same_site_allowed_domains start_url) as [allowed|];
    [|discriminate].
  destruct engine_fault; [discriminate|].
  destruct (crawl_loop _ _ _ _ _ _ _ _) as [fs1|] eqn:E; [|discriminate].
  intros H. injection H as <-. now apply crawl_loop_dirs in E.
Qed.

(** C7: the endpoint answers 500 "Crawl failed: ..." when the crawl raises,
    504 when the crawl returns and the output directory holds no PDF, and
    the archive as soon as one document, of a page or of an error, was
    written; the archive then holds that document. *)
Theorem scrape_outcomes (fuel : nat) (workdir : str) (req : CrawlRequest)
    (fs : fsys) (r : outcome fsys) :
  let outdir := path_join workdir (py "pdfs") in
  let fs0 := make_dir outdir (make_dir workdir fs) in
  crawl_to_pdfs fuel (url req) (depth req) outdir fs0 = Some r ->
  match r with
  | Raises e =>
      scrape fuel workdir req fs
      = Some (HTTPException 500 (py "Crawl failed: " ++ e), fs0)
  | Returns fs1 =>
      (List.filter is_pdf_name (listdir fs1 outdir) = [] ->
       scrape fuel workdir req fs
       = Some (HTTPException 504
                 (py "Fetch timed out or was blocked before any page could be saved."),
               fs1))
      /\ (forall u name doc,
             sanitize_filename_from_url u = Some name ->
             fs_files fs1 !! path_join outdir name = Some doc ->
             exists entries,
               scrape fuel workdir req fs
               = Some (FileResponse (path_join workdir (py "result.zip"))
                                    (py "application/zip")
                                    (py "scraped_pdfs.zip"),
                       write_file (path_join workdir (py "result.zip"))
                                  (ZipFile entries) fs1)
               /\ (name, doc) ∈ entries)
  end.
Proof.
  cbv zeta. intros H. unfold scrape. rewrite H. cbn [mbind option_bind].
  destruct r as [fs1 | e]; [|reflexivity]. split.
  - now intros ->.
  - intros u name doc Hname Hdoc.
    destruct (sanitize_filename_is_pdf _ _ Hname) as (Hpdf & Hslash & Hne & Hst).
    assert (Hin : name ∈ List.filter is_pdf_name
                           (listdir fs1 (path_join workdir (py "pdfs")))).
    { apply list_elem_of_In, filter_In. split; [|exact Hpdf].
      apply list_elem_of_In.
      eapply listdir_entry; eauto using outdir_shape. }
    destruct (List.filter is_pdf_name _) as [|n ns] eqn:El;
      [now apply elem_of_nil in Hin|].
    eexists. split; [reflexivity|].
    unfold zip_entries. apply list_elem_of_omap. exists name.
    split; [exact Hin|]. now rewrite Hdoc.
Qed.

(** C8 (amended): the endpoint removes nothing.  When it answers, the
    working directory and the output directory still exist, and every file
    the crawl left is still there. *)
Theorem scrape_keeps_workdir (fuel : nat) (workdir : str) (req : CrawlRequest)
    (fs fs' : fsys) (answer : http_result) :
  scrape fuel workdir req fs = Some (answer, fs') ->
  workdir ∈ fs_dirs fs'
  /\ path_join workdir (py "pdfs") ∈ fs_dirs fs'
  /\ fs_dirs fs ⊆ fs_dirs fs'
  /\ forall fs1 p f,
       crawl_to_pdfs fuel (url req) (depth req)
                     (path_join workdir (py "pdfs"))
                     (make_dir (path_join workdir (py "pdfs"))
                               (make_dir workdir fs))
       = Some (Returns fs1) ->
       p <> path_join workdir (py "result.zip") ->
       fs_files fs1 !! p = Some f -> fs_files fs' !! p = Some f.
Proof.
  unfold scrape. intros H.
  destruct (crawl_to_pdfs _ _ _ _ _) as [r|] eqn:E; [|discriminate].
  cbn [mbind option_bind] in H.
  assert (Hdirs : forall fs1 : fsys,
             fs_dirs fs1
             = fs_dirs (make_dir (path_join workdir (py "pdfs"))
                                 (make_dir workdir fs)) ->
             workdir ∈ fs_dirs fs1
             /\ path_join workdir (py "pdfs") ∈ fs_dirs fs1
             /\ fs_dirs fs ⊆ fs_dirs fs1).
  { intros fs1 ->. cbn [make_dir fs_dirs]. set_solver. }
  destruct r as [fs1 | e].
  - pose proof (crawl_to_pdfs_dirs _ _ _ _ _ _ E) as Hd.
    destruct (List.filter is_pdf_name _) as [|n ns]; injection H as <- <-.
    + destruct (Hdirs fs1 Hd) as (? & ? & ?). repeat split; try assumption.
      intros fs2 p f Hfs. now injection Hfs as <-.
    + destruct (Hdirs fs1 Hd) as (? & ? & ?). repeat split; try assumption.
      intros fs2 p f Hfs Hp. injection Hfs as <-.
      cbn [write_file fs_files]. now rewrite lookup_insert_ne.
  - injection H as <- <-.
    destruct (Hdirs _ eq_refl) as (? & ? & ?). repeat split; try assumption.
    intros fs2 p f Hfs. discriminate.
Qed.

End Endpoint.

(** ** Part II, continued: further properties of the code *)

(** *** Canonical links, re-read *)

Lemma quote_plus_none (s : str) :
  quote_plus s = None <-> utf8_encode s = None.
Proof.
  unfold quote_plus, quote.
  destruct s as [|c r]; [now destruct (negb _)|].
  destruct (negb _); destruct (utf8_encode (c :: r)); cbn; split; congruence.
Qed.

Lemma urlencode_items_none (q : list (str * str)) :
  urlencode_items q = None
  <-> exists k v, In (k, v) q /\ (utf8_encode k = None \/ utf8_encode v = None).
Proof.
  induction q as [|[k v] rest IH]; cbn [urlencode_items].
  - split; [discriminate|]. now intros (? & ? & [] & _).
  - destruct (quote_plus k) as [k'|] eqn:Ek; cbn.
    2:{ split; [intros _|reflexivity]. exists k, v. split; [now left|].
        left. now apply quote_plus_none. }
    destruct (quote_plus v) as [v'|] eqn:Ev; cbn.
    2:{ split; [intros _|reflexivity]. exists k, v. split; [now left|].
        right. now apply quote_plus_none. }
    destruct (urlencode_items rest) as [l|] eqn:El; cbn.
    + split; [discriminate|]. intros (k2 & v2 & [Heq | Hin] & Hbad).
      * injection Heq as <- <-.
        destruct Hbad as [Hbad | Hbad]; apply quote_plus_none in Hbad;
          congruence.
      * assert (@None (list str) = None) as _ by reflexivity.
        destruct IH as [_ IH]. discriminate IH. eauto.
    + split; [intros _|reflexivity].
      destruct IH as [IH _]. destruct (IH eq_refl) as (k2 & v2 & Hin & Hbad).
      exists k2, v2. split; [now right|exact Hbad].
Qed.

Section CanonicalLinks.

Context {nc : NetlocCheck}.

(** A URL with a network location, written back by [urlunsplit] with an
    encoded query and no fragment, splits into the components it was
    written from. *)
Lemma urlsplit_urlunsplit_netloc (sp : SplitResult) (qs : str) :
  wf_split sp -> u_netloc sp <> [] ->
  forallb is_query_char qs = true ->
  netloc_ok (u_netloc sp) = true ->
  urlsplit (urlunsplit (u_scheme sp) (u_netloc sp) (u_path sp) qs [])
  = Some (mkSplit (u_scheme sp) (u_netloc sp) (u_path sp) qs []).
Proof.
  intros Hwf Hn Hqs Hok.
  destruct Hwf as [Hsch Hnd Hnu Hpq Hpf Hpu Hpath Hrel].
  rewrite urlunsplit_shape. cbv zeta.
  assert (Hne : nonempty (u_netloc sp) = true)
    by (destruct (u_netloc sp); [congruence|reflexivity]).
  rewrite Hne. cbn [orb andb].
  rewrite (slice_to_1_slash _ (Hpath Hn)).
  apply (urlsplit_build _ _ _ _ true); try assumption.
  - now apply Hpath.
  - discriminate.
  - now rewrite Hok, orb_true_r.
Qed.

(** X1: the canonical form of a URL with a network location reads back as
    the same scheme, network location and path, without a fragment; its
    query is made of the characters [urlencode] writes and holds the
    parameters that were kept, none of them a tracking parameter. *)
Theorem strip_tracking_resplit (u s : str) (sp : SplitResult) :
  urlsplit u = Some sp -> u_netloc sp <> [] ->
  _strip_tracking u = Some s ->
  exists qs,
    urlsplit s
    = Some (mkSplit (u_scheme sp) (u_netloc sp) (u_path sp) qs [])
    /\ forallb is_query_char qs = true
    /\ parse_qsl qs = kept_pairs (u_query sp)
    /\ Forall (fun kv => is_tracking kv.1 = false) (parse_qsl qs).
Proof.
  intros Hsp Hn Hs. rewrite (strip_tracking_unfold _ _ Hsp) in Hs.
  destruct (urlencode (kept_pairs (u_query sp))) as [qs|] eqn:Eq;
    [|discriminate].
  apply (inj Some) in Hs. subst s.
  destruct (parse_qsl_urlencode _ _ Eq) as [Hparse Hchars].
  exists qs. split; [|split; [exact Hchars|split; [exact Hparse|]]].
  - apply urlsplit_urlunsplit_netloc; try assumption.
    + now apply (urlsplit_wf u).
    + pose proof (urlsplit_netloc_ok _ _ Hsp) as Hok.
      destruct (u_netloc sp); [congruence|exact Hok].
  - rewrite Hparse. unfold kept_pairs. apply Forall_forall.
    intros kv Hin. apply list_elem_of_In, filter_In in Hin as [_ Hin].
    now apply negb_true_iff.
Qed.

(** X2: canonicalization raises exactly when [urlsplit] rejects the URL or
    a parameter that is kept cannot be encoded as UTF-8; a tracking
    parameter never makes it fail. *)
Theorem strip_tracking_raises (u : str) :
  _strip_tracking u = None
  <-> urlsplit u = None
      \/ exists sp k v,
           urlsplit u = Some sp
           /\ In (k, v) (parse_qsl (u_query sp)) /\ is_tracking k = false
           /\ (utf8_encode k = None \/ utf8_encode v = None).
Proof.
  destruct (urlsplit u) as [sp|] eqn:Hsp.
  2:{ unfold _strip_tracking. rewrite Hsp. cbn. split; [now left|reflexivity]. }
  rewrite (strip_tracking_unfold _ _ Hsp). unfold urlencode.
  destruct (urlencode_items (kept_pairs (u_query sp))) as [items|] eqn:Ei;
    cbn [fmap option_fmap option_map].
  - split; [discriminate|]. intros [Hn | (sp2 & k & v & Hsp2 & Hin & Htr & Hbad)];
      [discriminate|].
    apply (inj Some) in Hsp2. subst sp2.
    assert (Hnone : urlencode_items (kept_pairs (u_query sp)) = None).
    { apply urlencode_items_none. exists k, v. split; [|exact Hbad].
      unfold kept_pairs. apply filter_In. split; [exact Hin|].
      cbn [fst]. now rewrite Htr. }
    congruence.
  - split; [intros _|reflexivity]. right.
    apply urlencode_items_none in Ei as (k & v & Hin & Hbad).
    unfold kept_pairs in Hin. apply filter_In in Hin as [Hin Htr].
    exists sp, k, v. repeat split; try assumption.
    cbn [fst] in Htr. now apply negb_true_iff in Htr.
Qed.

End CanonicalLinks.

(** *** File names as path components *)

Lemma lstrip_char_split (x : N) (s : str) :
  exists k, s = repeat x k ++ lstrip_char x s
            /\ (lstrip_char x s = [] \/ hd 0%N (lstrip_char x s) <> x).
Proof.
  induction s as [|c r (k & IH1 & IH2)]; [exists 0%nat; now split; [|left]|].
  cbn [lstrip_char]. destruct (N.eqb_spec c x) as [-> | Hne].
  - exists (S k). cbn [repeat app]. now rewrite <- IH1.
  - exists 0%nat. split; [reflexivity|]. now right.
Qed.

Lemma rev_repeat_same (x : N) (k : nat) : rev (repeat x k) = repeat x k.
Proof.
  induction k as [|k IH]; [reflexivity|]. cbn [repeat rev]. rewrite IH.
  clear IH. induction k as [|k IH]; [reflexivity|]. cbn [repeat app].
  now rewrite IH.
Qed.

(** [s.strip(x)] is what lies between the leading and the trailing run of
    [x]; it neither starts nor ends with [x]. *)
Lemma strip_char_split (x : N) (s : str) :
  exists i j,
    s = repeat x i ++ strip_char x s ++ repeat x j
    /\ (strip_char x s = []
        \/ hd 0%N (strip_char x s) <> x
           /\ hd 0%N (rev (strip_char x s)) <> x).
Proof.
  unfold strip_char.
  destruct (lstrip_char_split x s) as (i & Hs & Hhead).
  set (t := lstrip_char x s) in *.
  destruct (lstrip_char_split x (rev t)) as (j & Ht & Hlast).
  set (w := lstrip_char x (rev t)) in *.
  assert (Et : t = rev w ++ repeat x j).
  { rewrite <- (rev_involutive t), Ht, rev_app_distr.
    now rewrite rev_repeat_same. }
  exists i, j. split; [now rewrite <- Et|].
  destruct w as [|c w']; [now left|]. right. rewrite rev_involutive.
  split; [|destruct Hlast as [Hlast | Hlast]; [discriminate | exact Hlast]].
  destruct Hhead as [Hhead | Hhead].
  - rewrite Hhead in Et. destruct (rev (c :: w')) eqn:E; [|discriminate].
    apply (f_equal (@length N)) in E. rewrite length_rev in E. discriminate.
  - rewrite Et in Hhead. destruct (rev (c :: w')) eqn:E; [|exact Hhead].
    apply (f_equal (@length N)) in E. rewrite length_rev in E. discriminate.
Qed.

Lemma re_sub_nonalnum_slug (s : str) :
  forall in_run, forallb is_slug_char (re_sub_nonalnum in_run s) = true.
Proof.
  induction s as [|c r IH]; intros in_run; [reflexivity|].
  cbn [re_sub_nonalnum]. destruct (is_alnum c) eqn:E.
  - cbn [forallb]. unfold is_slug_char at 1. now rewrite E, IH.
  - destruct in_run; [apply IH|]. cbn [forallb]. now rewrite IH.
Qed.

(** Without a letter or digit the pattern leaves at most one hyphen. *)
Lemma re_sub_nonalnum_none (s : str) :
  forallb (fun c => negb (is_alnum c)) s = true ->
  forall in_run,
    re_sub_nonalnum in_run s = [] \/ re_sub_nonalnum in_run s = [45%N].
Proof.
  induction s as [|c r IH]; intros H in_run; [now left|].
  cbn [forallb] in H. apply andb_prop in H as [Hc H].
  apply negb_true_iff in Hc. cbn [re_sub_nonalnum]. rewrite Hc.
  destruct in_run; [now apply IH|].
  destruct (IH H true) as [-> | E]; [now right|].
  (* a second hyphen cannot follow inside a run *)
  exfalso. clear -E H. revert E. generalize H. clear H.
  induction r as [|d r IH]; intros H E; [discriminate|].
  cbn [forallb] in H. apply andb_prop in H as [Hd H].
  apply negb_true_iff in Hd. cbn [re_sub_nonalnum] in E. rewrite Hd in E.
  now apply IH.
Qed.

Lemma slug_head_alnum (stem : str) :
  forallb is_slug_char stem = true -> stem <> [] ->
  hd 0%N stem <> 45%N -> is_alnum (hd 0%N stem) = true.
Proof.
  destruct stem as [|c r]; [congruence|]. cbn [forallb hd].
  intros H _ Hne. apply andb_prop in H as [H _]. unfold is_slug_char in H.
  apply orb_prop in H as [H | H]; [exact H|].
  apply N.eqb_eq in H. congruence.
Qed.

Section FileNameComponents.

Context {nc : NetlocCheck}.

(** X3: a file name is a safe path component.  It is made of ASCII letters,
    digits, hyphens and dots only, has between 16 and 95 characters, starts
    with a letter or digit, ends in [.pdf], and joined to an output
    directory it names an entry directly inside that directory. *)
Theorem filename_is_safe_component (u name : str) :
  sanitize_filename_from_url u = Some name ->
  forallb is_filename_char name = true
  /\ (16 <= length name <= 95)%nat
  /\ is_alnum (hd 0%N name) = true
  /\ str_endswith (py ".pdf") name = true
  /\ forall outdir,
       outdir <> [] -> str_endswith (py "/") outdir = false ->
       path_join outdir name = outdir ++ py "/" ++ name
       /\ entry_name outdir (path_join outdir name) = Some name.
Proof.
  intros H.
  destruct (sanitize_filename_shape _ _ H)
    as (d0 & bytes0 & stem0 & _ & _ & Hname & Hne & Hlen & Hh & Hch).
  destruct (sanitize_filename_is_pdf _ _ H) as (_ & Hslash & Hnn & Hstart).
  destruct (sanitize_filename_parts _ _ H)
    as (d & bytes & parsed & _ & _ & _ & Hparts).
  cbv zeta in Hparts.
  set (raw := slice_to 80
                (re_sub_nonalnum false (p_netloc parsed ++ p_path parsed)))
    in Hparts.
  assert (Hhead : is_alnum (hd 0%N name) = true).
  { destruct (strip_char 45 raw) as [|c w] eqn:Es.
    - rewrite Hparts. reflexivity.
    - rewrite Hparts. cbn [nonempty app hd].
      change c with (hd 0%N (c :: w)). rewrite <- Es.
      apply slug_head_alnum.
      + apply strip_char_spec. unfold raw. apply forallb_take.
        apply re_sub_nonalnum_slug.
      + now rewrite Es.
      + destruct (strip_char_split 45 raw) as (i & j & _ & [E | [E _]]);
          [congruence | exact E]. }
  split; [exact Hch|]. split.
  { rewrite Hname, !length_app, Hh. cbn [py length map list_ascii_of_string].
    destruct stem0; [congruence|]. cbn [length]. cbn [length] in Hlen. lia. }
  split; [exact Hhead|]. split.
  { rewrite Hname, !app_assoc. apply str_endswith_app. }
  intros outdir Hod Hend.
  assert (Hj : path_join outdir name = outdir ++ py "/" ++ name).
  { unfold path_join. rewrite Hstart, Hend.
    destruct outdir; [congruence|reflexivity]. }
  split; [exact Hj|]. rewrite Hj. unfold entry_name.
  rewrite (app_assoc outdir), str_startswith_prefix, drop_app_length.
  rewrite Hslash. destruct name; [congruence|reflexivity].
Qed.

(** X4: a URL whose network location and path hold no ASCII letter or digit
    (an internationalised host, a bare slash, the empty URL) is named
    [page-] followed by the ten digest digits and [.pdf]. *)
Theorem filename_without_letters_is_page (u d name : str)
    (parsed : ParseResult) :
  urldefrag u = Some d -> urlparse d = Some parsed ->
  forallb (fun c => negb (is_alnum c)) (p_netloc parsed ++ p_path parsed)
  = true ->
  sanitize_filename_from_url u = Some name ->
  exists bytes,
    utf8_encode d = Some bytes
    /\ name = py "page-" ++ slice_to 10 (hexdigest (md5 bytes)) ++ py ".pdf".
Proof.
  intros Hd Hp Hno H.
  destruct (sanitize_filename_parts _ _ H)
    as (d' & bytes & parsed' & Hd' & Hb & Hp' & Hname).
  rewrite Hd in Hd'. apply (inj Some) in Hd'. subst d'.
  rewrite Hp in Hp'. apply (inj Some) in Hp'. subst parsed'.
  exists bytes. split; [exact Hb|]. cbv zeta in Hname. rewrite Hname.
  destruct (re_sub_nonalnum_none _ Hno false) as [-> | ->]; reflexivity.
Qed.

End FileNameComponents.

(** *** The scope and the off-site filter *)

Lemma str_split_go_nonempty (sep : N) (s : str) :
  forall cur, str_split_go sep cur s <> [].
Proof.
  induction s as [|c r IH]; intros cur; [discriminate|].
  cbn [str_split_go]. destruct (N.eqb c sep); [discriminate | apply IH].
Qed.

Lemma str_join_split_go (sep : N) (s : str) :
  forall cur, str_join [sep] (str_split_go sep cur s) = cur ++ s.
Proof.
  induction s as [|c r IH]; intros cur; [cbn; now rewrite app_nil_r|].
  cbn [str_split_go]. destruct (N.eqb_spec c sep) as [-> | _].
  - rewrite str_join_cons by apply str_split_go_nonempty.
    now rewrite IH.
  - rewrite IH. now rewrite <- app_assoc.
Qed.

(** [sep.join(s.split(sep)) == s]. *)
Lemma str_join_split (sep : N) (s : str) :
  str_join [sep] (str_split sep s) = s.
Proof. apply (str_join_split_go sep s []). Qed.

Lemma str_join_app (sep : str) (a b : list str) :
  a <> [] -> b <> [] ->
  str_join sep (a ++ b) = str_join sep a ++ sep ++ str_join sep b.
Proof.
  intros Ha Hb. induction a as [|x a IH]; [congruence|].
  destruct a as [|y a].
  - cbn [app]. now rewrite str_join_cons.
  - change ((x :: y :: a) ++ b) with (x :: (y :: a) ++ b).
    rewrite str_join_cons by discriminate. rewrite IH by discriminate.
    rewrite (str_join_cons sep x (y :: a)) by discriminate.
    now rewrite <- !app_assoc.
Qed.

(** A name is its last two labels, or ends in a dot and its last two
    labels. *)
Lemma last_labels_suffix (naked : str) :
  let parts := str_split 46 naked in
  let parent := str_join [46%N] (drop (length parts - 2) parts) in
  naked = parent \/ exists sub, naked = sub ++ [46%N] ++ parent.
Proof.
  cbv zeta. set (parts := str_split 46 naked).
  assert (Hj : str_join [46%N] parts = naked) by apply str_join_split.
  assert (Hne : parts <> []) by apply str_split_go_nonempty.
  destruct (Nat.eq_dec (length parts - 2)%nat 0%nat) as [E | E].
  - rewrite E. cbn [drop]. now left.
  - right. exists (str_join [46%N] (take (length parts - 2) parts)).
    rewrite <- str_join_app.
    + now rewrite take_drop.
    + intros Ht. apply (f_equal (@length str)) in Ht.
      rewrite length_take in Ht. cbn [length] in Ht. lia.
    + intros Hd. apply (f_equal (@length str)) in Hd.
      rewrite length_drop in Hd. cbn [length] in Hd. lia.
Qed.

Lemma hostname_nonempty (netloc h : str) : hostname netloc = Some h -> h <> [].
Proof.
  unfold hostname.
  destruct (str_rpartition 64 netloc) as [[? ?] hostinfo].
  destruct (str_partition 91 hostinfo) as [[? have_open_br] bracketed].
  set (host := if have_open_br then _ else _). clearbody host.
  destruct host as [|c r]; [discriminate|].
  destruct (str_partition 37 (c :: r)) as [[h0 percent] zone] eqn:E.
  intros H. apply (inj Some) in H. subst h.
  destruct (str_partition_spec _ _ _ _ _ E) as [_ Hs].
  destruct percent.
  - intros Hnil. apply (f_equal (@length N)) in Hnil.
    rewrite !length_app in Hnil. cbn in Hnil. lia.
  - destruct Hs as [<- ->]. discriminate.
Qed.

Lemma host_allowed_by (allowed : gset str) (d h : str) :
  d ∈ allowed -> h = d \/ str_endswith (py "." ++ d) h = true ->
  host_allowed allowed h = true.
Proof.
  intros Hd Hh. unfold host_allowed. apply orb_true_iff. right.
  apply existsb_exists. exists d. split.
  - apply list_elem_of_In, elem_of_elements, Hd.
  - apply orb_true_iff. destruct Hh as [-> | Hh]; [left | now right].
    now apply bool_decide_eq_true.
Qed.

Section ScopeFilter.

Context {nc : NetlocCheck}.

Lemma same_site_unfold (base_url : str) (parsed : ParseResult) :
  urlparse base_url = Some parsed ->
  same_site_allowed_domains base_url
  = let host := str_lower (default [] (hostname (p_netloc parsed))) in
    if negb (nonempty host) then Some ∅
    else
      let naked :=
        if str_startswith (py "www.") host then slice_from 4 host else host in
      let allow : gset str :=
        {[ host ]} ∪ {[ naked ]} ∪ {[ py "www." ++ naked ]} in
      let parts := str_split 46 naked in
      Some (if (2 <? length parts)%nat
            then allow ∪ {[ str_join (py ".") (drop (length parts - 2) parts) ]}
            else allow).
Proof. intros H. unfold same_site_allowed_domains. now rewrite H. Qed.

(** X5: a seed given with a leading [www.] and the same seed given without
    it have the same scope. *)
Theorem scope_ignores_leading_www (u1 u2 : str) (p1 p2 : ParseResult)
    (h : str) :
  urlparse u1 = Some p1 -> urlparse u2 = Some p2 ->
  hostname (p_netloc p1) = Some h ->
  hostname (p_netloc p2) = Some (py "www." ++ h) ->
  str_startswith (py "www.") (str_lower h) = false ->
  same_site_allowed_domains u1 = same_site_allowed_domains u2.
Proof.
  intros H1 H2 Hh1 Hh2 Hw.
  rewrite (same_site_unfold _ _ H1), (same_site_unfold _ _ H2).
  rewrite Hh1, Hh2. cbn [from_option id]. cbv zeta.
  assert (Hne : h <> []) by now apply (hostname_nonempty _ _ Hh1).
  assert (Hl : str_lower (py "www." ++ h) = py "www." ++ str_lower h).
  { unfold str_lower. now rewrite map_app. }
  rewrite Hl. set (lh := str_lower h) in *.
  assert (Hn : nonempty lh = true).
  { unfold lh. destruct h; [congruence|reflexivity]. }
  rewrite Hn, Hw, str_startswith_prefix.
  assert (Hs : slice_from 4 (py "www." ++ lh) = lh) by reflexivity.
  rewrite Hs. cbn [negb nonempty].
  assert (Hn2 : nonempty (py "www." ++ lh) = true) by reflexivity.
  rewrite Hn2. cbn [negb]. f_equal.
  assert (E : ({[ lh ]} ∪ {[ lh ]} ∪ {[ py "www." ++ lh ]} : gset str)
              = {[ py "www." ++ lh ]} ∪ {[ lh ]} ∪ {[ py "www." ++ lh ]}).
  { apply set_eq. intros x. rewrite !elem_of_union, !elem_of_singleton. tauto. }
  now rewrite E.
Qed.

(** X6: the hosts the off-site filter lets through.  With the scope of a
    seed that has a host, the filter admits the seed's host, every
    sub-domain of the host without its [www.], and, when that name has
    more than two labels, every host that ends in a dot and its last two
    labels. *)
Theorem scope_admits_parent_domain (base_url : str) (allow : gset str)
    (parsed : ParseResult) :
  same_site_allowed_domains base_url = Some allow ->
  urlparse base_url = Some parsed ->
  let host := str_lower (default [] (hostname (p_netloc parsed))) in
  let naked :=
    if str_startswith (py "www.") host then slice_from 4 host else host in
  let parts := str_split 46 naked in
  host <> [] ->
  host_allowed allow host = true
  /\ (forall h, str_endswith (py "." ++ naked) h = true ->
                host_allowed allow h = true)
  /\ ((2 < length parts)%nat ->
      forall h,
        str_endswith
          (py "." ++ str_join (py ".") (drop (length parts - 2) parts)) h
        = true ->
        host_allowed allow h = true).
Proof.
  intros Ha Hp. rewrite (same_site_unfold _ _ Hp) in Ha. cbv zeta in *.
  set (host := str_lower (default [] (hostname (p_netloc parsed)))) in *.
  clearbody host.
  set (naked := if str_startswith (py "www.") host then slice_from 4 host
                else host) in *.
  intros Hne. destruct host as [|c r] eqn:Eh; [congruence|].
  rewrite <- Eh in *. assert (Hn : nonempty host = true) by now rewrite Eh.
  rewrite Hn in Ha. cbn [negb] in Ha. apply (inj Some) in Ha.
  split; [|split].
  - apply (host_allowed_by _ host); [|now left]. subst allow.
    destruct (_ <? _)%nat;
      rewrite !elem_of_union, !elem_of_singleton; tauto.
  - intros h Hh. apply (host_allowed_by _ naked); [|now right]. subst allow.
    destruct (_ <? _)%nat;
      rewrite !elem_of_union, !elem_of_singleton; tauto.
  - intros Hlen h Hh.
    apply (host_allowed_by _
             (str_join (py ".")
                (drop (length (str_split 46 naked) - 2) (str_split 46 naked))));
      [|now right].
    subst allow. apply Nat.ltb_lt in Hlen. rewrite Hlen.
    rewrite !elem_of_union, !elem_of_singleton. tauto.
Qed.

(** X7: the scope stays inside one parent domain: every name in it is the
    name made of the last two labels of the host without its [www.] (the
    whole name when it has at most two labels), or a sub-domain of that
    name. *)
Theorem scope_within_parent_domain (base_url : str) (allow : gset str)
    (parsed : ParseResult) :
  same_site_allowed_domains base_url = Some allow ->
  urlparse base_url = Some parsed ->
  let host := str_lower (default [] (hostname (p_netloc parsed))) in
  let naked :=
    if str_startswith (py "www.") host then slice_from 4 host else host in
  let parts := str_split 46 naked in
  let parent := str_join (py ".") (drop (length parts - 2) parts) in
  forall h, h ∈ allow ->
            h = parent \/ exists sub, h = sub ++ py "." ++ parent.
Proof.
  intros Ha Hp. rewrite (same_site_unfold _ _ Hp) in Ha. cbv zeta in *.
  set (host := str_lower (default [] (hostname (p_netloc parsed)))) in *.
  clearbody host.
  assert (Hw : str_startswith (py "www.") host = true ->
               host = py "www." ++ slice_from 4 host).
  { intros Hw. symmetry. now apply (str_startswith_app (py "www.")). }
  set (naked := if str_startswith (py "www.") host then slice_from 4 host
                else host) in *.
  set (parent := str_join (py ".")
                   (drop (length (str_split 46 naked) - 2)
                      (str_split 46 naked))) in *.
  pose proof (last_labels_suffix naked) as Hnaked. cbv zeta in Hnaked.
  change [46%N] with (py ".") in Hnaked. fold parent in Hnaked.
  assert (Hwww : exists sub, py "www." ++ naked = sub ++ py "." ++ parent).
  { destruct Hnaked as [E | [sub E]].
    - exists (py "www"). now rewrite <- E.
    - exists (py "www." ++ sub). rewrite E at 1. now rewrite <- app_assoc. }
  assert (Hhost : host = parent \/ exists sub, host = sub ++ py "." ++ parent).
  { unfold naked in Hnaked, Hwww.
    destruct (str_startswith (py "www.") host) eqn:E; [|exact Hnaked].
    right. rewrite (Hw eq_refl). exact Hwww. }
  clearbody parent. clearbody naked.
  intros h Hin. destruct (nonempty host); cbn [negb] in Ha;
    apply (inj Some) in Ha; subst allow.
  - destruct (_ <? _)%nat;
      rewrite ?elem_of_union, !elem_of_singleton in Hin;
      intuition (subst; auto).
  - now apply elem_of_empty in Hin.
Qed.

End ScopeFilter.

(** *** make_pdf on short and empty texts *)

Lemma re_split_go_plain (s : str) :
  str_contains 10 s = false ->
  forall cur, re_split_go 0 cur s = [cur ++ s].
Proof.
  induction s as [|c r IH]; intros H cur; [cbn; now rewrite app_nil_r|].
  rewrite str_contains_cons in H. apply orb_false_elim in H as [Hc H].
  cbn [re_split_go]. rewrite N.eqb_sym, Hc, (IH H).
  now rewrite <- app_assoc.
Qed.

Lemma str_contains_lstrip (c : N) (s : str) :
  str_contains c s = false -> str_contains c (str_lstrip s) = false.
Proof.
  induction s as [|x r IH]; intros H; [reflexivity|]. cbn [str_lstrip].
  destruct (is_space x); [|exact H].
  rewrite str_contains_cons in H. apply orb_false_elim in H as [_ H].
  now apply IH.
Qed.

Lemma str_contains_rev (c : N) (s : str) :
  str_contains c (rev s) = str_contains c s.
Proof.
  induction s as [|x r IH]; [reflexivity|]. cbn [rev].
  rewrite str_contains_app, IH, !str_contains_cons. cbn [str_contains existsb].
  now rewrite orb_false_r, orb_comm.
Qed.

Lemma str_contains_strip (c : N) (s : str) :
  str_contains c s = false -> str_contains c (str_strip s) = false.
Proof.
  intros H. unfold str_strip, str_rstrip. rewrite str_contains_rev.
  apply str_contains_lstrip. rewrite str_contains_rev.
  now apply str_contains_lstrip.
Qed.

Lemma chunk_while_short (para : str) (fuel : nat) :
  para <> [] -> len para <= chunk_size ->
  chunk_while (S fuel) para = Some [para].
Proof.
  intros Hne Hlen. destruct para as [|c r]; [congruence|].
  cbn [chunk_while]. unfold chunk_step.
  rewrite (proj2 (Z.leb_le _ _) Hlen), orb_true_r.
  now destruct fuel.
Qed.

(** X8: the story of a page with little or no text.  Without text the
    story is the title block alone; a text of white space only adds the
    heading [Page Text] and nothing under it; a text without a newline
    whose stripped form has at most 1,600 characters is rendered as one
    paragraph, stripped and uncut. *)
Theorem story_of_small_texts (p : payload) :
  let head :=
    [Paragraph (if nonempty (pl_title p) then pl_title p else py "(No title)")
               h1;
     Paragraph (pl_url p) normal; Spacer 15; Spacer 10] in
  (pl_text p = [] -> story_of p = Some head)
  /\ (pl_text p <> [] -> str_strip (pl_text p) = [] ->
      story_of p = Some (head ++ [Paragraph (py "Page Text") h2]))
  /\ (str_contains 10 (pl_text p) = false ->
      str_strip (pl_text p) <> [] ->
      len (str_strip (pl_text p)) <= chunk_size ->
      story_of p
      = Some (head ++ [Paragraph (py "Page Text") h2;
                       Paragraph (str_strip (pl_text p)) normal; Spacer 5])).
Proof.
  cbv zeta. unfold story_of. split; [|split].
  - now intros ->.
  - intros Hne Hb. destruct (pl_text p) as [|c r] eqn:Et; [congruence|].
    cbn [nonempty]. unfold body_paragraphs. rewrite Hb.
    cbn [re_split_blank re_split_go length Nat.ltb Nat.leb body_pieces].
    rewrite Hb. reflexivity.
  - intros Hnl Hne Hlen.
    destruct (pl_text p) as [|c r] eqn:Et; [now cbn in Hne|].
    cbn [nonempty]. unfold body_paragraphs, re_split_blank.
    rewrite re_split_go_plain by now apply str_contains_strip.
    cbn [length Nat.ltb Nat.leb body_pieces].
    destruct (str_strip (c :: r)) as [|x w] eqn:Es; [congruence|].
    change (length (x :: w)) with (S (length w)).
    rewrite (chunk_while_short (x :: w) (length w)) by (congruence || exact Hlen).
    reflexivity.
Qed.

(** *** The links a page yields, and what the scheduler keeps *)

Section Links.

Context {nc : NetlocCheck}.

Lemma strip_tracking_no_fragment (u s : str) :
  _strip_tracking u = Some s -> str_contains 35 s = false.
Proof.
  intros H. destruct (urlsplit u) as [sp|] eqn:Hsp.
  2:{ unfold _strip_tracking in H. now rewrite Hsp in H. }
  rewrite (strip_tracking_unfold _ _ Hsp) in H.
  destruct (urlencode (kept_pairs (u_query sp))) as [qs|] eqn:Eq;
    [|discriminate].
  apply (inj Some) in H. subst s.
  apply urlunsplit_no_fragment; [now apply (urlsplit_wf u)|].
  now apply (parse_qsl_urlencode _ _ Eq).
Qed.

(** The [for link in ...] loop of [parse]: it yields the canonical form of
    the links up to the first one whose canonical form cannot be computed,
    and runs to its end when there is none. *)
Lemma parse_links_spec (links : list str) :
  exists good,
    Forall2 (fun l h => urldefrag l ≫= _strip_tracking = Some h)
            good (parse_links links).1
    /\ (if (parse_links links).2 then links = good
        else exists bad rest,
               links = good ++ bad :: rest
               /\ urldefrag bad ≫= _strip_tracking = None).
Proof.
  induction links as [|l rest (good & IH1 & IH2)].
  - exists []. now split; [constructor|].
  - cbn [parse_links].
    destruct (urldefrag l ≫= _strip_tracking) as [href|] eqn:E.
    + destruct (parse_links rest) as [hrefs completed]. cbn [fst snd] in *.
      exists (l :: good). split; [now constructor|].
      destruct completed; [now subst|].
      destruct IH2 as (bad & rest' & -> & Hbad). now exists bad, rest'.
    + exists []. cbn [fst snd]. split; [constructor|]. now exists l, rest.
Qed.

Lemma parse_links_stop (good rest : list str) (bad : str) :
  Forall (fun l => is_Some (urldefrag l ≫= _strip_tracking)) good ->
  urldefrag bad ≫= _strip_tracking = None ->
  (parse_links (good ++ bad :: rest)).2 = false
  /\ Forall2 (fun l h => urldefrag l ≫= _strip_tracking = Some h)
             good (parse_links (good ++ bad :: rest)).1.
Proof.
  intros Hgood Hbad. induction Hgood as [|l good [h Hl] _ [IH1 IH2]].
  - cbn [app parse_links]. rewrite Hbad. now split; [|constructor].
  - cbn [app parse_links]. rewrite Hl.
    destruct (parse_links (good ++ bad :: rest)) as [hrefs completed].
    cbn [fst snd] in *. split; [exact IH1|]. now constructor.
Qed.

Context {world : World}.

(** X9: the links [parse] yields are canonical.  Each is the canonical form
    of a link of the page, in the order of the page; it holds no [#], and
    [urldefrag] returns it unchanged. *)
Theorem parse_yields_canonical_links (outdir : str) (response : Response)
    (fs fs' : fsys) (hrefs : list str) :
  parse outdir response fs = Some (hrefs, fs') ->
  Forall2 (fun l h => urldefrag l ≫= _strip_tracking = Some h)
          (take (length hrefs) (r_links response)) hrefs
  /\ Forall (fun h => str_contains 35 h = false /\ urldefrag h = Some h)
            hrefs.
Proof.
  intros H. destruct (parse_total outdir response fs) as (fs2 & E & _).
  rewrite E in H. apply (inj Some) in H. injection H as <- _.
  destruct (parse_links_spec (r_links response)) as (good & HF & Hshape).
  assert (Hlen : length good = length (parse_links (r_links response)).1)
    by apply (Forall2_length _ _ _ HF).
  assert (Htake : take (length (parse_links (r_links response)).1)
                       (r_links response) = good).
  { rewrite <- Hlen. destruct (parse_links (r_links response)).2.
    - subst good. apply firstn_all.
    - destruct Hshape as (bad & rest & -> & _). apply take_app_length. }
  rewrite Htake. split; [exact HF|].
  clear -HF. induction HF as [|l h good hrefs Hl _ IH]; constructor;
    [|exact IH].
  destruct (urldefrag l) as [d|]; [|discriminate]. cbn in Hl.
  pose proof (strip_tracking_no_fragment _ _ Hl) as Hno.
  split; [exact Hno|]. unfold urldefrag. now rewrite Hno.
Qed.

(** X10: a link whose canonical form cannot be computed ends [parse] early.
    The links before it are followed, the links after it are not, and the
    document of the page is not written. *)
Theorem parse_stops_at_bad_link (outdir : str) (response : Response)
    (fs : fsys) (good rest : list str) (bad : str) :
  r_links response = good ++ bad :: rest ->
  Forall (fun l => is_Some (urldefrag l ≫= _strip_tracking)) good ->
  urldefrag bad ≫= _strip_tracking = None ->
  exists hrefs,
    parse outdir response fs = Some (hrefs, fs)
    /\ Forall2 (fun l h => urldefrag l ≫= _strip_tracking = Some h)
               good hrefs.
Proof.
  intros Hl Hgood Hbad.
  destruct (parse_links_stop good rest bad Hgood Hbad) as [Hc HF].
  exists (parse_links (good ++ bad :: rest)).1. split; [|exact HF].
  unfold parse. rewrite Hl.
  destruct (parse_links (good ++ bad :: rest)) as [hrefs completed].
  cbn [fst snd] in *. now rewrite Hc.
Qed.

Lemma schedule_spec (maxdepth : Z) (allowed : gset str) (depth : Z)
    (hrefs : list str) (seen : gset str) :
  let rs := (schedule maxdepth allowed depth hrefs seen).1 in
  let seen' := (schedule maxdepth allowed depth hrefs seen).2 in
  let host_of u := default [] (sp ← urlsplit u; hostname (u_netloc sp)) in
  Forall (fun r =>
            q_url r ∈ hrefs /\ (q_url r ∉ seen) /\ q_depth r = depth + 1
            /\ host_allowed allowed (host_of (q_url r)) = true
            /\ (maxdepth <> 0 -> q_depth r <= maxdepth)) rs
  /\ NoDup (map q_url rs)
  /\ seen' = seen ∪ list_to_set (map q_url rs)
  /\ (maxdepth <> 0 -> maxdepth <= depth -> rs = []).
Proof.
  cbv zeta. revert seen.
  induction hrefs as [|href rest IH]; intros seen; cbn [schedule].
  - cbn [fst snd map list_to_set]. repeat split; try constructor.
    apply set_eq. intros x. rewrite elem_of_union, elem_of_empty. tauto.
  - destruct (depth_allowed maxdepth (depth + 1)) eqn:Ed; cbn [andb].
    2:{ destruct (IH seen) as (H1 & H2 & H3 & H4).
        repeat split; try assumption.
        eapply Forall_impl; [exact H1|]. cbn beta.
        intros r (? & ? & ? & ? & ?). repeat split; try assumption.
        now right. }
    destruct (host_allowed allowed _) eqn:Eh; cbn [andb].
    2:{ destruct (IH seen) as (H1 & H2 & H3 & H4).
        repeat split; try assumption.
        eapply Forall_impl; [exact H1|]. cbn beta.
        intros r (? & ? & ? & ? & ?). repeat split; try assumption.
        now right. }
    destruct (bool_decide (href ∈ seen)) eqn:Es; cbn [negb].
    { destruct (IH seen) as (H1 & H2 & H3 & H4).
      repeat split; try assumption.
      eapply Forall_impl; [exact H1|]. cbn beta.
      intros r (? & ? & ? & ? & ?). repeat split; try assumption.
      now right. }
    apply bool_decide_eq_false in Es.
    destruct (IH ({[href]} ∪ seen)) as (H1 & H2 & H3 & H4).
    destruct (schedule maxdepth allowed depth rest ({[href]} ∪ seen))
      as [rs seen'].
    cbn [fst snd map q_url] in *.
    assert (Hd : maxdepth <> 0 -> depth + 1 <= maxdepth).
    { intros Hm. unfold depth_allowed in Ed.
      destruct (Z.eqb_spec maxdepth 0); [congruence|]. cbn [negb andb] in Ed.
      now apply negb_true_iff, Z.ltb_ge in Ed. }
    split; [|split; [|split]].
    + constructor.
      * cbn [q_url q_depth]. repeat split; try assumption. now left.
      * eapply Forall_impl; [exact H1|]. cbn beta.
        intros r (Hin & Hns & ? & ? & ?). repeat split; try assumption.
        -- now right.
        -- intros Hx. apply Hns, elem_of_union. now right.
    + constructor; [|exact H2]. intros Hin.
      apply list_elem_of_In, in_map_iff in Hin as (r & Hr & Hin).
      rewrite Forall_forall in H1. apply list_elem_of_In, H1 in Hin.
      destruct Hin as (_ & Hns & _). apply Hns, elem_of_union. left.
      apply elem_of_singleton. now rewrite Hr.
    + rewrite H3. cbn [list_to_set]. apply set_eq. intros x.
      rewrite !elem_of_union. tauto.
    + intros Hm Hle. specialize (Hd Hm). lia.
Qed.

(** X11: what the scheduler keeps of the links of a page at [depth].  Every
    request it keeps is for one of the links, one level deeper, for a host
    the off-site filter admits, and for a URL that was not scheduled
    before; no URL is kept twice, and the URLs kept are recorded as seen.
    With a depth limit other than 0, the requests stay within the limit and
    a page at the limit schedules nothing. *)
Theorem schedule_filters (maxdepth : Z) (allowed : gset str) (depth : Z)
    (hrefs : list str) (seen : gset str) :
  let rs := (schedule maxdepth allowed depth hrefs seen).1 in
  let seen' := (schedule maxdepth allowed depth hrefs seen).2 in
  let host_of u := default [] (sp ← urlsplit u; hostname (u_netloc sp)) in
  Forall (fun r =>
            q_url r ∈ hrefs /\ (q_url r ∉ seen) /\ q_depth r = depth + 1
            /\ host_allowed allowed (host_of (q_url r)) = true
            /\ (maxdepth <> 0 -> q_depth r <= maxdepth)) rs
  /\ NoDup (map q_url rs)
  /\ seen' = seen ∪ list_to_set (map q_url rs)
  /\ (maxdepth <> 0 -> maxdepth <= depth -> rs = []).
Proof. apply schedule_spec. Qed.

End Links.

(** *** The files of a crawl *)

Section CrawlFiles.

Context {nc : NetlocCheck} {world : World}.

Lemma documents_added_refl (outdir : str) (fs : fsys) :
  documents_added outdir fs fs.
Proof. split; [reflexivity|]. intros p. now left. Qed.

Lemma documents_added_trans (outdir : str) (fs1 fs2 fs3 : fsys) :
  documents_added outdir fs1 fs2 -> documents_added outdir fs2 fs3 ->
  documents_added outdir fs1 fs3.
Proof.
  intros [Hd1 Hf1] [Hd2 Hf2]. split; [congruence|]. intros p.
  destruct (Hf2 p) as [E | H]; [|now right].
  rewrite E. apply Hf1.
Qed.

Lemma documents_added_write (outdir u name : str) (d : pdf) (fs : fsys) :
  sanitize_filename_from_url u = Some name ->
  documents_added outdir fs (write_file (path_join outdir name) (PdfFile d) fs).
Proof.
  intros Hn. split; [reflexivity|]. intros p. cbn [write_file fs_files].
  destruct (decide (p = path_join outdir name)) as [-> | Hne].
  - right. exists u, name, d. now rewrite lookup_insert_eq.
  - left. now rewrite lookup_insert_ne.
Qed.

Lemma documents_added_keeps (outdir : str) (fs fs' : fsys) (p : str) :
  documents_added outdir fs fs' ->
  is_Some (fs_files fs !! p) -> is_Some (fs_files fs' !! p).
Proof.
  intros [_ Hf] Hp. destruct (Hf p) as [-> | (? & ? & d & _ & _ & ->)];
    [exact Hp | eauto].
Qed.

Lemma try_make_pdf_files (outdir u name : str) (p : payload) (fs fs' : fsys) :
  sanitize_filename_from_url u = Some name ->
  try_make_pdf (path_join outdir name) p fs = Some fs' ->
  documents_added outdir fs fs'.
Proof.
  intros Hn H.
  destruct (try_make_pdf_spec (path_join outdir name) p fs) as (story & _ & E).
  rewrite E in H. apply (inj Some) in H. subst fs'.
  destruct (build_ok _ _);
    [now apply (documents_added_write _ u) | apply documents_added_refl].
Qed.

Lemma handle_request_files (start_url outdir : str) (request : Request)
    (fs fs' : fsys) (hrefs : list str) :
  handle_request start_url outdir request fs = Some (hrefs, fs') ->
  documents_added outdir fs fs'.
Proof.
  unfold handle_request.
  destruct (fetch (q_url request)) as [response | repr].
  - unfold parse. destruct (parse_links (r_links response)) as [links completed].
    destruct completed.
    2:{ intros H. injection H as _ <-. apply documents_added_refl. }
    destruct (sanitize_filename_from_url (r_url response)) as [name|] eqn:En.
    2:{ intros H. injection H as _ <-. apply documents_added_refl. }
    destruct (try_make_pdf _ _ fs) as [fs1|] eqn:E; [|discriminate].
    cbn [mbind option_bind]. intros H. injection H as _ <-.
    now apply (try_make_pdf_files _ _ _ _ _ _ En E).
  - destruct (q_errback request).
    2:{ cbn. intros H. injection H as _ <-. apply documents_added_refl. }
    unfold errback_first.
    destruct (sanitize_filename_from_url start_url) as [name|] eqn:En.
    2:{ cbn. intros H. injection H as _ <-. apply documents_added_refl. }
    destruct (try_make_pdf _ _ fs) as [fs1|] eqn:E; [|discriminate].
    cbn [mbind option_bind]. intros H. injection H as _ <-.
    now apply (try_make_pdf_files _ _ _ _ _ _ En E).
Qed.

Lemma crawl_loop_files (fuel : nat) (start_url outdir : str) (maxdepth : Z)
    (allowed : gset str) :
  forall queue seen fs fs',
    crawl_loop fuel start_url outdir maxdepth allowed queue seen fs = Some fs' ->
    documents_added outdir fs fs'.
Proof.
  induction fuel as [|fuel IH]; intros queue seen fs fs' H;
    destruct queue as [|request queue']; cbn [crawl_loop] in H;
    try discriminate;
    try (injection H as <-; apply documents_added_refl).
  destruct (handle_request start_url outdir request fs) as [[hrefs fs1]|] eqn:E;
    [|discriminate].
  cbn [mbind option_bind] in H.
  destruct (schedule maxdepth allowed (q_depth request) hrefs seen)
    as [new seen'].
  apply IH in H. apply handle_request_files in E.
  now apply (documents_added_trans _ _ fs1).
Qed.

(** X12: a crawl writes documents into its output directory and does
    nothing else to the file system.  It adds no directory, removes no
    file, and every file it creates or changes is a document stored in the
    output directory under a name of [sanitize_filename_from_url]. *)
Theorem crawl_writes_only_documents (fuel : nat) (start_url : str) (d : Z)
    (outdir : str) (fs fs1 : fsys) :
  crawl_to_pdfs fuel start_url d outdir fs = Some (Returns fs1) ->
  fs_dirs fs1 = fs_dirs fs
  /\ (forall p f, fs_files fs !! p = Some f -> is_Some (fs_files fs1 !! p))
  /\ forall p,
       fs_files fs1 !! p = fs_files fs !! p
       \/ exists u name doc,
            sanitize_filename_from_url u = Some name
            /\ p = path_join outdir name
            /\ fs_files fs1 !! p = Some (PdfFile doc).
Proof.
  unfold crawl_to_pdfs.
  destruct (same_site_allowed_domains start_url) as [allowed|];
    [|discriminate].
  destruct engine_fault; [discriminate|].
  destruct (crawl_loop _ _ _ _ _ _ _ _) as [fs2|] eqn:E; [|discriminate].
  intros H. injection H as <-. apply crawl_loop_files in E.
  split; [apply E|]. split; [|apply E].
  intros p f Hp. apply (documents_added_keeps _ _ _ _ E). eauto.
Qed.

(** Every listed name is the name of a file directly in the directory. *)
Lemma listdir_lookup (fs : fsys) (d name : str) :
  (exists x, d = x ++ py "pdfs") ->
  name ∈ listdir fs d ->
  str_contains 47 name = false
  /\ path_join d name = d ++ py "/" ++ name
  /\ is_Some (fs_files fs !! path_join d name).
Proof.
  intros Hd Hin. unfold listdir in Hin.
  apply list_elem_of_omap in Hin as (p & Hp & He).
  apply list_elem_of_In, in_map_iff in Hp as ([p' f] & Hpp & Hp).
  cbn [fst] in Hpp. subst p'.
  apply list_elem_of_In, elem_of_map_to_list in Hp.
  unfold entry_name in He.
  destruct (str_startswith (d ++ py "/") p) eqn:Es; [|discriminate].
  cbn [andb] in He.
  destruct (nonempty (drop (length (d ++ py "/")) p)) eqn:En; [|discriminate].
  cbn [andb] in He.
  destruct (str_contains 47 (drop (length (d ++ py "/")) p)) eqn:Ec;
    [discriminate|].
  cbn [negb] in He. apply (inj Some) in He.
  apply str_startswith_app in Es. rewrite He in Es, Ec, En.
  assert (Hst : str_startswith (py "/") name = false).
  { destruct name as [|c r]; [discriminate|].
    rewrite str_contains_cons in Ec. apply orb_false_elim in Ec as [Ec _].
    change (py "/") with [47%N]. cbn [str_startswith]. now rewrite Ec. }
  rewrite (path_join_plain d name Hd Hst).
  split; [exact Ec|]. split; [now rewrite <- app_assoc|].
  rewrite Es. eauto.
Qed.

Lemma zip_entries_names (fs : fsys) (d : str) (names : list str) :
  (exists x, d = x ++ py "pdfs") ->
  Forall (fun name => name ∈ listdir fs d) names ->
  map fst (zip_entries fs d names) = names
  /\ Forall (fun e => str_contains 47 e.1 = false
                      /\ fs_files fs !! (d ++ py "/" ++ e.1) = Some e.2)
            (zip_entries fs d names).
Proof.
  intros Hd Hall. unfold zip_entries.
  induction Hall as [|name names Hn _ [IH1 IH2]]; [now split|].
  destruct (listdir_lookup fs d name Hd Hn) as (Hc & Hj & [f Hf]).
  cbn [omap list_omap]. rewrite Hf. cbn [fmap option_fmap option_map map fst].
  split; [now rewrite IH1|]. constructor; [|exact IH2].
  cbn [fst snd]. split; [exact Hc|]. now rewrite <- Hj.
Qed.

(** X13: the archive is the flat listing of the documents.  When the
    endpoint answers with the archive, the archive at [result.zip] holds
    one entry for each name of the output directory that ends in [.pdf]
    (in any letter case), in the order of the listing, each stored under
    its bare name with the contents of the file of that name. *)
Theorem scrape_archive_entries (fuel : nat) (workdir : str)
    (req : CrawlRequest) (fs fs' : fsys) (path media_type filename : str) :
  scrape fuel workdir req fs
  = Some (FileResponse path media_type filename, fs') ->
  let outdir := path_join workdir (py "pdfs") in
  exists fs1 entries,
    crawl_to_pdfs fuel (url req) (depth req) outdir
                  (make_dir outdir (make_dir workdir fs))
    = Some (Returns fs1)
    /\ path = path_join workdir (py "result.zip")
    /\ fs' = write_file path (ZipFile entries) fs1
    /\ entries <> []
    /\ map fst entries = List.filter is_pdf_name (listdir fs1 outdir)
    /\ Forall (fun e => str_contains 47 e.1 = false
                        /\ fs_files fs1 !! (outdir ++ py "/" ++ e.1) = Some e.2)
              entries.
Proof.
  unfold scrape. intros H. cbv zeta.
  destruct (crawl_to_pdfs _ _ _ _ _) as [r|] eqn:E; [|discriminate].
  cbn [mbind option_bind] in H. destruct r as [fs1 | e]; [|discriminate].
  destruct (List.filter is_pdf_name _) as [|n ns] eqn:El; [discriminate|].
  injection H as <- _ _ <-.
  assert (Hall : Forall (fun name =>
                           name ∈ listdir fs1 (path_join workdir (py "pdfs")))
                        (n :: ns)).
  { rewrite <- El. apply Forall_forall. intros name Hin.
    apply list_elem_of_In, filter_In in Hin as [Hin _].
    now apply list_elem_of_In. }
  destruct (zip_entries_names fs1 _ (n :: ns) (outdir_shape workdir) Hall)
    as [Hnames Hfiles].
  exists fs1, (zip_entries fs1 (path_join workdir (py "pdfs")) (n :: ns)).
  split; [reflexivity|]. split; [reflexivity|]. split; [reflexivity|].
  split; [|split; [now rewrite El | exact Hfiles]].
  intros Hnil. rewrite Hnil in Hnames. discriminate.
Qed.



End CrawlFiles.

(** *** Stripping, lines and runs of newlines *)

Lemma str_lstrip_split (s : str) :
  exists ws,
    s = ws ++ str_lstrip s /\ forallb is_space ws = true
    /\ (str_lstrip s = [] \/ is_space (hd 0%N (str_lstrip s)) = false).
Proof.
  induction s as [|c r (ws & IH1 & IH2 & IH3)].
  - exists []. now split; [|split; [|left]].
  - cbn [str_lstrip]. destruct (is_space c) eqn:E.
    + exists (c :: ws). cbn [app forallb]. rewrite E, IH2, <- IH1. now split.
    + exists []. split; [reflexivity|]. split; [reflexivity|]. now right.
Qed.

Lemma hd_app_nonempty (a b : str) : a <> [] -> hd 0%N (a ++ b) = hd 0%N a.
Proof. now destruct a. Qed.

Lemma rev_nonempty (a : str) : a <> [] -> rev a <> [].
Proof.
  intros H E. apply H. apply (f_equal (@rev N)) in E.
  now rewrite rev_involutive in E.
Qed.

Lemma str_strip_split (s : str) :
  exists a b,
    s = a ++ str_strip s ++ b /\ forallb is_space a = true
    /\ forallb is_space b = true /\ ends_ok (str_strip s).
Proof.
  unfold str_strip, str_rstrip.
  destruct (str_lstrip_split s) as (a & Hs & Ha & Hhead).
  set (t := str_lstrip s) in *.
  destruct (str_lstrip_split (rev t)) as (b & Ht & Hb & Hlast).
  set (w := str_lstrip (rev t)) in *.
  assert (Et : t = rev w ++ rev b).
  { now rewrite <- (rev_involutive t), Ht, rev_app_distr. }
  exists a, (rev b). split; [now rewrite <- Et|]. split; [exact Ha|].
  split; [now rewrite forallb_rev|].
  destruct w as [|c w']; [now left|]. right. rewrite rev_involutive.
  split; [|destruct Hlast as [Hlast | Hlast]; [discriminate | exact Hlast]].
  assert (Hne : rev (c :: w') <> []) by now apply rev_nonempty.
  destruct Hhead as [Hhead | Hhead].
  - rewrite Hhead in Et. symmetry in Et. apply app_eq_nil in Et as [Et _].
    congruence.
  - rewrite Et, hd_app_nonempty in Hhead by exact Hne. exact Hhead.
Qed.

Lemma str_lstrip_fixed (l : str) :
  l = [] \/ is_space (hd 0%N l) = false -> str_lstrip l = l.
Proof.
  destruct l as [|c r]; [reflexivity|]. intros [H | H]; [discriminate|].
  cbn [hd] in H. cbn [str_lstrip]. now rewrite H.
Qed.

Lemma str_strip_fixed (l : str) : ends_ok l -> str_strip l = l.
Proof.
  intros [-> | [H1 H2]]; [reflexivity|]. unfold str_strip, str_rstrip.
  rewrite (str_lstrip_fixed l) by now right.
  rewrite (str_lstrip_fixed (rev l)) by now right.
  apply rev_involutive.
Qed.

Lemma str_strip_ends (s : str) : ends_ok (str_strip s).
Proof. now destruct (str_strip_split s) as (? & ? & _ & _ & _ & ?). Qed.

Lemma str_strip_idem (s : str) : str_strip (str_strip s) = str_strip s.
Proof. apply str_strip_fixed, str_strip_ends. Qed.

Lemma forallb_strip (P : N -> bool) (s : str) :
  forallb P s = true -> forallb P (str_strip s) = true.
Proof.
  intros H. destruct (str_strip_split s) as (a & b & Hs & _).
  rewrite Hs, !forallb_app in H.
  apply andb_prop in H as [_ H]. now apply andb_prop in H as [H _].
Qed.

Lemma ends_ok_rev (l : str) : ends_ok l -> ends_ok (rev l).
Proof.
  intros [-> | [H1 H2]]; [now left|]. right. now rewrite rev_involutive.
Qed.

(** [tok in s] is kept when [s] is extended on either side. *)
Lemma str_startswith_app_r (tok s b : str) :
  str_startswith tok s = true -> str_startswith tok (s ++ b) = true.
Proof.
  revert s. induction tok as [|x tok IH]; intros s H; [reflexivity|].
  destruct s as [|c r]; [discriminate|]. cbn [app str_startswith] in *.
  apply andb_prop in H as [-> H]. now rewrite IH.
Qed.

Lemma str_contains_sub_app_r (tok s b : str) :
  str_contains_sub tok s = true -> str_contains_sub tok (s ++ b) = true.
Proof.
  induction s as [|c r IH]; intros H.
  - cbn [str_contains_sub] in H. rewrite orb_false_r in H.
    destruct tok; [|discriminate]. now destruct b.
  - cbn [app str_contains_sub] in *. apply orb_prop in H as [H | H].
    + change (c :: r ++ b) with ((c :: r) ++ b).
      now rewrite (str_startswith_app_r _ _ _ H).
    + rewrite (IH H). apply orb_true_r.
Qed.

Lemma str_contains_sub_app_l (tok a s : str) :
  str_contains_sub tok s = true -> str_contains_sub tok (a ++ s) = true.
Proof.
  intros H. induction a as [|c a IH]; [exact H|].
  cbn [app str_contains_sub]. rewrite IH. apply orb_true_r.
Qed.

Lemma str_contains_sub_strip (tok s : str) :
  str_contains_sub tok s = false -> str_contains_sub tok (str_strip s) = false.
Proof.
  intros H. destruct (str_contains_sub tok (str_strip s)) eqn:E;
    [|reflexivity].
  destruct (str_strip_split s) as (a & b & Hs & _).
  rewrite Hs in H. rewrite str_contains_sub_app_l in H; [discriminate|].
  now apply str_contains_sub_app_r.
Qed.

(** The substitution of newline runs leaves no run of three. *)
Lemma newline_run_cases (run : nat) :
  newline_run 3 run = [] \/ newline_run 3 run = [10%N]
  \/ newline_run 3 run = [10%N; 10%N].
Proof.
  unfold newline_run. destruct run as [|[|[|run]]]; cbn; tauto.
Qed.

Lemma str_contains_sub_cons (tok : str) (c : N) (s : str) :
  str_contains_sub tok (c :: s)
  = str_startswith tok (c :: s) || str_contains_sub tok s.
Proof. reflexivity. Qed.

Lemma str_startswith_cons (x : N) (tok : str) (c : N) (s : str) :
  str_startswith (x :: tok) (c :: s) = N.eqb x c && str_startswith tok s.
Proof. reflexivity. Qed.

Lemma re_sub_newlines_no_triple (s : str) :
  forall run,
    str_contains_sub [10%N; 10%N; 10%N] (re_sub_newlines 3 run s) = false.
Proof.
  induction s as [|c r IH]; intros run; cbn [re_sub_newlines].
  - destruct (newline_run_cases run) as [-> | [-> | ->]]; reflexivity.
  - destruct (N.eqb_spec c 10) as [-> | Hc]; [apply IH|].
    assert (Hc' : (10 =? c)%N = false) by (apply N.eqb_neq; congruence).
    destruct (newline_run_cases run) as [-> | [-> | ->]]; cbn [app];
      rewrite !str_contains_sub_cons, !str_startswith_cons, ?N.eqb_refl,
        Hc', IH;
      reflexivity.
Qed.

Lemma forallb_repeat (P : N -> bool) (c : N) (n : nat) :
  P c = true -> forallb P (repeat c n) = true.
Proof. intros H. induction n; [reflexivity|]. cbn. now rewrite H. Qed.

Lemma forallb_newline_run (P : N -> bool) (k run : nat) :
  P 10%N = true -> forallb P (newline_run k run) = true.
Proof.
  intros H. unfold newline_run. destruct (k <=? run)%nat.
  - cbn. now rewrite H.
  - now apply forallb_repeat.
Qed.

Lemma forallb_re_sub_newlines (P : N -> bool) (k : nat) (s : str) :
  P 10%N = true -> forallb P s = true ->
  forall run, forallb P (re_sub_newlines k run s) = true.
Proof.
  intros H10. induction s as [|c r IH]; intros H run; cbn [re_sub_newlines].
  - now apply forallb_newline_run.
  - cbn [forallb] in H. apply andb_prop in H as [Hc H].
    destruct (N.eqb c 10); [now apply IH|].
    rewrite forallb_app, forallb_newline_run by exact H10.
    cbn [forallb andb]. now rewrite Hc, IH.
Qed.

Lemma forallb_re_sub_blanks (P : N -> bool) (s : str) :
  P 32%N = true -> forallb P s = true ->
  forall in_run, forallb P (re_sub_blanks in_run s) = true.
Proof.
  intros H32. induction s as [|c r IH]; intros H in_run; [reflexivity|].
  cbn [forallb] in H. apply andb_prop in H as [Hc H]. cbn [re_sub_blanks].
  destruct (is_blank c); [destruct in_run|]; cbn [forallb];
    rewrite ?H32, ?Hc, IH by exact H; reflexivity.
Qed.

Lemma re_sub_blanks_none (s : str) :
  forall in_run,
    forallb (fun c => negb (is_blank c) || (c =? 32)%N)
            (re_sub_blanks in_run s) = true.
Proof.
  induction s as [|c r IH]; intros in_run; [reflexivity|].
  cbn [re_sub_blanks]. destruct (is_blank c) eqn:E.
  - destruct in_run; [apply IH|]. cbn [forallb]. now rewrite IH.
  - cbn [forallb]. now rewrite E, IH.
Qed.

Lemma forallb_str_replace (P : N -> bool) (a b : N) (s : str) :
  P b = true -> forallb P s = true -> forallb P (str_replace a b s) = true.
Proof.
  intros Hb. unfold str_replace. induction s as [|c r IH]; [reflexivity|].
  cbn [forallb map]. intros H. apply andb_prop in H as [Hc H].
  rewrite (IH H). now destruct (N.eqb c a); rewrite ?Hb, ?Hc.
Qed.

Lemma forallb_str_join (P : N -> bool) (sep : str) (items : list str) :
  forallb P sep = true -> Forall (fun l => forallb P l = true) items ->
  forallb P (str_join sep items) = true.
Proof.
  intros Hsep H. induction H as [|l items Hl _ IH]; [reflexivity|].
  destruct items as [|m items]; [exact Hl|].
  rewrite str_join_cons by discriminate.
  now rewrite !forallb_app, Hl, Hsep, IH.
Qed.

(** *** The lines of a text *)

Lemma str_split_go_first (sep : N) (s : str) :
  forall cur, exists x rest, str_split_go sep cur s = (cur ++ x) :: rest.
Proof.
  induction s as [|c r IH]; intros cur; cbn [str_split_go].
  - exists [], []. now rewrite app_nil_r.
  - destruct (N.eqb c sep).
    + exists [], (str_split_go sep [] r). now rewrite app_nil_r.
    + destruct (IH (cur ++ [c])) as (x & rest & ->).
      exists (c :: x), rest. now rewrite <- app_assoc.
Qed.

Lemma str_split_go_no_sep (sep : N) (s : str) :
  forall cur,
    str_contains sep cur = false ->
    Forall (fun l => str_contains sep l = false) (str_split_go sep cur s).
Proof.
  induction s as [|c r IH]; intros cur Hcur; cbn [str_split_go].
  - now constructor.
  - destruct (N.eqb_spec c sep) as [-> | Hne].
    + constructor; [exact Hcur|]. now apply IH.
    + apply IH. rewrite str_contains_app, Hcur. cbn.
      destruct (N.eqb_spec sep c); [congruence | reflexivity].
Qed.

Lemma str_split_no_sep (sep : N) (s : str) :
  Forall (fun l => str_contains sep l = false) (str_split sep s).
Proof. now apply str_split_go_no_sep. Qed.

Lemma str_split_nonempty (sep : N) (s : str) : str_split sep s <> [].
Proof. apply str_split_go_nonempty. Qed.

Lemma rev_str_join (sep : N) (items : list str) :
  rev (str_join [sep] items) = str_join [sep] (rev (map (@rev N) items)).
Proof.
  induction items as [|l items IH]; [reflexivity|].
  destruct items as [|m items]; [reflexivity|].
  rewrite str_join_cons by discriminate.
  rewrite !rev_app_distr, IH. cbn [map rev] in *.
  rewrite (str_join_app [sep] _ [rev l]); [| | discriminate].
  - cbn [str_join app]. now rewrite <- app_assoc.
  - intros E. apply app_eq_nil in E as [_ E]. discriminate.
Qed.

(** The lines of the reversed text are the reversed lines, in reverse
    order. *)
Lemma str_split_rev (sep : N) (s : str) :
  str_split sep (rev s) = rev (map (@rev N) (str_split sep s)).
Proof.
  rewrite <- (str_join_split sep s) at 1. rewrite rev_str_join.
  apply str_split_join.
  - intros E. apply (f_equal (@length str)) in E.
    rewrite length_rev, length_map in E.
    pose proof (str_split_nonempty sep s) as Hne.
    destruct (str_split sep s); [congruence | discriminate].
  - apply Forall_forall. intros l Hin.
    apply list_elem_of_In, in_rev, in_map_iff in Hin as (l0 & <- & Hin).
    rewrite str_contains_rev.
    pose proof (str_split_no_sep sep s) as Hall.
    rewrite Forall_forall in Hall. now apply Hall, list_elem_of_In.
Qed.

Lemma str_split_go_newlines (m : nat) (cur rest : str) :
  str_split_go 10 cur (repeat 10%N (S m) ++ rest)
  = cur :: repeat [] m ++ str_split_go 10 [] rest.
Proof.
  revert cur. induction m as [|m IH]; intros cur; [reflexivity|].
  change (repeat 10%N (S (S m)) ++ rest)
    with (10%N :: (repeat 10%N (S m) ++ rest)).
  cbn [str_split_go N.eqb Pos.eqb]. now rewrite IH.
Qed.

Lemma newline_run_repeat (k run : nat) :
  (0 < k)%nat -> (0 < run)%nat ->
  exists m, newline_run k run = repeat 10%N (S m).
Proof.
  intros Hk Hrun. unfold newline_run. destruct (k <=? run)%nat.
  - now exists 1%nat.
  - destruct run as [|m]; [lia|]. now exists m.
Qed.

Lemma Forall_repeat_nil (P : str -> Prop) (m : nat) :
  P [] -> Forall P (repeat [] m).
Proof. intros H. induction m; now constructor. Qed.

(** The substitution of newline runs only drops empty lines. *)
Lemma re_sub_newlines_lines (P : str -> Prop) (k : nat) (s : str) :
  (0 < k)%nat -> P [] ->
  forall run cur,
    (run <> 0%nat -> P cur) ->
    Forall P (str_split_go 10 (if Nat.eqb run 0 then cur else []) s) ->
    Forall P (str_split_go 10 cur (re_sub_newlines k run s)).
Proof.
  intros Hk Hnil. induction s as [|c r IH]; intros run cur Hcur H;
    cbn [re_sub_newlines].
  - destruct run as [|run].
    + unfold newline_run. destruct (Nat.leb_spec k 0); [lia|]. exact H.
    + destruct (newline_run_repeat k (S run) Hk ltac:(lia)) as (m & ->).
      rewrite <- (app_nil_r (repeat _ _)), str_split_go_newlines.
      constructor; [now apply Hcur|]. apply Forall_app. split.
      * now apply Forall_repeat_nil.
      * now constructor.
  - cbn [str_split_go] in H. destruct (N.eqb_spec c 10) as [-> | Hc].
    + apply IH; [intros _|].
      * destruct run; [|now apply Hcur]. cbn [Nat.eqb] in H.
        now apply Forall_inv in H.
      * cbn [Nat.eqb]. now apply Forall_inv_tail in H.
    + destruct run as [|run].
      * unfold newline_run. destruct (Nat.leb_spec k 0); [lia|].
        cbn [repeat app str_split_go].
        destruct (N.eqb_spec c 10); [congruence|].
        apply IH; [congruence | exact H].
      * destruct (newline_run_repeat k (S run) Hk ltac:(lia)) as (m & ->).
        rewrite str_split_go_newlines.
        constructor; [now apply Hcur|]. apply Forall_app. split.
        -- now apply Forall_repeat_nil.
        -- cbn [str_split_go]. destruct (N.eqb_spec c 10); [congruence|].
           apply IH; [congruence | exact H].
Qed.

Lemma is_space_newline : is_space 10 = true.
Proof. reflexivity. Qed.

(** Stripping a text whose lines are stripped only drops empty lines. *)
Lemma str_lstrip_lines (P : str -> Prop) (z : str) :
  P [] ->
  Forall (fun l => P l /\ (l = [] \/ is_space (hd 0%N l) = false))
         (str_split 10 z) ->
  Forall (fun l => P l /\ (l = [] \/ is_space (hd 0%N l) = false))
         (str_split 10 (str_lstrip z)).
Proof.
  intros Hnil. induction z as [|c r IH]; intros H; [exact H|].
  cbn [str_lstrip]. destruct (is_space c) eqn:Es; [|exact H].
  unfold str_split in H. cbn [str_split_go] in H.
  destruct (N.eqb_spec c 10) as [-> | Hc].
  - apply IH. now apply Forall_inv_tail in H.
  - destruct (str_split_go_first 10 r ([] ++ [c])) as (x & rest & E).
    rewrite E in H. apply Forall_inv in H. destruct H as [_ [H | H]];
      [discriminate|].
    cbn [app hd] in H. congruence.
Qed.

Lemma str_strip_lines (P : str -> Prop) (z : str) :
  P [] ->
  Forall (fun l => P l /\ ends_ok l) (str_split 10 z) ->
  Forall (fun l => P l /\ ends_ok l) (str_split 10 (str_strip z)).
Proof.
  intros Hnil H. unfold str_strip, str_rstrip.
  assert (H1 : Forall (fun l => (P l /\ ends_ok l)
                                /\ (l = [] \/ is_space (hd 0%N l) = false))
                 (str_split 10 (str_lstrip z))).
  { apply (str_lstrip_lines (fun l => P l /\ ends_ok l));
      [split; [exact Hnil | now left]|].
    eapply Forall_impl; [exact H|]. cbn beta. intros l [HP He].
    split; [now split|]. destruct He as [-> | [He _]]; [now left | now right]. }
  set (x := str_lstrip z) in *. clearbody x.
  assert (H2 : Forall (fun l => (P (rev l) /\ ends_ok (rev l))
                                /\ (l = [] \/ is_space (hd 0%N l) = false))
                 (str_split 10 (str_lstrip (rev x)))).
  { apply (str_lstrip_lines (fun l => P (rev l) /\ ends_ok (rev l)));
      [split; [exact Hnil | now left]|].
    rewrite str_split_rev. apply Forall_forall. intros l Hin.
    apply list_elem_of_In, in_rev, in_map_iff in Hin as (l0 & <- & Hin).
    rewrite Forall_forall in H1. apply list_elem_of_In, H1 in Hin.
    destruct Hin as [[HP He] _]. rewrite rev_involutive.
    split; [now split|]. destruct He as [-> | [_ He]]; [now left | now right]. }
  rewrite str_split_rev. apply Forall_forall. intros l Hin.
  apply list_elem_of_In, in_rev, in_map_iff in Hin as (l0 & <- & Hin).
  rewrite Forall_forall in H2. apply list_elem_of_In, H2 in Hin.
  now destruct Hin as [Hin _].
Qed.

(** [splitlines] keeps the characters of the text and no line boundary. *)
Lemma splitlines_go_chars (P : N -> bool) (n : nat) :
  forall s cur,
    (length s <= n)%nat ->
    forallb (fun c => negb (is_linebreak c) && P c) cur = true ->
    forallb P s = true ->
    Forall (fun l => forallb (fun c => negb (is_linebreak c) && P c) l = true)
           (splitlines_go cur s).
Proof.
  induction n as [|n IH]; intros s cur Hlen Hcur Hs.
  - destruct s; [|cbn in Hlen; lia]. cbn [splitlines_go].
    destruct cur; now repeat constructor.
  - destruct s as [|c r]; cbn [splitlines_go].
    { destruct cur; now repeat constructor. }
    cbn [length] in Hlen. cbn [forallb] in Hs.
    apply andb_prop in Hs as [Hc Hr].
    destruct (is_linebreak c) eqn:El.
    + constructor; [exact Hcur|].
      destruct r as [|d r']; [now apply IH; [cbn; lia|..]|].
      cbn [length] in Hlen. cbn [forallb] in Hr.
      destruct ((c =? 13) && (d =? 10))%N.
      * apply andb_prop in Hr as [_ Hr]. now apply IH; [lia|..].
      * now apply IH; [cbn; lia|..].
    + apply IH; [lia | | exact Hr].
      rewrite forallb_app, Hcur. cbn [forallb]. now rewrite El, Hc.
Qed.

Lemma str_splitlines_chars (P : N -> bool) (s : str) :
  forallb P s = true ->
  Forall (fun l => forallb (fun c => negb (is_linebreak c) && P c) l = true)
         (str_splitlines s).
Proof. intros H. now apply (splitlines_go_chars P (length s)). Qed.

(** *** The text of a page *)

Lemma is_stray_space_cases (c : N) :
  is_stray_space c = true ->
  In c [9; 11; 12; 13; 28; 29; 30; 133; 160; 8232; 8233]%N.
Proof.
  unfold is_stray_space. intros H.
  repeat (apply orb_prop in H as [H | H]);
    repeat match goal with
    | H : (_ && _)%bool = true |- _ => apply andb_prop in H as [? ?]
    | H : (_ =? _)%N = true |- _ => apply N.eqb_eq in H
    | H : (_ <=? _)%N = true |- _ => apply N.leb_le in H
    end;
    try (subst c; cbn; tauto).
  - assert (c = 11 \/ c = 12 \/ c = 13)%N as [-> | [-> | ->]] by lia;
      cbn; tauto.
  - assert (c = 28 \/ c = 29 \/ c = 30)%N as [-> | [-> | ->]] by lia;
      cbn; tauto.
Qed.

(** A stray space is white space, and it is a line boundary, a tab or a
    no-break space. *)
Lemma stray_space_props (c : N) :
  is_stray_space c = true ->
  is_space c = true
  /\ negb (is_linebreak c)
     && ((negb (is_blank c) || (c =? 32)%N) && negb (c =? 160)%N) = false.
Proof.
  intros H. apply is_stray_space_cases in H. cbn [In] in H.
  repeat (destruct H as [<- | H]; [now split|]). destruct H.
Qed.

Lemma not_stray_of_line_char (l : str) :
  forallb (fun c => negb (is_linebreak c)
                    && ((negb (is_blank c) || (c =? 32)%N)
                        && negb (c =? 160)%N)) l = true ->
  forallb (fun c => negb (is_stray_space c)) l = true.
Proof.
  apply forallb_impl. intros c Hc. destruct (is_stray_space c) eqn:E;
    [|reflexivity].
  apply stray_space_props in E as [_ E]. congruence.
Qed.

Lemma not_stray_of_not_space (l : str) :
  forallb (fun c => negb (is_space c)) l = true ->
  forallb (fun c => negb (is_stray_space c)) l = true.
Proof.
  apply forallb_impl. intros c Hc. destruct (is_stray_space c) eqn:E;
    [|reflexivity].
  apply stray_space_props in E as [E _]. now rewrite E in Hc.
Qed.

Lemma not_stray_line (l : str) :
  forallb (fun c => negb (is_linebreak c) && negb (is_stray_space c)) l = true ->
  forallb (fun c => negb (is_stray_space c)) l = true.
Proof. apply forallb_impl. intros c Hc. now apply andb_prop in Hc as [_ ?]. Qed.

Lemma str_replace_none (a b : N) (s : str) :
  a <> b -> forallb (fun c => negb (c =? a)%N) (str_replace a b s) = true.
Proof.
  intros Hab. unfold str_replace. induction s as [|c r IH]; [reflexivity|].
  cbn [map forallb]. rewrite IH, andb_true_r.
  destruct (N.eqb_spec c a) as [-> | Hc].
  - apply negb_true_iff, N.eqb_neq. congruence.
  - now apply negb_true_iff, N.eqb_neq.
Qed.

Lemma forallb_and {A} (P Q : A -> bool) (l : list A) :
  forallb (fun x => P x && Q x) l = forallb P l && forallb Q l.
Proof.
  induction l as [|x r IH]; [reflexivity|]. cbn [forallb]. rewrite IH.
  destruct (P x), (Q x), (forallb P r); reflexivity.
Qed.

Lemma kept_line_chars (P : N -> bool) (ln l : str) :
  kept_line ln = Some l -> forallb P ln = true -> forallb P l = true.
Proof.
  unfold kept_line. intros H Hln.
  destruct (negb (nonempty (str_strip ln))); [now injection H as <-|].
  destruct (_ && _); [discriminate|]. destruct (_ <? _); [discriminate|].
  injection H as <-. now apply forallb_strip.
Qed.

Lemma kept_line_fixed (ln l : str) :
  kept_line ln = Some l -> kept_line l = Some l /\ ends_ok l.
Proof.
  intros H. unfold kept_line in H. cbv zeta in H.
  destruct (negb (nonempty (str_strip ln))) eqn:E1.
  { injection H as <-. split; [reflexivity | now left]. }
  match type of H with (if ?b then _ else _) = _ =>
    destruct b eqn:E2; [discriminate|] end.
  match type of H with (if ?b then _ else _) = _ =>
    destruct b eqn:E3; [discriminate|] end.
  injection H as <-. unfold kept_line. cbv zeta.
  rewrite str_strip_idem, E1, E2, E3.
  split; [reflexivity | apply str_strip_ends].
Qed.

Lemma Forall_omap_kept (P : N -> bool) (rows : list str) :
  Forall (fun l => forallb P l = true) rows ->
  Forall (fun l => (kept_line l = Some l /\ forallb P l = true) /\ ends_ok l)
         (omap kept_line rows).
Proof.
  intros H. induction H as [|ln rows Hln _ IH]; [constructor|].
  cbn [omap list_omap]. destruct (kept_line ln) as [l|] eqn:E; [|exact IH].
  constructor; [|exact IH]. destruct (kept_line_fixed _ _ E) as [Hk He].
  split; [split; [exact Hk|]|exact He]. now apply (kept_line_chars P ln).
Qed.

(** The lines of [normalize_visible_text]. *)
Lemma normalize_lines (text : str) :
  Forall (fun l => kept_line l = Some l /\ ends_ok l)
         (str_split 10 (normalize_visible_text text)).
Proof.
  unfold normalize_visible_text. cbv zeta.
  set (t5 := str_strip (re_sub_newlines 2 0 _)). clearbody t5.
  pose proof (Forall_omap_kept (fun c => negb (is_linebreak c) && true)
                (str_splitlines t5)) as Hrows.
  specialize (Hrows (str_splitlines_chars (fun _ => true) t5
                       ltac:(now apply forallb_forall))).
  set (rows := omap kept_line (str_splitlines t5)) in *. clearbody rows.
  assert (Hy : Forall (fun l => kept_line l = Some l /\ ends_ok l)
                 (str_split 10 (str_join [10%N] rows))).
  { destruct rows as [|row rows'] eqn:Er.
    - repeat constructor.
    - rewrite <- Er in *. rewrite str_split_join.
      + eapply Forall_impl; [exact Hrows|]. cbn beta. tauto.
      + now rewrite Er.
      + eapply Forall_impl; [exact Hrows|]. cbn beta.
        intros l [[_ Hl] _]. apply str_contains_false. intros Hin.
        rewrite forallb_forall in Hl. apply list_elem_of_In, Hl in Hin.
        discriminate. }
  apply (str_strip_lines (fun l => kept_line l = Some l)); [reflexivity|].
  apply (re_sub_newlines_lines _ 3); try exact Hy.
  - lia.
  - split; [reflexivity | now left].
  - congruence.
Qed.

Lemma normalize_chars (text : str) :
  forallb (fun c => negb (is_stray_space c)) (normalize_visible_text text)
  = true.
Proof.
  unfold normalize_visible_text. cbv zeta.
  set (t2 := str_replace 160 32 (re_sub_blanks false text)).
  assert (H2 : forallb (fun c => (negb (is_blank c) || (c =? 32)%N)
                                 && negb (c =? 160)%N) t2 = true).
  { rewrite forallb_and. unfold t2.
    rewrite (str_replace_none 160 32) by discriminate.
    rewrite forallb_str_replace; [reflexivity.. |apply re_sub_blanks_none]. }
  clearbody t2.
  set (t3 := re_sub_newlines 3 0 t2).
  assert (H3 : forallb (fun c => (negb (is_blank c) || (c =? 32)%N)
                                 && negb (c =? 160)%N) t3 = true)
    by now apply forallb_re_sub_newlines.
  clearbody t3.
  set (t4 := str_join [10%N] (map str_strip (str_splitlines t3))).
  assert (H4 : forallb (fun c => negb (is_stray_space c)) t4 = true).
  { apply forallb_str_join; [reflexivity|]. apply Forall_forall.
    intros l Hin. apply list_elem_of_In, in_map_iff in Hin as (l0 & <- & Hin).
    apply forallb_strip, not_stray_of_line_char.
    pose proof (str_splitlines_chars _ t3 H3) as Hall.
    rewrite Forall_forall in Hall. now apply Hall, list_elem_of_In. }
  clearbody t4.
  set (t5 := str_strip (re_sub_newlines 2 0 t4)).
  assert (H5 : forallb (fun c => negb (is_stray_space c)) t5 = true)
    by now apply forallb_strip, forallb_re_sub_newlines.
  clearbody t5.
  apply forallb_strip, forallb_re_sub_newlines; [reflexivity|].
  apply forallb_str_join; [reflexivity|]. apply Forall_forall.
  intros l Hin. apply list_elem_of_omap in Hin as (ln & Hin & Hk).
  apply (kept_line_chars _ _ _ Hk), not_stray_line.
  pose proof (str_splitlines_chars _ t5 H5) as Hall.
  rewrite Forall_forall in Hall. now apply Hall.
Qed.

(** The words of [s.split()]. *)
Lemma split_ws_go_words (s : str) :
  forall cur,
    forallb (fun c => negb (is_space c)) cur = true ->
    Forall (fun w => w <> []
                     /\ forallb (fun c => negb (is_space c)) w = true)
           (split_ws_go cur s)
    /\ concat (split_ws_go cur s)
       = cur ++ List.filter (fun c => negb (is_space c)) s.
Proof.
  induction s as [|c r IH]; intros cur Hcur; cbn [split_ws_go List.filter].
  - destruct cur as [|x cur'];
      [now split; [constructor|]|].
    split; [now repeat constructor|]. cbn [concat]. now rewrite !app_nil_r.
  - destruct (is_space c) eqn:Es; cbn [negb].
    + destruct (IH [] eq_refl) as [IH1 IH2]. destruct cur as [|x cur'].
      * now split.
      * split; [now repeat constructor|]. cbn [concat]. now rewrite IH2.
    + destruct (IH (cur ++ [c])) as [IH1 IH2].
      { rewrite forallb_app, Hcur. cbn. now rewrite Es. }
      split; [exact IH1|]. now rewrite IH2, <- app_assoc.
Qed.

Lemma hd_str_join (sep w : str) (rest : list str) :
  w <> [] -> hd 0%N (str_join sep (w :: rest)) = hd 0%N w.
Proof.
  intros Hw. destruct rest as [|m rest]; [reflexivity|].
  rewrite str_join_cons by discriminate. now apply hd_app_nonempty.
Qed.

Lemma joined_words_ends (words : list str) :
  Forall (fun w => w <> []
                   /\ forallb (fun c => negb (is_space c)) w = true) words ->
  ends_ok (str_join [32%N] words).
Proof.
  intros H. destruct words as [|w rest]; [now left|]. right.
  assert (Hhd : forall w : str,
             w <> [] -> forallb (fun c => negb (is_space c)) w = true ->
             is_space (hd 0%N w) = false).
  { intros [|c r] Hne Hw; [congruence|]. cbn [forallb hd] in *.
    apply andb_prop in Hw as [Hc _]. now apply negb_true_iff. }
  split.
  - rewrite hd_str_join; [|now apply Forall_inv in H].
    apply Forall_inv in H. now apply Hhd.
  - rewrite rev_str_join.
    assert (Hr : Forall (fun w => w <> []
                    /\ forallb (fun c => negb (is_space c)) w = true)
                   (rev (map (@rev N) (w :: rest)))).
    { apply Forall_forall. intros l Hin.
      apply list_elem_of_In, in_rev, in_map_iff in Hin as (l0 & <- & Hin).
      rewrite Forall_forall in H. apply list_elem_of_In, H in Hin.
      destruct Hin as [Hne Hl0]. split; [now apply rev_nonempty|].
      now rewrite forallb_rev. }
    destruct (rev (map (@rev N) (w :: rest))) as [|w' rest'] eqn:E.
    { apply (f_equal (@length str)) in E. rewrite length_rev, length_map in E.
      discriminate. }
    rewrite hd_str_join; [|now apply Forall_inv in Hr].
    apply Forall_inv in Hr. now apply Hhd.
Qed.

Lemma str_contains_sub_first (c : N) (tok s : str) :
  str_contains c s = false -> str_contains_sub (c :: tok) s = false.
Proof.
  induction s as [|x r IH]; intros H; [reflexivity|].
  rewrite str_contains_cons in H. apply orb_false_elim in H as [Hx H].
  rewrite str_contains_sub_cons, str_startswith_cons, Hx, IH by exact H.
  reflexivity.
Qed.

Section VisibleText.

Context {parser : HtmlParser}.

(** X15: the text of a page holds no tab, no no-break space and no line
    boundary other than the newline, whether the markup could be parsed or
    the fall-back was taken. *)
Theorem visible_text_has_no_stray_space (document_html base_url text : str) :
  visible_text_from_html document_html base_url = Some text ->
  forallb (fun c => negb (is_stray_space c)) text = true.
Proof.
  unfold visible_text_from_html.
  destruct (html_fromstring document_html base_url) as [root|].
  - destruct (visible_content root) as [content|]; [|discriminate].
    intros H. injection H as <-. apply normalize_chars.
  - intros H. injection H as <-.
    apply forallb_str_join; [reflexivity|].
    destruct (split_ws_go_words document_html [] eq_refl) as [Hw _].
    eapply Forall_impl; [exact Hw|]. cbn beta. intros w [_ Hc].
    now apply not_stray_of_not_space.
Qed.

Lemma visible_text_trimmed (document_html base_url text : str) :
  visible_text_from_html document_html base_url = Some text ->
  str_strip text = text
  /\ str_contains_sub [10%N; 10%N; 10%N] text = false.
Proof.
  unfold visible_text_from_html.
  destruct (html_fromstring document_html base_url) as [root|].
  - destruct (visible_content root) as [content|]; [|discriminate].
    intros H. injection H as <-. unfold normalize_visible_text. cbv zeta.
    split; [apply str_strip_idem|].
    apply str_contains_sub_strip, re_sub_newlines_no_triple.
  - intros H. injection H as <-.
    destruct (split_ws_go_words document_html [] eq_refl) as [Hw _].
    fold (str_split_ws document_html) in Hw.
    split; [now apply str_strip_fixed, joined_words_ends|].
    apply str_contains_sub_first, str_contains_false. intros Hin.
    assert (Hall : forallb (fun c => negb (is_space c) || (c =? 32)%N)
                     (str_join (py " ") (str_split_ws document_html))
                   = true).
    { apply forallb_str_join; [reflexivity|].
      eapply Forall_impl; [exact Hw|]. cbn beta. intros w [_ Hc].
      revert Hc. apply forallb_impl. intros c ->. reflexivity. }
    rewrite forallb_forall in Hall. apply list_elem_of_In, Hall in Hin.
    discriminate.
Qed.

(** X16: the text of a page is stripped and holds no run of three
    newlines: white space neither starts nor ends it, and its blocks are
    separated by one blank line at most. *)
Theorem visible_text_is_trimmed (document_html base_url text : str) :
  visible_text_from_html document_html base_url = Some text ->
  str_strip text = text
  /\ str_contains_sub [10%N; 10%N; 10%N] text = false.
Proof. apply visible_text_trimmed. Qed.

(** X17: the lines of the text of a parsed page.  Every line is stripped,
    holds at most four of the characters [{], [}] and [;] in total, and,
    when it has more than 300 characters, none of the words [:hover],
    [:root], [@media], [function(] and [var ]. *)
Theorem visible_text_lines_pass_filter (document_html base_url text : str)
    (root : html_tree) :
  html_fromstring document_html base_url = Some root ->
  visible_text_from_html document_html base_url = Some text ->
  Forall (fun l =>
            str_strip l = l
            /\ str_count 123 l + str_count 125 l + str_count 59 l <= 4
            /\ (300 < len l ->
                Forall (fun tok => str_contains_sub tok l = false) css_tokens))
         (str_split 10 text).
Proof.
  unfold visible_text_from_html. intros ->.
  destruct (visible_content root) as [content|]; [|discriminate].
  intros H. injection H as <-.
  eapply Forall_impl; [apply normalize_lines|]. cbn beta.
  intros l [Hk He]. pose proof (str_strip_fixed _ He) as Hs.
  split; [exact Hs|]. unfold kept_line in Hk. rewrite Hs in Hk.
  destruct l as [|c r]; [split; [discriminate | intros Hl; discriminate Hl]|].
  cbn [nonempty negb] in Hk.
  destruct (300 <? len (c :: r)) eqn:E1; cbn [andb] in Hk.
  - destruct (existsb _ css_tokens) eqn:E2; [discriminate|].
    destruct (4 <? _) eqn:E3; [discriminate|]. apply Z.ltb_ge in E3.
    split; [exact E3|]. intros _. apply Forall_forall. intros tok Hin.
    destruct (str_contains_sub tok (c :: r)) eqn:E4; [|reflexivity].
    assert (existsb (fun tok => str_contains_sub tok (c :: r)) css_tokens
            = true); [|congruence].
    apply existsb_exists. exists tok. split; [|exact E4].
    now apply list_elem_of_In.
  - destruct (4 <? _) eqn:E3; [discriminate|]. apply Z.ltb_ge in E3.
    split; [exact E3|]. apply Z.ltb_ge in E1. lia.
Qed.

(** X18: the fall-back text.  When the markup cannot be parsed, the text is
    the words of the markup joined by single spaces: no character other
    than white space is lost, no word is empty or holds white space, and
    splitting the text at its spaces gives the words back. *)
Theorem visible_text_fallback_words (document_html base_url : str) :
  html_fromstring document_html base_url = None ->
  let words := str_split_ws document_html in
  visible_text_from_html document_html base_url
  = Some (str_join (py " ") words)
  /\ Forall (fun w => w <> []
                      /\ forallb (fun c => negb (is_space c)) w = true) words
  /\ concat words = List.filter (fun c => negb (is_space c)) document_html
  /\ (words <> [] -> str_split 32 (str_join (py " ") words) = words).
Proof.
  intros Hp. cbv zeta. unfold visible_text_from_html. rewrite Hp.
  destruct (split_ws_go_words document_html [] eq_refl) as [Hw Hc].
  split; [reflexivity|]. split; [exact Hw|]. split; [exact Hc|].
  intros Hne. apply str_split_join; [exact Hne|].
  eapply Forall_impl; [exact Hw|]. cbn beta. intros w [_ Hs].
  apply str_contains_false. intros Hin.
  rewrite forallb_forall in Hs. apply list_elem_of_In, Hs in Hin.
  discriminate.
Qed.

End VisibleText.

Lemma splitlines_chars_only (P : N -> bool) (s : str) :
  forallb P s = true ->
  Forall (fun l => forallb P l = true) (str_splitlines s).
Proof.
  intros H. eapply Forall_impl; [apply (str_splitlines_chars P s H)|].
  cbn beta. intros l. rewrite forallb_and. intros Hl.
  now apply andb_prop in Hl as [_ ?].
Qed.

(** Every character of the normalised text is a character of the text, a
    space or a newline. *)
Lemma normalize_adds_nothing (text : str) :
  forallb (fun c => str_contains c text || (c =? 32)%N || (c =? 10)%N)
          (normalize_visible_text text) = true.
Proof.
  set (P := fun c => str_contains c text || (c =? 32)%N || (c =? 10)%N).
  assert (H0 : forallb P text = true).
  { apply forallb_forall. intros c Hin. unfold P.
    assert (Hc : str_contains c text = true).
    { destruct (str_contains c text) eqn:E; [reflexivity|].
      apply str_contains_false in E. now apply list_elem_of_In in Hin. }
    now rewrite Hc. }
  assert (H32 : P 32%N = true) by (unfold P; now rewrite orb_true_r).
  assert (H10 : P 10%N = true) by (unfold P; now rewrite orb_true_r).
  unfold normalize_visible_text. cbv zeta.
  set (t3 := re_sub_newlines 3 0
               (str_replace 160 32 (re_sub_blanks false text))).
  assert (H3 : forallb P t3 = true).
  { apply forallb_re_sub_newlines; [exact H10|].
    apply forallb_str_replace; [exact H32|].
    now apply forallb_re_sub_blanks. }
  clearbody t3.
  set (t5 := str_strip (re_sub_newlines 2 0 _)).
  assert (H5 : forallb P t5 = true).
  { apply forallb_strip, forallb_re_sub_newlines; [exact H10|].
    apply forallb_str_join; [cbn; now rewrite H10|]. apply Forall_forall.
    intros l Hin. apply list_elem_of_In, in_map_iff in Hin as (l0 & <- & Hin).
    apply forallb_strip.
    pose proof (splitlines_chars_only P t3 H3) as Hall.
    rewrite Forall_forall in Hall. now apply Hall, list_elem_of_In. }
  clearbody t5.
  apply forallb_strip, forallb_re_sub_newlines; [exact H10|].
  apply forallb_str_join; [cbn; now rewrite H10|]. apply Forall_forall.
  intros l Hin. apply list_elem_of_omap in Hin as (ln & Hin & Hk).
  apply (kept_line_chars _ _ _ Hk).
  pose proof (splitlines_chars_only P t5 H5) as Hall.
  rewrite Forall_forall in Hall. now apply Hall.
Qed.

Section VisibleTextSource.

Context {parser : HtmlParser}.

(** X19: the text of a page invents nothing.  Every character of the text
    is a space, a newline, or a character of what it was made from: the
    text content of the tree on the parsed path, the markup itself on the
    fall-back path. *)
Theorem visible_text_adds_no_characters (document_html base_url text : str) :
  visible_text_from_html document_html base_url = Some text ->
  exists source,
    match html_fromstring document_html base_url with
    | Some root => visible_content root = Some source
    | None => source = document_html
    end
    /\ forallb (fun c => str_contains c source || (c =? 32)%N || (c =? 10)%N)
               text = true.
Proof.
  unfold visible_text_from_html.
  destruct (html_fromstring document_html base_url) as [root|].
  - destruct (visible_content root) as [content|]; [|discriminate].
    intros H. injection H as <-. exists content.
    split; [reflexivity | apply normalize_adds_nothing].
  - intros H. injection H as <-. exists document_html.
    split; [reflexivity|].
    destruct (split_ws_go_words document_html [] eq_refl) as [_ Hc].
    fold (str_split_ws document_html) in Hc.
    apply forallb_str_join; [cbn; now rewrite orb_true_r|].
    apply Forall_forall. intros w Hw. apply forallb_forall. intros c Hin.
    assert (Hd : In c (concat (str_split_ws document_html))).
    { apply in_concat. exists w. split; [now apply list_elem_of_In | exact Hin]. }
    rewrite Hc in Hd. apply filter_In in Hd as [Hd _].
    assert (Hs : str_contains c document_html = true).
    { destruct (str_contains c document_html) eqn:E; [reflexivity|].
      apply str_contains_false in E. now apply list_elem_of_In in Hd. }
    now rewrite Hs.
Qed.

End VisibleTextSource.

(** *** The error document *)

Lemma re_split_go_prefix (a : str) :
  str_contains 10 a = false ->
  forall cur rest, re_split_go 0 cur (a ++ rest) = re_split_go 0 (cur ++ a) rest.
Proof.
  induction a as [|c r IH]; intros H cur rest; [now rewrite app_nil_r|].
  rewrite str_contains_cons in H. apply orb_false_elim in H as [Hc H].
  cbn [app re_split_go]. rewrite N.eqb_sym, Hc, (IH H).
  now rewrite <- app_assoc.
Qed.

(** Two blocks without newlines, separated by one blank line, are the two
    paragraphs of their text. *)
Lemma re_split_blank_two (a b : str) :
  str_contains 10 a = false -> str_contains 10 b = false ->
  b = [] \/ is_space (hd 0%N b) = false ->
  re_split_blank (a ++ [10%N; 10%N] ++ b) = [a; b].
Proof.
  intros Ha Hb Hhead. unfold re_split_blank.
  rewrite (re_split_go_prefix a Ha). cbn [app re_split_go N.eqb Pos.eqb].
  assert (Hsep : blank_sep_len (10%N :: b) = Some 1%nat).
  { cbn [blank_sep_len]. rewrite is_space_newline.
    destruct b as [|c r]; [reflexivity|]. cbn [blank_sep_len].
    destruct Hhead as [Hhead | Hhead]; [discriminate|]. cbn [hd] in Hhead.
    now rewrite Hhead. }
  rewrite Hsep. cbn [re_split_go]. now rewrite (re_split_go_plain b Hb).
Qed.

Lemma ends_ok_app (a b : str) :
  a <> [] -> b <> [] -> is_space (hd 0%N a) = false ->
  is_space (hd 0%N (rev b)) = false -> ends_ok (a ++ b).
Proof.
  intros Ha Hb H1 H2. right. split.
  - now rewrite hd_app_nonempty.
  - rewrite rev_app_distr, hd_app_nonempty; [exact H2|].
    now apply rev_nonempty.
Qed.

Lemma body_pieces_short (paras : list str) :
  Forall (fun p => p <> [] /\ ends_ok p /\ len p <= chunk_size) paras ->
  body_pieces paras = Some paras.
Proof.
  intros H. induction H as [|p paras (Hne & He & Hlen) _ IH]; [reflexivity|].
  cbn [body_pieces]. rewrite (str_strip_fixed p He).
  destruct p as [|c r]; [congruence|].
  change (length (c :: r)) with (S (length r)).
  rewrite chunk_while_short by (congruence || exact Hlen).
  cbn [mbind option_bind]. now rewrite IH.
Qed.

Section ErrorDocument.

Context {nc : NetlocCheck} {world : World}.

(** X20: the error document of the start URL.  For a start URL without
    white space and a failure description of one line, both short enough
    to need no cut, the document has the title [(Fetch error)], the URL,
    the heading [Page Text], and two paragraphs: [Failed to fetch] with the
    URL, and the failure description.  It is written under the file name
    of the start URL when the layout engine builds it, and the file system
    is unchanged otherwise. *)
Theorem error_document_story (start_url outdir failure_repr filename : str)
    (fs : fsys) :
  sanitize_filename_from_url start_url = Some filename ->
  start_url <> [] ->
  forallb (fun c => negb (is_space c)) start_url = true ->
  len start_url <= 1584 ->
  failure_repr <> [] -> ends_ok failure_repr ->
  str_contains 10 failure_repr = false ->
  len failure_repr <= chunk_size ->
  let doc :=
    mkPdf (py "(Fetch error)")
      [Paragraph (py "(Fetch error)") h1; Paragraph start_url normal;
       Spacer 15; Spacer 10; Paragraph (py "Page Text") h2;
       Paragraph (py "Failed to fetch " ++ start_url) normal; Spacer 5;
       Paragraph failure_repr normal; Spacer 5] in
  let path := path_join outdir filename in
  errback_first start_url outdir failure_repr fs
  = Some (if build_ok path doc then write_file path (PdfFile doc) fs else fs).
Proof.
  intros Hname Hu Hws Hlen Hr He Hnl Hrlen. cbv zeta.
  unfold errback_first. rewrite Hname.
  match goal with |- context [try_make_pdf ?a ?b ?c] =>
    destruct (try_make_pdf_spec a b c) as (story & Hs & ->) end.
  assert (Hlast : is_space (hd 0%N (rev start_url)) = false).
  { assert (Hrev : forallb (fun c => negb (is_space c)) (rev start_url) = true)
      by now rewrite forallb_rev.
    destruct (rev start_url) as [|c r] eqn:E.
    - exfalso. apply Hu. apply (f_equal (@rev N)) in E.
      now rewrite rev_involutive in E.
    - cbn [forallb hd] in *. apply andb_prop in Hrev as [Hc _].
      now apply negb_true_iff. }
  assert (Hunl : str_contains 10 start_url = false).
  { apply str_contains_false. intros Hin. rewrite forallb_forall in Hws.
    apply list_elem_of_In, Hws in Hin. discriminate. }
  set (first := py "Failed to fetch " ++ start_url) in *.
  assert (Hfirst : first <> [] /\ ends_ok first /\ len first <= chunk_size).
  { split; [discriminate|]. split.
    - apply ends_ok_app; [discriminate | exact Hu | reflexivity | exact Hlast].
    - unfold first, len, chunk_size in *. rewrite length_app.
      change (length (py "Failed to fetch ")) with 16%nat. lia. }
  assert (Htext : str_strip (first ++ [10%N; 10%N] ++ failure_repr)
                  = first ++ [10%N; 10%N] ++ failure_repr).
  { apply str_strip_fixed. right. split; [reflexivity|].
    rewrite !rev_app_distr, <- app_assoc.
    rewrite hd_app_nonempty by now apply rev_nonempty.
    destruct He as [He | [_ He]]; [congruence | exact He]. }
  assert (Hstory : story
                   = [Paragraph (py "(Fetch error)") h1;
                      Paragraph start_url normal; Spacer 15; Spacer 10;
                      Paragraph (py "Page Text") h2;
                      Paragraph first normal; Spacer 5;
                      Paragraph failure_repr normal; Spacer 5]).
  { assert (Hp : body_pieces [first; failure_repr]
                  = Some [first; failure_repr]).
    { apply body_pieces_short. constructor; [exact Hfirst|].
      constructor; [|constructor].
      split; [exact Hr|]. split; [exact He | exact Hrlen]. }
    assert (Hn : nonempty (first ++ [10%N; 10%N] ++ failure_repr) = true)
      by reflexivity.
    unfold story_of in Hs. cbn [pl_text pl_title pl_url] in Hs.
    change (py "Failed to fetch " ++ start_url ++ [10%N; 10%N] ++ failure_repr)
      with (first ++ [10%N; 10%N] ++ failure_repr) in Hs.
    unfold body_paragraphs in Hs. rewrite Hn, Htext in Hs.
    rewrite re_split_blank_two in Hs.
    - cbn [length Nat.ltb Nat.leb] in Hs. rewrite Hp in Hs.
      cbn [mbind option_bind flat_map app] in Hs.
      now injection Hs as <-.
    - unfold first. rewrite str_contains_app, Hunl. reflexivity.
    - exact Hnl.
    - destruct He as [He | [He _]]; [now left | now right]. }
  subst story. reflexivity.
Qed.

End ErrorDocument.

(** *** Qualified table names *)

(** X21: a qualified name is cut at its first dot, so that schema, dot and
    table spell the name again and the schema holds no dot; a name without
    a dot is a table of the schema [public]; and a schema without a dot
    joined to any table name by a dot is split into the two again. *)
Theorem split_table_round_trip (qualified : str) :
  (str_contains 46 qualified = true ->
   let '(s, t) := _split_table qualified in
   s ++ py "." ++ t = qualified /\ str_contains 46 s = false)
  /\ (str_contains 46 qualified = false ->
      _split_table qualified = (py "public", qualified))
  /\ (forall s t, str_contains 46 s = false ->
                  _split_table (s ++ py "." ++ t) = (s, t)).
Proof.
  unfold _split_table. split; [|split].
  - intros H. rewrite H.
    destruct (str_partition 46 qualified) as [[s found] t] eqn:E.
    destruct (str_partition_spec _ _ _ _ _ E) as [Hs Hq].
    split; [|exact Hs]. destruct found; [now symmetry|].
    destruct Hq as [-> _]. congruence.
  - now intros ->.
  - intros s t Hs. change (py "." ++ t) with (46%N :: t).
    rewrite str_contains_app, str_contains_cons, N.eqb_refl, orb_true_r.
    now rewrite (str_partition_app 46 s t Hs).
Qed.

(** *** Termination of a crawl with a depth limit *)

Section CrawlTerminates.

Context {nc : NetlocCheck} {world : World}.

Lemma handle_request_hrefs (start_url outdir : str) (request : Request)
    (fs : fsys) :
  exists fs',
    handle_request start_url outdir request fs
    = Some (hrefs_of (q_url request), fs').
Proof.
  unfold handle_request, hrefs_of.
  destruct (fetch (q_url request)) as [response | repr].
  - destruct (parse_total outdir response fs) as (fs' & E & _). eauto.
  - destruct (q_errback request).
    + destruct (errback_first_total start_url outdir repr fs) as (fs' & -> & _).
      cbn. eauto.
    + cbn. eauto.
Qed.

(** The scheduler keeps some of the links, in their order. *)
Lemma schedule_sublist (maxdepth : Z) (allowed : gset str) (depth : Z)
    (hrefs : list str) :
  forall seen,
    sublist (map q_url (schedule maxdepth allowed depth hrefs seen).1) hrefs.
Proof.
  induction hrefs as [|href rest IH]; intros seen; cbn [schedule].
  - constructor.
  - destruct (_ && _ && _).
    + specialize (IH ({[href]} ∪ seen)).
      destruct (schedule maxdepth allowed depth rest ({[href]} ∪ seen))
        as [rs seen'].
      cbn [fst map q_url] in *. now constructor.
    + constructor. apply IH.
Qed.

Lemma list_sum_cons_eq (a : nat) (l : list nat) :
  list_sum (a :: l) = (a + list_sum l)%nat.
Proof. reflexivity. Qed.

Lemma list_sum_sublist (f : str -> nat) (l k : list str) :
  sublist l k -> (list_sum (map f l) <= list_sum (map f k))%nat.
Proof.
  induction 1 as [|x l k _ IH | x l k _ IH]; cbn [map];
    rewrite ?list_sum_cons_eq; lia.
Qed.

Lemma queue_bound_app (maxdepth : Z) (a b : list Request) :
  queue_bound maxdepth (a ++ b)
  = (queue_bound maxdepth a + queue_bound maxdepth b)%nat.
Proof. unfold queue_bound. now rewrite map_app, list_sum_app. Qed.

Lemma requests_bound_pos (levels : nat) (url : str) :
  (1 <= requests_bound levels url)%nat.
Proof. destruct levels; cbn [requests_bound]; lia. Qed.

(** The requests scheduled from a request cost less than the request. *)
Lemma schedule_bound (maxdepth : Z) (allowed : gset str) (request : Request)
    (seen : gset str) :
  maxdepth <> 0 ->
  (S (queue_bound maxdepth
        (schedule maxdepth allowed (q_depth request)
                  (hrefs_of (q_url request)) seen).1)
   <= requests_bound (Z.to_nat (maxdepth - q_depth request)) (q_url request))%nat.
Proof.
  intros Hm.
  destruct (@schedule_spec nc maxdepth allowed (q_depth request)
              (hrefs_of (q_url request)) seen) as (Hall & _ & _ & Hstop).
  cbv zeta in *.
  pose proof (schedule_sublist maxdepth allowed (q_depth request)
                (hrefs_of (q_url request)) seen) as Hsub.
  set (new := (schedule maxdepth allowed (q_depth request)
                 (hrefs_of (q_url request)) seen).1) in *.
  destruct (Z_le_gt_dec maxdepth (q_depth request)) as [Hle | Hgt].
  - rewrite (Hstop Hm Hle). apply requests_bound_pos.
  - assert (El : Z.to_nat (maxdepth - q_depth request)
                 = S (Z.to_nat (maxdepth - (q_depth request + 1)))) by lia.
    rewrite El. cbn [requests_bound]. apply le_n_S.
    etransitivity;
      [|apply (list_sum_sublist _ _ _ Hsub)].
    unfold queue_bound. rewrite map_map.
    apply Nat.eq_le_incl. f_equal. apply map_ext_Forall.
    eapply Forall_impl; [exact Hall|]. cbn beta.
    intros r (_ & _ & -> & _). reflexivity.
Qed.

Lemma crawl_loop_terminates (start_url outdir : str) (maxdepth : Z)
    (allowed : gset str) :
  maxdepth <> 0 ->
  forall fuel queue seen fs,
    (queue_bound maxdepth queue <= fuel)%nat ->
    is_Some (crawl_loop fuel start_url outdir maxdepth allowed queue seen fs).
Proof.
  intros Hm. induction fuel as [|fuel IH]; intros queue seen fs Hb;
    destruct queue as [|request queue']; cbn [crawl_loop]; eauto.
  - unfold queue_bound in Hb. cbn [map] in Hb. rewrite list_sum_cons_eq in Hb.
    pose proof (requests_bound_pos (Z.to_nat (maxdepth - q_depth request))
                  (q_url request)). lia.
  - destruct (handle_request_hrefs start_url outdir request fs) as (fs' & ->).
    cbn [mbind option_bind].
    pose proof (schedule_bound maxdepth allowed request seen Hm) as Hs.
    destruct (schedule maxdepth allowed (q_depth request)
                (hrefs_of (q_url request)) seen) as [new seen'].
    cbn [fst] in Hs. apply IH. rewrite queue_bound_app.
    unfold queue_bound in Hb. cbn [map] in Hb. rewrite list_sum_cons_eq in Hb.
    fold (queue_bound maxdepth queue') in Hb. lia.
Qed.

(** X22: with a depth limit other than 0 the crawl ends, whatever the site.
    The requests that the start URL leads to within the limit bound the
    steps of the engine; with that much fuel, or more, the crawl returns or
    raises, and the endpoint answers. *)
Theorem crawl_terminates_with_depth_limit (start_url : str) (d : Z)
    (fuel : nat) :
  d <> 0 ->
  (requests_bound (Z.to_nat d) start_url <= fuel)%nat ->
  (forall outdir fs,
      exists r, crawl_to_pdfs fuel start_url d outdir fs = Some r)
  /\ (forall workdir fs,
         exists answer fs',
           scrape fuel workdir (mkCrawlRequest start_url d) fs
           = Some (answer, fs')).
Proof.
  intros Hd Hfuel.
  assert (Hcrawl : forall outdir fs,
             exists r, crawl_to_pdfs fuel start_url d outdir fs = Some r).
  { intros outdir fs. unfold crawl_to_pdfs.
    destruct (same_site_allowed_domains start_url) as [allowed|]; [|eauto].
    destruct engine_fault; [eauto|].
    destruct (crawl_loop_terminates start_url outdir d allowed Hd fuel
                [start_request start_url] ∅ fs) as [fs' ->]; [|cbn; eauto].
    unfold queue_bound. cbn [map start_request q_depth q_url].
    rewrite list_sum_cons_eq, Z.sub_0_r. cbn [list_sum fold_right]. lia. }
  split; [exact Hcrawl|]. intros workdir fs. unfold scrape.
  cbn [url depth].
  destruct (Hcrawl (path_join workdir (py "pdfs"))
              (make_dir (path_join workdir (py "pdfs")) (make_dir workdir fs)))
    as [r ->].
  cbn [mbind option_bind]. destruct r as [fs1 | e]; [|eauto].
  destruct (List.filter is_pdf_name _); eauto.
Qed.

End CrawlTerminates.

(** *** From the text of a page to the paragraphs of its document *)

Lemma re_split_go_nonempty (s : str) :
  forall skip cur, re_split_go skip cur s <> [].
Proof.
  induction s as [|c r IH]; intros skip cur; [discriminate|].
  cbn [re_split_go]. destruct skip; [|apply IH].
  destruct (N.eqb c 10); [|apply IH].
  destruct (blank_sep_len r); [discriminate | apply IH].
Qed.

Lemma blank_sep_len_none (s : str) :
  s = [] \/ is_space (hd 0%N s) = false -> blank_sep_len s = None.
Proof.
  destruct s as [|c r]; [reflexivity|]. intros [H | H]; [discriminate|].
  cbn [hd] in H. cbn [blank_sep_len]. now rewrite H.
Qed.

Lemma wf_lines_head (lines : list str) :
  wf_lines lines ->
  str_join [10%N] lines <> []
  /\ is_space (hd 0%N (str_join [10%N] lines)) = false.
Proof.
  destruct lines as [|l rest]; [contradiction|]. cbn [wf_lines].
  intros (Hne & He & _). rewrite hd_str_join by exact Hne.
  split.
  - destruct rest; [exact Hne|]. rewrite str_join_cons by discriminate.
    destruct l; [congruence | discriminate].
  - destruct He as [He | [He _]]; [congruence | exact He].
Qed.

(** The paragraphs of a text of well-formed lines are its blocks: the
    separator is always one empty line. *)
Lemma re_split_go_lines (n : nat) :
  forall lines cur,
    (length lines <= n)%nat -> wf_lines lines ->
    cur = [] \/ is_space (hd 0%N cur) = false ->
    str_join [10%N; 10%N] (re_split_go 0 cur (str_join [10%N] lines))
    = cur ++ str_join [10%N] lines
    /\ Forall (fun p => p <> [] /\ ends_ok p)
              (re_split_go 0 cur (str_join [10%N] lines)).
Proof.
  induction n as [|n IH]; intros lines cur Hlen Hwf Hcur.
  { destruct lines; [contradiction | cbn in Hlen; lia]. }
  destruct lines as [|l rest]; [contradiction|].
  cbn [wf_lines] in Hwf. destruct Hwf as (Hne & He & Hnl & Hrest).
  cbn [length] in Hlen.
  assert (Hhead : cur ++ l <> []
                  /\ is_space (hd 0%N (cur ++ l)) = false).
  { split; [destruct cur, l; congruence || discriminate|].
    destruct Hcur as [-> | Hcur].
    - destruct He as [He | [He _]]; [congruence | exact He].
    - destruct cur; [destruct He as [He | [He _]]; [congruence | exact He]|].
      exact Hcur. }
  assert (Hlast : is_space (hd 0%N (rev (cur ++ l))) = false).
  { rewrite rev_app_distr, hd_app_nonempty by now apply rev_nonempty.
    destruct He as [He | [_ He]]; [congruence | exact He]. }
  destruct rest as [|l2 rest'].
  - (* one line *)
    cbn [str_join]. rewrite (re_split_go_plain l Hnl). cbn [str_join].
    split; [reflexivity|]. constructor; [|constructor].
    split; [apply Hhead|]. right. split; [apply Hhead | exact Hlast].
  - rewrite str_join_cons by discriminate. cbn [app].
    rewrite (re_split_go_prefix l Hnl).
    destruct l2 as [|c2 r2].
    + (* an empty line: the paragraph ends *)
      destruct rest' as [|l3 rest'']; [contradiction|].
      rewrite str_join_cons by discriminate. cbn [app].
      destruct (wf_lines_head _ Hrest) as [Hj Hjh].
      cbn [re_split_go N.eqb Pos.eqb]. cbn [blank_sep_len].
      rewrite is_space_newline, blank_sep_len_none by now right.
      cbn [N.eqb Pos.eqb re_split_go].
      destruct (IH (l3 :: rest'') [] ltac:(cbn [length] in *; lia) Hrest
                  ltac:(now left)) as [IH1 IH2].
      split.
      * rewrite str_join_cons by apply re_split_go_nonempty.
        rewrite IH1. cbn [app]. now rewrite <- !app_assoc.
      * constructor; [|exact IH2].
        split; [apply Hhead|]. right. split; [apply Hhead | exact Hlast].
    + (* the paragraph goes on *)
      destruct (wf_lines_head _ Hrest) as [Hj Hjh].
      cbn [re_split_go N.eqb Pos.eqb].
      rewrite blank_sep_len_none by now right.
      destruct (IH ((c2 :: r2) :: rest') ((cur ++ l) ++ [10%N])
                  ltac:(cbn [length] in *; lia) Hrest) as [IH1 IH2].
      { right. rewrite hd_app_nonempty by apply Hhead. apply Hhead. }
      split; [|exact IH2]. rewrite IH1. now rewrite <- !app_assoc.
Qed.

Lemma str_contains_sub_triple_lines (l : str) (rest : list str) :
  str_contains_sub [10%N; 10%N; 10%N]
    (str_join [10%N] (l :: [] :: [] :: rest)) = false ->
  rest = [].
Proof.
  intros H. destruct rest as [|l3 rest']; [reflexivity|]. exfalso.
  rewrite !str_join_cons in H by discriminate. cbn [app] in H.
  rewrite (str_contains_sub_app_l _ l) in H; [discriminate|].
  reflexivity.
Qed.

Lemma last_cons_cons {A} (x y : A) (l : list A) (d : A) :
  List.last (x :: y :: l) d = List.last (y :: l) d.
Proof. reflexivity. Qed.

(** Lines of a stripped text without a run of three newlines. *)
Lemma wf_lines_of_text (lines : list str) :
  Forall (fun l => ends_ok l /\ str_contains 10 l = false) lines ->
  hd [] lines <> [] -> List.last lines [] <> [] ->
  str_contains_sub [10%N; 10%N; 10%N] (str_join [10%N] lines) = false ->
  wf_lines lines.
Proof.
  remember (length lines) as n eqn:Hn. revert lines Hn.
  induction n as [n IH] using lt_wf_ind. intros lines Hn Hall Hhd Hlast Hno.
  destruct lines as [|l rest]; [now cbn in Hhd|].
  cbn [hd] in Hhd. cbn [wf_lines].
  pose proof (Forall_inv Hall) as [He Hnl].
  split; [exact Hhd|]. split; [exact He|]. split; [exact Hnl|].
  destruct rest as [|l2 rest']; [exact I|].
  assert (Hno2 : str_contains_sub [10%N; 10%N; 10%N]
                   (str_join [10%N] (l2 :: rest')) = false).
  { destruct (str_contains_sub _ (str_join [10%N] (l2 :: rest'))) eqn:E;
      [|reflexivity].
    rewrite str_join_cons in Hno by discriminate.
    rewrite (str_contains_sub_app_l _ l) in Hno; [discriminate|].
    now apply str_contains_sub_app_l. }
  rewrite last_cons_cons in Hlast.
  destruct l2 as [|c2 r2].
  - destruct rest' as [|l3 rest'']; [now cbn in Hlast|].
    rewrite last_cons_cons in Hlast.
    assert (Hno3 : str_contains_sub [10%N; 10%N; 10%N]
                     (str_join [10%N] (l3 :: rest'')) = false).
    { destruct (str_contains_sub _ (str_join [10%N] (l3 :: rest''))) eqn:E;
        [|reflexivity].
      rewrite str_join_cons in Hno2 by discriminate.
      rewrite (str_contains_sub_app_l _ []) in Hno2; [discriminate|].
      now apply str_contains_sub_app_l. }
    apply (IH (length (l3 :: rest''))); try assumption.
    + subst n. cbn [length]. lia.
    + reflexivity.
    + now do 2 apply Forall_inv_tail in Hall.
    + destruct l3 as [|c3 r3]; [|discriminate]. cbn [hd].
      apply str_contains_sub_triple_lines in Hno. subst rest''.
      now cbn in Hlast.
  - apply (IH (length ((c2 :: r2) :: rest'))); try assumption.
    + subst n. cbn [length]. lia.
    + reflexivity.
    + now apply Forall_inv_tail in Hall.
    + discriminate.
Qed.

Lemma ends_ok_first_line (t : str) :
  t <> [] -> ends_ok t -> hd [] (str_split 10 t) <> [].
Proof.
  intros Hne [He | [He _]]; [congruence|].
  destruct t as [|c r]; [congruence|]. cbn [hd] in He.
  unfold str_split. cbn [str_split_go].
  destruct (N.eqb_spec c 10) as [-> | _]; [discriminate|].
  destruct (str_split_go_first 10 r ([] ++ [c])) as (x & rest & ->).
  discriminate.
Qed.

Lemma last_rev_hd (lines : list str) :
  List.last lines [] = hd [] (rev lines).
Proof.
  induction lines as [|l rest IH]; [reflexivity|].
  destruct rest as [|m rest']; [reflexivity|].
  rewrite last_cons_cons, IH. cbn [rev].
  destruct (rev rest' ++ [m]) eqn:E; [|reflexivity].
  apply app_eq_nil in E as [_ E]. discriminate.
Qed.

Lemma ends_ok_last_line (t : str) :
  t <> [] -> ends_ok t -> List.last (str_split 10 t) [] <> [].
Proof.
  intros Hne He. rewrite last_rev_hd.
  pose proof (ends_ok_first_line (rev t) (rev_nonempty _ Hne)
                (ends_ok_rev _ He)) as H.
  rewrite str_split_rev, <- map_rev in H. intros E. apply H.
  destruct (rev (str_split 10 t)) as [|l rest]; [reflexivity|].
  cbn [hd] in E. subst l. reflexivity.
Qed.

(** The paragraphs of a stripped text whose lines are stripped and which
    has no run of three newlines. *)
Lemma body_paragraphs_of_clean_text (t : str) :
  ends_ok t -> Forall ends_ok (str_split 10 t) ->
  str_contains_sub [10%N; 10%N; 10%N] t = false ->
  str_join [10%N; 10%N] (body_paragraphs t) = t
  /\ Forall (fun p => str_strip p = p /\ (t <> [] -> p <> []))
            (body_paragraphs t).
Proof.
  intros He Hlines Hno. unfold body_paragraphs.
  rewrite (str_strip_fixed t He).
  destruct t as [|c r] eqn:Et.
  { cbn. split; [reflexivity|]. now repeat constructor. }
  rewrite <- Et in *. assert (Hne : t <> []) by (rewrite Et; discriminate).
  clear Et c r.
  assert (Hwf : wf_lines (str_split 10 t)).
  { apply wf_lines_of_text.
    - pose proof (str_split_no_sep 10 t) as Hns.
      rewrite Forall_forall in Hlines, Hns. apply Forall_forall.
      intros l Hin. split; [now apply Hlines | now apply Hns].
    - now apply ends_ok_first_line.
    - now apply ends_ok_last_line.
    - now rewrite str_join_split. }
  destruct (re_split_go_lines (length (str_split 10 t)) (str_split 10 t) []
              (Nat.le_refl _) Hwf ltac:(now left)) as [H1 H2].
  rewrite (str_join_split 10 t) in H1, H2. cbn [app] in H1.
  unfold re_split_blank.
  destruct (length (re_split_go 0 [] t) <? 2)%nat eqn:E.
  - destruct (re_split_go 0 [] t) as [|p [|q ps]] eqn:Er.
    + now apply re_split_go_nonempty in Er.
    + cbn [str_join] in H1. subst p. split; [reflexivity|].
      eapply Forall_impl; [exact H2|]. cbn beta.
      intros p [Hp Hpe]. split; [now apply str_strip_fixed | now intros _].
    + cbn in E. discriminate.
  - split; [exact H1|]. eapply Forall_impl; [exact H2|]. cbn beta.
    intros p [Hp Hpe]. split; [now apply str_strip_fixed | now intros _].
Qed.

Section TextToParagraphs.

Context {parser : HtmlParser}.

(** X23: nothing of the text of a page is lost on the way to the
    paragraphs of its document.  The blocks that [make_pdf] cuts the text
    into, joined by blank lines, are the text again; each block is already
    stripped, and none is empty unless the text is. *)
Theorem visible_text_paragraphs (document_html base_url text : str) :
  visible_text_from_html document_html base_url = Some text ->
  str_join [10%N; 10%N] (body_paragraphs text) = text
  /\ Forall (fun p => str_strip p = p /\ (text <> [] -> p <> []))
            (body_paragraphs text).
Proof.
  intros H.
  destruct (visible_text_trimmed _ _ _ H) as [Hs Hno].
  assert (He : ends_ok text) by (rewrite <- Hs; apply str_strip_ends).
  apply body_paragraphs_of_clean_text; [exact He | | exact Hno].
  unfold visible_text_from_html in H.
  destruct (html_fromstring document_html base_url) as [root|].
  - destruct (visible_content root) as [content|]; [|discriminate].
    injection H as <-.
    eapply Forall_impl; [apply normalize_lines|]. cbn beta. tauto.
  - injection H as <-.
    destruct (split_ws_go_words document_html [] eq_refl) as [Hw _].
    fold (str_split_ws document_html) in Hw.
    assert (Hnl : str_contains 10
                    (str_join (py " ") (str_split_ws document_html)) = false).
    { apply str_contains_false. intros Hin.
      assert (Hall : forallb (fun c => negb (is_space c) || (c =? 32)%N)
                       (str_join (py " ") (str_split_ws document_html))
                     = true).
      { apply forallb_str_join; [reflexivity|].
        eapply Forall_impl; [exact Hw|]. cbn beta. intros w [_ Hc].
        revert Hc. apply forallb_impl. intros c ->. reflexivity. }
      rewrite forallb_forall in Hall. apply list_elem_of_In, Hall in Hin.
      discriminate. }
    unfold str_split. rewrite (str_split_go_plain _ _ Hnl). cbn [app].
    constructor; [exact He | constructor].
Qed.

End TextToParagraphs.

(** ** Part III: concrete runs *)



(** C2, counterexample: [////] canonicalizes to [//], which canonicalizes
    to the empty string. *)
Lemma strip_tracking_not_idempotent :
  @_strip_tracking plain_netloc (py "////") ≫= @_strip_tracking plain_netloc
  <> @_strip_tracking plain_netloc (py "////").
Proof. vm_compute. discriminate. Qed.

Lemma strip_tracking_idempotent_witness :
  let u := py "https://example.com/a?utm_source=x&b=1#top" in
  let sp := mkSplit (py "https") (py "example.com") (py "/a")
                    (py "utm_source=x&b=1") (py "top") in
  @urlsplit plain_netloc u = Some sp
  /\ (u_netloc sp <> [] \/ slice_to 2 (u_path sp) <> py "//")
  /\ @_strip_tracking plain_netloc u ≫= @_strip_tracking plain_netloc
     = @_strip_tracking plain_netloc u.
Proof.
  cbv zeta.
  assert (H1 : @urlsplit plain_netloc
                 (py "https://example.com/a?utm_source=x&b=1#top")
               = Some (mkSplit (py "https") (py "example.com") (py "/a")
                               (py "utm_source=x&b=1") (py "top")))
    by (vm_compute; reflexivity).
  assert (H2 : u_netloc (mkSplit (py "https") (py "example.com") (py "/a")
                                 (py "utm_source=x&b=1") (py "top")) <> []
               \/ slice_to 2 (u_path (mkSplit (py "https") (py "example.com")
                                        (py "/a") (py "utm_source=x&b=1")
                                        (py "top"))) <> py "//")
    by (left; discriminate).
  split; [exact H1|]. split; [exact H2|].
  exact (@strip_tracking_idempotent plain_netloc _ _ H1 H2).
Defined.

(** C3, counterexample: the parameter [fbclidx], whose name begins with
    [fbclid] without being equal to it, is removed. *)
Lemma tracking_prefix_is_removed :
  parse_qsl (py "fbclidx=1&b=2") = [(py "fbclidx", py "1"); (py "b", py "2")]
  /\ @_strip_tracking plain_netloc (py "http://a/?fbclidx=1&b=2")
     = Some (py "http://a/?b=2").
Proof. vm_compute. split; reflexivity. Qed.

Lemma strip_tracking_removes_prefixed_witness :
  let u := py "https://example.com/a?utm_source=x&b=1#top" in
  let sp := mkSplit (py "https") (py "example.com") (py "/a")
                    (py "utm_source=x&b=1") (py "top") in
  let s := py "https://example.com/a?b=1" in
  @urlsplit plain_netloc u = Some sp
  /\ @_strip_tracking plain_netloc u = Some s
  /\ str_contains 35 s = false.
Proof.
  cbv zeta.
  assert (H1 : @urlsplit plain_netloc
                 (py "https://example.com/a?utm_source=x&b=1#top")
               = Some (mkSplit (py "https") (py "example.com") (py "/a")
                               (py "utm_source=x&b=1") (py "top")))
    by (vm_compute; reflexivity).
  assert (H2 : @_strip_tracking plain_netloc
                 (py "https://example.com/a?utm_source=x&b=1#top")
               = Some (py "https://example.com/a?b=1"))
    by (vm_compute; reflexivity).
  split; [exact H1|]. split; [exact H2|].
  exact (proj1 (proj2 (proj2 (@strip_tracking_removes_prefixed plain_netloc
                                _ _ _ H1 H2)))).
Defined.

(** C1, the run that breaks the claim: with depth 0 the crawl of the
    two-page site returns two documents, the seed's and the one of the page
    it links to, because a DEPTH_LIMIT of 0 switches the depth filter off
    ([depth_allowed 0 d] holds of every [d]). *)
Lemma depth_zero_follows_links :
  (forall d, depth_allowed 0 d = true)
  /\ (fun fs' => listdir fs' (path_join sample_workdir (py "pdfs")))
       <$> returned
             (@crawl_to_pdfs plain_netloc two_page_world 5 sample_seed 0
                (path_join sample_workdir (py "pdfs")) empty_fs)
     = Some [py "example-com-about-c30b28d2f5.pdf";
             py "example-com-182ccedb33.pdf"].
Proof. split; [reflexivity|]. vm_compute. reflexivity. Qed.

(** C4, counterexample: the scope of [blog.example.com] holds
    [example.com], which is neither the host nor its [www.] variant. *)
Lemma subdomain_scope_holds_apex :
  exists allow,
    @same_site_allowed_domains plain_netloc (py "https://blog.example.com/")
    = Some allow
    /\ py "example.com" ∈ allow
    /\ py "example.com" <> py "blog.example.com"
    /\ py "example.com" <> py "www.blog.example.com".
Proof.
  exists ({[ py "blog.example.com" ]} ∪ {[ py "blog.example.com" ]}
          ∪ {[ py "www.blog.example.com" ]} ∪ {[ py "example.com" ]}).
  split; [vm_compute; reflexivity|].
  split; [rewrite !elem_of_union, !elem_of_singleton; auto|].
  split; vm_compute; discriminate.
Qed.

Lemma same_site_scope_witness :
  let allow : gset str :=
    {[ py "www.example.com" ]} ∪ {[ py "example.com" ]}
    ∪ {[ py "www.example.com" ]} in
  @same_site_allowed_domains plain_netloc (py "https://www.example.com/")
  = Some allow
  /\ exists parsed,
      @urlparse plain_netloc (py "https://www.example.com/") = Some parsed.
Proof.
  cbv zeta.
  assert (H : @same_site_allowed_domains plain_netloc
                (py "https://www.example.com/")
              = Some ({[ py "www.example.com" ]} ∪ {[ py "example.com" ]}
                      ∪ {[ py "www.example.com" ]}))
    by (vm_compute; reflexivity).
  split; [exact H|].
  destruct (@same_site_scope plain_netloc _ _ H) as (parsed & Hp & _).
  now exists parsed.
Defined.

(** C6, counterexample: the link of the seed page is scheduled, its fetch
    fails, and nothing is written for it; the crawl ends with the document
    of the seed alone. *)
Lemma failed_link_writes_nothing :
  (@schedule plain_netloc 1
     ({[ py "example.com" ]} ∪ {[ py "www.example.com" ]}) 0
     [sample_about] ∅).1
  = [mkRequest sample_about 1 false false]
  /\ @handle_request plain_netloc broken_link_world sample_seed
       (path_join sample_workdir (py "pdfs"))
       (mkRequest sample_about 1 false false) empty_fs
     = Some ([], empty_fs)
  /\ (fun fs' => listdir fs' (path_join sample_workdir (py "pdfs")))
       <$> returned
             (@crawl_to_pdfs plain_netloc broken_link_world 5 sample_seed 1
                (path_join sample_workdir (py "pdfs")) empty_fs)
     = Some [py "example-com-182ccedb33.pdf"].
Proof. repeat split; vm_compute; reflexivity. Qed.

(** C6: a fetched page whose second link ends the link loop of [parse]
    yields the first link and no document. *)
Lemma fetched_page_with_bad_link_writes_nothing :
  (@parse_links plain_netloc (r_links bad_link_response)).2 = false
  /\ @handle_request plain_netloc bad_link_world sample_seed
       (path_join sample_workdir (py "pdfs")) (start_request sample_seed)
       empty_fs
     = Some ([py "https://example.com/a"], empty_fs).
Proof. split; vm_compute; reflexivity. Qed.

(** The seed page of the two-page site is fetched and its document is
    written. *)
Lemma one_document_per_fetched_page_witness :
  exists hrefs fs',
    @handle_request plain_netloc two_page_world sample_seed
      (path_join sample_workdir (py "pdfs")) (start_request sample_seed)
      empty_fs
    = Some (hrefs, fs')
    /\ is_Some (fs_files fs'
                  !! path_join (path_join sample_workdir (py "pdfs"))
                               (py "example-com-182ccedb33.pdf")).
Proof.
  destruct (@one_document_per_fetched_page plain_netloc two_page_world
              sample_seed (path_join sample_workdir (py "pdfs"))
              (start_request sample_seed) empty_fs)
    as (_ & _ & hrefs & fs' & E & _ & Hm).
  exists hrefs, fs'. split; [exact E|].
  assert (Hf : @fetch two_page_world (q_url (start_request sample_seed))
               = Fetched (mkResponse sample_seed (Some (py "Home"))
                                     (py "Welcome") [] [sample_about]))
    by (vm_compute; reflexivity).
  rewrite Hf in Hm. destruct Hm as (_ & _ & _ & Hm).
  destruct (Hm (py "example-com-182ccedb33.pdf")
               ltac:(vm_compute; reflexivity) ltac:(vm_compute; reflexivity))
    as (title & story & _ & _ & Hw & _).
  rewrite (Hw eq_refl). cbn [write_file fs_files].
  rewrite lookup_insert_eq. now eexists.
Defined.

Lemma scrape_outcomes_witness :
  let outdir := path_join sample_workdir (py "pdfs") in
  let fs0 := make_dir outdir (make_dir sample_workdir empty_fs) in
  @crawl_to_pdfs plain_netloc engine_down_world 5 sample_seed 1 outdir fs0
  = Some (Raises (py "BrowserType.launch failed"))
  /\ @scrape plain_netloc engine_down_world 5 sample_workdir
       (mkCrawlRequest sample_seed 1) empty_fs
     = Some (HTTPException 500
               (py "Crawl failed: " ++ py "BrowserType.launch failed"),
             fs0).
Proof.
  cbv zeta.
  assert (H : @crawl_to_pdfs plain_netloc engine_down_world 5
                (url (mkCrawlRequest sample_seed 1))
                (depth (mkCrawlRequest sample_seed 1))
                (path_join sample_workdir (py "pdfs"))
                (make_dir (path_join sample_workdir (py "pdfs"))
                          (make_dir sample_workdir empty_fs))
              = Some (Raises (py "BrowserType.launch failed")))
    by (vm_compute; reflexivity).
  split; [exact H|].
  exact (@scrape_outcomes plain_netloc engine_down_world 5 sample_workdir
           (mkCrawlRequest sample_seed 1) empty_fs _ H).
Defined.

(** C8, counterexample: after the endpoint has answered with the archive of
    the two-page site, the working directory and the output directory
    still exist. *)
Lemma workdir_left_behind :
  (fun r : http_result * fsys => (r.1, elements (fs_dirs r.2)))
    <$> @scrape plain_netloc two_page_world 5 sample_workdir
          (mkCrawlRequest sample_seed 1) empty_fs
  = Some (FileResponse (path_join sample_workdir (py "result.zip"))
                       (py "application/zip") (py "scraped_pdfs.zip"),
          [path_join sample_workdir (py "pdfs"); sample_workdir]).
Proof. vm_compute. reflexivity. Qed.

Lemma scrape_keeps_workdir_witness :
  let fs0 := make_dir (path_join sample_workdir (py "pdfs"))
                      (make_dir sample_workdir empty_fs) in
  @scrape plain_netloc engine_down_world 5 sample_workdir
    (mkCrawlRequest sample_seed 1) empty_fs
  = Some (HTTPException 500
            (py "Crawl failed: " ++ py "BrowserType.launch failed"), fs0)
  /\ sample_workdir ∈ fs_dirs fs0.
Proof.
  cbv zeta.
  assert (H : @scrape plain_netloc engine_down_world 5 sample_workdir
                (mkCrawlRequest sample_seed 1) empty_fs
              = Some (HTTPException 500
                        (py "Crawl failed: " ++ py "BrowserType.launch failed"),
                      make_dir (path_join sample_workdir (py "pdfs"))
                               (make_dir sample_workdir empty_fs)))
    by (vm_compute; reflexivity).
  split; [exact H|].
  exact (proj1 (@scrape_keeps_workdir plain_netloc engine_down_world
                  _ _ _ _ _ _ H)).
Defined.

(** C9, counterexample: two URLs with the same canonical form, one with a
    tracking parameter, get different file names. *)
Lemma tracking_parameter_changes_filename :
  @_strip_tracking plain_netloc (py "https://example.com/?utm_source=x")
  = @_strip_tracking plain_netloc (py "https://example.com/")
  /\ @sanitize_filename_from_url plain_netloc
       (py "https://example.com/?utm_source=x")
     = Some (py "example-com-274b2ba18b.pdf")
  /\ @sanitize_filename_from_url plain_netloc (py "https://example.com/")
     = Some (py "example-com-182ccedb33.pdf").
Proof. repeat split; vm_compute; reflexivity. Qed.

Lemma filename_from_defragmented_url_witness :
  @sanitize_filename_from_url plain_netloc (py "https://example.com/about#team")
  = Some (py "example-com-about-c30b28d2f5.pdf")
  /\ @sanitize_filename_from_url plain_netloc
       (py "https://example.com/about#contact")
     = Some (py "example-com-about-c30b28d2f5.pdf").
Proof.
  assert (H : @sanitize_filename_from_url plain_netloc
                (py "https://example.com/about#team")
              = Some (py "example-com-about-c30b28d2f5.pdf"))
    by (vm_compute; reflexivity).
  split; [exact H|].
  exact (proj2 (proj2 (@filename_from_defragmented_url plain_netloc _ _ H))
           (py "https://example.com/about") (py "team") (py "contact")
           eq_refl eq_refl).
Defined.

(** C9: a fragment alone can change the name.  [urldefrag] returns a URL
    without [#] as it is written and re-joins the parts of a URL with [#],
    which drops an empty query and writes the scheme in lower case. *)
Lemma fragment_changes_filename_of_unjoined_url :
  (@urldefrag plain_netloc (py "https://example.com/a?")
   = Some (py "https://example.com/a?")
   /\ @urldefrag plain_netloc (py "https://example.com/a?#x")
      = Some (py "https://example.com/a")
   /\ @sanitize_filename_from_url plain_netloc (py "https://example.com/a?")
      = Some (py "example-com-a-f0f06dd432.pdf")
   /\ @sanitize_filename_from_url plain_netloc (py "https://example.com/a?#x")
      = Some (py "example-com-a-cd69b81ea0.pdf"))
  /\ (@sanitize_filename_from_url plain_netloc (py "HTTPS://example.com/about")
      = Some (py "example-com-about-aa70192026.pdf")
      /\ @sanitize_filename_from_url plain_netloc
           (py "HTTPS://example.com/about#team")
         = Some (py "example-com-about-c30b28d2f5.pdf")).
Proof. repeat split; vm_compute; reflexivity. Qed.

(** ** Part IV: concrete runs of the further properties *)

Lemma strip_tracking_resplit_witness :
  let u := py "https://example.com/a?utm_source=x&b=1#top" in
  let sp := mkSplit (py "https") (py "example.com") (py "/a")
                    (py "utm_source=x&b=1") (py "top") in
  let s := py "https://example.com/a?b=1" in
  @urlsplit plain_netloc u = Some sp
  /\ @_strip_tracking plain_netloc u = Some s
  /\ exists qs,
       @urlsplit plain_netloc s
       = Some (mkSplit (py "https") (py "example.com") (py "/a") qs [])
       /\ forallb is_query_char qs = true
       /\ parse_qsl qs = kept_pairs (py "utm_source=x&b=1")
       /\ Forall (fun kv => is_tracking kv.1 = false) (parse_qsl qs).
Proof.
  cbv zeta.
  assert (H1 : @urlsplit plain_netloc
                 (py "https://example.com/a?utm_source=x&b=1#top")
               = Some (mkSplit (py "https") (py "example.com") (py "/a")
                               (py "utm_source=x&b=1") (py "top")))
    by (vm_compute; reflexivity).
  assert (H2 : @_strip_tracking plain_netloc
                 (py "https://example.com/a?utm_source=x&b=1#top")
               = Some (py "https://example.com/a?b=1"))
    by (vm_compute; reflexivity).
  split; [exact H1|]. split; [exact H2|].
  exact (@strip_tracking_resplit plain_netloc _ _ _ H1
           ltac:(discriminate) H2).
Defined.

(** A kept parameter with a lone surrogate makes canonicalization raise; the
    same value under a tracking name does not. *)
Lemma strip_tracking_raises_witness :
  @_strip_tracking plain_netloc (py "http://a/?b=" ++ [55296%N]) = None
  /\ @_strip_tracking plain_netloc (py "http://a/?utm_b=" ++ [55296%N])
     = Some (py "http://a/").
Proof.
  split; [|vm_compute; reflexivity].
  apply (proj2 (@strip_tracking_raises plain_netloc _)). right.
  exists (mkSplit (py "http") (py "a") (py "/") (py "b=" ++ [55296%N]) []),
         (py "b"), [55296%N].
  split; [vm_compute; reflexivity|]. split; [vm_compute; tauto|].
  split; [vm_compute; reflexivity|]. right. vm_compute. reflexivity.
Defined.

Lemma filename_is_safe_component_witness :
  let name := py "example-com-182ccedb33.pdf" in
  @sanitize_filename_from_url plain_netloc sample_seed = Some name
  /\ forallb is_filename_char name = true
  /\ (16 <= length name <= 95)%nat
  /\ is_alnum (hd 0%N name) = true
  /\ str_endswith (py ".pdf") name = true
  /\ path_join (py "/tmp/x/pdfs") name = py "/tmp/x/pdfs" ++ py "/" ++ name.
Proof.
  cbv zeta.
  assert (H : @sanitize_filename_from_url plain_netloc sample_seed
              = Some (py "example-com-182ccedb33.pdf"))
    by (vm_compute; reflexivity).
  split; [exact H|].
  pose proof (@filename_is_safe_component plain_netloc _ _ H)
    as (H1 & H2 & H3 & H4 & H5).
  split; [exact H1|]. split; [exact H2|]. split; [exact H3|].
  split; [exact H4|].
  exact (proj1 (H5 (py "/tmp/x/pdfs") ltac:(discriminate)
                   ltac:(vm_compute; reflexivity))).
Defined.

Lemma filename_without_letters_is_page_witness :
  let u := py "/#top" in
  let parsed := mkParse [] [] (py "/") [] [] [] in
  @urldefrag plain_netloc u = Some (py "/")
  /\ @urlparse plain_netloc (py "/") = Some parsed
  /\ @sanitize_filename_from_url plain_netloc u
     = Some (py "page-6666cd76f9.pdf")
  /\ exists bytes,
       utf8_encode (py "/") = Some bytes
       /\ py "page-6666cd76f9.pdf"
          = py "page-" ++ slice_to 10 (hexdigest (md5 bytes)) ++ py ".pdf".
Proof.
  cbv zeta.
  assert (H1 : @urldefrag plain_netloc (py "/#top") = Some (py "/"))
    by (vm_compute; reflexivity).
  assert (H2 : @urlparse plain_netloc (py "/")
               = Some (mkParse [] [] (py "/") [] [] []))
    by (vm_compute; reflexivity).
  assert (H3 : @sanitize_filename_from_url plain_netloc (py "/#top")
               = Some (py "page-6666cd76f9.pdf"))
    by (vm_compute; reflexivity).
  split; [exact H1|]. split; [exact H2|]. split; [exact H3|].
  exact (@filename_without_letters_is_page plain_netloc _ _ _ _ H1 H2
           ltac:(vm_compute; reflexivity) H3).
Defined.

Lemma scope_ignores_leading_www_witness :
  @same_site_allowed_domains plain_netloc (py "https://example.com/")
  = @same_site_allowed_domains plain_netloc (py "https://www.example.com/").
Proof.
  exact (@scope_ignores_leading_www plain_netloc
           (py "https://example.com/") (py "https://www.example.com/")
           (mkParse (py "https") (py "example.com") (py "/") [] [] [])
           (mkParse (py "https") (py "www.example.com") (py "/") [] [] [])
           (py "example.com")
           ltac:(vm_compute; reflexivity) ltac:(vm_compute; reflexivity)
           ltac:(vm_compute; reflexivity) ltac:(vm_compute; reflexivity)
           ltac:(vm_compute; reflexivity)).
Defined.

Lemma scope_admits_parent_domain_witness :
  let allow : gset str :=
    {[ py "blog.example.com" ]} ∪ {[ py "blog.example.com" ]}
    ∪ {[ py "www.blog.example.com" ]} ∪ {[ py "example.com" ]} in
  @same_site_allowed_domains plain_netloc (py "https://blog.example.com/")
  = Some allow
  /\ host_allowed allow (py "blog.example.com") = true
  /\ host_allowed allow (py "shop.example.com") = true.
Proof.
  cbv zeta.
  assert (H1 : @same_site_allowed_domains plain_netloc
                 (py "https://blog.example.com/")
               = Some ({[ py "blog.example.com" ]} ∪ {[ py "blog.example.com" ]}
                       ∪ {[ py "www.blog.example.com" ]}
                       ∪ {[ py "example.com" ]}))
    by (vm_compute; reflexivity).
  assert (H2 : @urlparse plain_netloc (py "https://blog.example.com/")
               = Some (mkParse (py "https") (py "blog.example.com") (py "/")
                               [] [] []))
    by (vm_compute; reflexivity).
  pose proof (@scope_admits_parent_domain plain_netloc _ _ _ H1 H2
                ltac:(vm_compute; discriminate)) as (Ha & _ & Hc).
  split; [exact H1|]. split; [exact Ha|].
  exact (Hc ltac:(vm_compute; lia) (py "shop.example.com")
            ltac:(vm_compute; reflexivity)).
Defined.

Lemma scope_within_parent_domain_witness :
  let allow : gset str :=
    {[ py "blog.example.com" ]} ∪ {[ py "blog.example.com" ]}
    ∪ {[ py "www.blog.example.com" ]} ∪ {[ py "example.com" ]} in
  @same_site_allowed_domains plain_netloc (py "https://blog.example.com/")
  = Some allow
  /\ forall h, h ∈ allow ->
               h = py "example.com"
               \/ exists sub, h = sub ++ py "." ++ py "example.com".
Proof.
  cbv zeta.
  assert (H1 : @same_site_allowed_domains plain_netloc
                 (py "https://blog.example.com/")
               = Some ({[ py "blog.example.com" ]} ∪ {[ py "blog.example.com" ]}
                       ∪ {[ py "www.blog.example.com" ]}
                       ∪ {[ py "example.com" ]}))
    by (vm_compute; reflexivity).
  assert (H2 : @urlparse plain_netloc (py "https://blog.example.com/")
               = Some (mkParse (py "https") (py "blog.example.com") (py "/")
                               [] [] []))
    by (vm_compute; reflexivity).
  split; [exact H1|].
  exact (@scope_within_parent_domain plain_netloc _ _ _ H1 H2).
Defined.

Lemma story_of_small_texts_witness :
  story_of (mkPayload sample_seed (py "Home") [] (py "  Welcome ") [])
  = Some [Paragraph (py "Home") h1; Paragraph sample_seed normal;
          Spacer 15; Spacer 10; Paragraph (py "Page Text") h2;
          Paragraph (py "Welcome") normal; Spacer 5].
Proof.
  exact (proj2 (proj2 (story_of_small_texts
                         (mkPayload sample_seed (py "Home") []
                                    (py "  Welcome ") [])))
               ltac:(vm_compute; reflexivity) ltac:(vm_compute; discriminate)
               ltac:(vm_compute; discriminate)).
Defined.

Lemma parse_yields_canonical_links_witness :
  let response :=
    mkResponse sample_seed (Some (py "Home")) (py "Welcome") []
               [py "https://example.com/about?utm_source=x#team"] in
  (fst <$> @parse plain_netloc two_page_world (py "/tmp/x/pdfs") response
             empty_fs)
  = Some [sample_about]
  /\ Forall (fun h => str_contains 35 h = false
                      /\ @urldefrag plain_netloc h = Some h) [sample_about].
Proof.
  cbv zeta.
  destruct (@parse plain_netloc two_page_world (py "/tmp/x/pdfs")
              (mkResponse sample_seed (Some (py "Home")) (py "Welcome") []
                          [py "https://example.com/about?utm_source=x#team"])
              empty_fs) as [[hrefs fs']|] eqn:E.
  - assert (Hh : hrefs = [sample_about]).
    { pose proof (f_equal (fmap fst) E) as E1.
      vm_compute in E1. injection E1 as <-. reflexivity. }
    subst hrefs. split; [reflexivity|].
    exact (proj2 (@parse_yields_canonical_links plain_netloc two_page_world
                    _ _ _ _ _ E)).
  - exfalso. pose proof (f_equal (fmap fst) E) as E1. vm_compute in E1.
    discriminate.
Defined.

Lemma parse_stops_at_bad_link_witness :
  @urldefrag plain_netloc bracket_link ≫= @_strip_tracking plain_netloc = None
  /\ exists hrefs,
       @parse plain_netloc two_page_world (py "/tmp/x/pdfs")
              bad_link_response empty_fs
       = Some (hrefs, empty_fs)
       /\ Forall2 (fun l h => @urldefrag plain_netloc l
                                ≫= @_strip_tracking plain_netloc = Some h)
                  [py "https://example.com/a#top"] hrefs.
Proof.
  assert (H : @urldefrag plain_netloc bracket_link
                ≫= @_strip_tracking plain_netloc = None)
    by (vm_compute; reflexivity).
  split; [exact H|].
  exact (@parse_stops_at_bad_link plain_netloc two_page_world
           (py "/tmp/x/pdfs") bad_link_response empty_fs
           [py "https://example.com/a#top"] [sample_about] bracket_link
           eq_refl
           ltac:(repeat constructor; vm_compute; eauto) H).
Defined.

Lemma schedule_filters_witness :
  (@schedule plain_netloc 1 {[ py "example.com" ]} 0
     [sample_about; py "https://other.org/"; sample_about] ∅).1
  = [mkRequest sample_about 1 false false]
  /\ (@schedule plain_netloc 1 {[ py "example.com" ]} 1 [sample_about] ∅).1
     = [].
Proof.
  split; [vm_compute; reflexivity|].
  exact (proj2 (proj2 (proj2 (@schedule_filters plain_netloc 1
                                {[ py "example.com" ]} 1 [sample_about] ∅)))
               ltac:(discriminate) ltac:(lia)).
Defined.

Lemma crawl_writes_only_documents_witness :
  let outdir := path_join sample_workdir (py "pdfs") in
  exists fs1,
    @crawl_to_pdfs plain_netloc two_page_world 5 sample_seed 1 outdir empty_fs
    = Some (Returns fs1)
    /\ fs_dirs fs1 = fs_dirs empty_fs
    /\ listdir fs1 outdir
       = [py "example-com-about-c30b28d2f5.pdf";
          py "example-com-182ccedb33.pdf"].
Proof.
  cbv zeta.
  destruct (@crawl_to_pdfs plain_netloc two_page_world 5 sample_seed 1
              (path_join sample_workdir (py "pdfs")) empty_fs)
    as [[fs1 | e]|] eqn:E.
  - exists fs1. split; [reflexivity|].
    split;
      [exact (proj1 (@crawl_writes_only_documents plain_netloc two_page_world
                       _ _ _ _ _ _ E))|].
    pose proof (f_equal
                  (fun r => (fun fs' =>
                               listdir fs' (path_join sample_workdir (py "pdfs")))
                            <$> returned r) E) as E1.
    vm_compute in E1. injection E1 as E1. symmetry. exact E1.
  - exfalso. pose proof (f_equal (fun r => has_returned r) E) as E1.
    vm_compute in E1. discriminate.
  - exfalso. pose proof (f_equal (fun r => has_returned r) E) as E1.
    vm_compute in E1. discriminate.
Defined.

Lemma scrape_archive_entries_witness :
  let outdir := path_join sample_workdir (py "pdfs") in
  exists fs' entries,
    @scrape plain_netloc two_page_world 5 sample_workdir
      (mkCrawlRequest sample_seed 1) empty_fs
    = Some (FileResponse (path_join sample_workdir (py "result.zip"))
                         (py "application/zip") (py "scraped_pdfs.zip"), fs')
    /\ fs_files fs' !! path_join sample_workdir (py "result.zip")
       = Some (ZipFile entries)
    /\ map fst entries = [py "example-com-about-c30b28d2f5.pdf";
                          py "example-com-182ccedb33.pdf"].
Proof.
  cbv zeta.
  destruct (@scrape plain_netloc two_page_world 5 sample_workdir
              (mkCrawlRequest sample_seed 1) empty_fs)
    as [[answer fs']|] eqn:E.
  2:{ exfalso. pose proof (f_equal (fmap fst) E) as E1. vm_compute in E1.
      discriminate. }
  assert (Ha : answer
               = FileResponse (path_join sample_workdir (py "result.zip"))
                              (py "application/zip") (py "scraped_pdfs.zip")).
  { pose proof (f_equal (fmap fst) E) as E1. vm_compute in E1.
    injection E1 as <-. reflexivity. }
  subst answer.
  destruct (@scrape_archive_entries plain_netloc two_page_world _ _ _ _ _ _ _ _ E)
    as (fs1 & entries & Hc & _ & Hfs & _ & Hnames & _).
  exists fs', entries. split; [reflexivity|]. split.
  - rewrite Hfs. cbn [write_file fs_files]. apply lookup_insert_eq.
  - rewrite Hnames.
    pose proof (f_equal
                  (fun r => (fun fs' =>
                               List.filter is_pdf_name
                                 (listdir fs' (path_join sample_workdir
                                                         (py "pdfs"))))
                            <$> returned r) Hc) as E1.
    vm_compute in E1. injection E1 as E1. symmetry. exact E1.
Defined.


(** The seed is fetched, its second link ends the link loop of [parse], no
    document is written, and the endpoint answers 504 although every
    document can be built. *)
Lemma bad_link_seed_answers_504 :
  (@parse_links plain_netloc (r_links bad_link_response)).2 = false
  /\ fst <$> @scrape plain_netloc bad_link_world 5 sample_workdir
               (mkCrawlRequest sample_seed 1) empty_fs
     = Some (HTTPException 504
               (py "Fetch timed out or was blocked before any page could be saved.")).
Proof. split; vm_compute; reflexivity. Qed.

Lemma visible_text_has_no_stray_space_witness :
  let text := py "Title" ++ [10%N; 10%N] ++ py "last line" in
  @visible_text_from_html plain_text_parser sample_markup sample_seed
  = Some text
  /\ forallb (fun c => negb (is_stray_space c)) text = true.
Proof.
  cbv zeta.
  assert (H : @visible_text_from_html plain_text_parser sample_markup
                sample_seed
              = Some (py "Title" ++ [10%N; 10%N] ++ py "last line"))
    by (vm_compute; reflexivity).
  split; [exact H|].
  exact (@visible_text_has_no_stray_space plain_text_parser _ _ _ H).
Defined.

Lemma visible_text_is_trimmed_witness :
  let text := py "Title" ++ [10%N; 10%N] ++ py "last line" in
  @visible_text_from_html plain_text_parser sample_markup sample_seed
  = Some text
  /\ str_strip text = text
  /\ str_contains_sub [10%N; 10%N; 10%N] text = false.
Proof.
  cbv zeta.
  assert (H : @visible_text_from_html plain_text_parser sample_markup
                sample_seed
              = Some (py "Title" ++ [10%N; 10%N] ++ py "last line"))
    by (vm_compute; reflexivity).
  split; [exact H|].
  exact (@visible_text_is_trimmed plain_text_parser _ _ _ H).
Defined.

Lemma visible_text_lines_pass_filter_witness :
  let text := py "Title" ++ [10%N; 10%N] ++ py "last line" in
  @visible_text_from_html plain_text_parser sample_markup sample_seed
  = Some text
  /\ Forall (fun l =>
               str_strip l = l
               /\ str_count 123 l + str_count 125 l + str_count 59 l <= 4
               /\ (300 < len l ->
                   Forall (fun tok => str_contains_sub tok l = false)
                          css_tokens))
            (str_split 10 text).
Proof.
  cbv zeta.
  assert (H : @visible_text_from_html plain_text_parser sample_markup
                sample_seed
              = Some (py "Title" ++ [10%N; 10%N] ++ py "last line"))
    by (vm_compute; reflexivity).
  split; [exact H|].
  exact (@visible_text_lines_pass_filter plain_text_parser sample_markup
           sample_seed _ sample_markup eq_refl H).
Defined.

Lemma visible_text_fallback_words_witness :
  @visible_text_from_html failing_parser sample_markup sample_seed
  = Some (py "Title a{b;c};d{e;} last line")
  /\ str_split_ws sample_markup
     = [py "Title"; py "a{b;c};d{e;}"; py "last"; py "line"].
Proof.
  pose proof (@visible_text_fallback_words failing_parser sample_markup
                sample_seed eq_refl) as (H & _).
  split; [|vm_compute; reflexivity].
  rewrite H. vm_compute. reflexivity.
Defined.

Lemma error_document_story_witness :
  let path :=
    path_join (path_join sample_workdir (py "pdfs"))
              (py "example-com-182ccedb33.pdf") in
  let doc :=
    mkPdf (py "(Fetch error)")
      [Paragraph (py "(Fetch error)") h1; Paragraph sample_seed normal;
       Spacer 15; Spacer 10; Paragraph (py "Page Text") h2;
       Paragraph (py "Failed to fetch " ++ sample_seed) normal; Spacer 5;
       Paragraph (py "TimeoutError()") normal; Spacer 5] in
  @errback_first plain_netloc unreachable_world sample_seed
    (path_join sample_workdir (py "pdfs")) (py "TimeoutError()") empty_fs
  = Some (write_file path (PdfFile doc) empty_fs).
Proof.
  cbv zeta.
  exact (@error_document_story plain_netloc unreachable_world sample_seed
           (path_join sample_workdir (py "pdfs")) (py "TimeoutError()")
           (py "example-com-182ccedb33.pdf") empty_fs
           ltac:(vm_compute; reflexivity) ltac:(discriminate)
           ltac:(vm_compute; reflexivity) ltac:(vm_compute; discriminate)
           ltac:(discriminate)
           ltac:(right; split; vm_compute; reflexivity)
           ltac:(vm_compute; reflexivity) ltac:(vm_compute; discriminate)).
Defined.

Lemma split_table_round_trip_witness :
  _split_table (py "cdr.earnings") = (py "cdr", py "earnings")
  /\ _split_table (py "hexes") = (py "public", py "hexes")
  /\ _split_table (py "a.b.c") = (py "a", py "b.c").
Proof.
  split; [|split].
  - exact (proj2 (proj2 (split_table_round_trip [])) (py "cdr") (py "earnings")
             ltac:(vm_compute; reflexivity)).
  - exact (proj1 (proj2 (split_table_round_trip (py "hexes")))
             ltac:(vm_compute; reflexivity)).
  - exact (proj2 (proj2 (split_table_round_trip [])) (py "a") (py "b.c")
             ltac:(vm_compute; reflexivity)).
Defined.

Lemma crawl_terminates_with_depth_limit_witness :
  @requests_bound plain_netloc two_page_world (Z.to_nat 1) sample_seed = 2%nat
  /\ exists answer fs',
       @scrape plain_netloc two_page_world 2 sample_workdir
         (mkCrawlRequest sample_seed 1) empty_fs
       = Some (answer, fs').
Proof.
  split; [vm_compute; reflexivity|].
  exact (proj2 (@crawl_terminates_with_depth_limit plain_netloc two_page_world
                  sample_seed 1 2 ltac:(discriminate)
                  ltac:(vm_compute; lia))
               sample_workdir empty_fs).
Defined.

Lemma visible_text_paragraphs_witness :
  let text := py "Title" ++ [10%N; 10%N] ++ py "last line" in
  @visible_text_from_html plain_text_parser sample_markup sample_seed
  = Some text
  /\ body_paragraphs text = [py "Title"; py "last line"]
  /\ str_join [10%N; 10%N] (body_paragraphs text) = text.
Proof.
  cbv zeta.
  assert (H : @visible_text_from_html plain_text_parser sample_markup
                sample_seed
              = Some (py "Title" ++ [10%N; 10%N] ++ py "last line"))
    by (vm_compute; reflexivity).
  split; [exact H|]. split; [vm_compute; reflexivity|].
  exact (proj1 (@visible_text_paragraphs plain_text_parser _ _ _ H)).
Defined.

Lemma visible_text_adds_no_characters_witness :
  let text := py "Title" ++ [10%N; 10%N] ++ py "last line" in
  @visible_text_from_html plain_text_parser sample_markup sample_seed
  = Some text
  /\ exists source,
       Some sample_markup = Some source
       /\ forallb (fun c => str_contains c source || (c =? 32)%N
                            || (c =? 10)%N) text = true.
Proof.
  cbv zeta.
  assert (H : @visible_text_from_html plain_text_parser sample_markup
                sample_seed
              = Some (py "Title" ++ [10%N; 10%N] ++ py "last line"))
    by (vm_compute; reflexivity).
  split; [exact H|].
  exact (@visible_text_adds_no_characters plain_text_parser _ _ _ H).
Defined.

(** *** The models of the library functions on sample inputs

    The values on the right are the interpreter's. *)

Example md5_vector_1 :
  hexdigest (md5 []) = py "d41d8cd98f00b204e9800998ecf8427e".
Proof. vm_compute. reflexivity. Qed.

Example md5_vector_2 :
  hexdigest (md5 (py "abc")) = py "900150983cd24fb0d6963f7d28e17f72".
Proof. vm_compute. reflexivity. Qed.

Example md5_vector_3 :
  hexdigest (md5 (py "message digest")) = py "f96b697d7cb7938d525a2f31aaf161d0".
Proof. vm_compute. reflexivity. Qed.

Example urlsplit_sample_1 :
  @urlsplit plain_netloc (py "HTTP://User@Example.com:80/a/b;p?x=1&y=2#frag")
  = Some (mkSplit (py "http") (py "User@Example.com:80") (py "/a/b;p")
                 (py "x=1&y=2") (py "frag")).
Proof. vm_compute. reflexivity. Qed.

Example urlsplit_sample_2 :
  @urlsplit plain_netloc (py "mailto:someone@example.com")
  = Some (mkSplit (py "mailto") [] (py "someone@example.com")
                 [] []).
Proof. vm_compute. reflexivity. Qed.

Example urlsplit_sample_3 :
  @urlsplit plain_netloc (py "//host/path")
  = Some (mkSplit [] (py "host") (py "/path")
                 [] []).
Proof. vm_compute. reflexivity. Qed.

Example urlsplit_sample_4 :
  @urlsplit plain_netloc (py "a/b:c?d")
  = Some (mkSplit [] [] (py "a/b:c")
                 (py "d") []).
Proof. vm_compute. reflexivity. Qed.

Example urlsplit_sample_5 :
  @urlsplit plain_netloc (py "http:x")
  = Some (mkSplit (py "http") [] (py "x")
                 [] []).
Proof. vm_compute. reflexivity. Qed.

Example urlunsplit_sample_1 :
  urlunsplit (py "http") [] (py "x") [] []
  = py "http:///x".
Proof. vm_compute. reflexivity. Qed.

Example urlunsplit_sample_2 :
  urlunsplit [] [] (py "//x") (py "a=1") []
  = py "//x?a=1".
Proof. vm_compute. reflexivity. Qed.

Example urlunsplit_sample_3 :
  urlunsplit (py "https") (py "h") [] [] (py "f")
  = py "https://h#f".
Proof. vm_compute. reflexivity. Qed.

Example parse_qsl_sample_1 :
  parse_qsl (py "a=1&&b&=c&d=e=f")
  = [(py "a", py "1"); (py "b", []); ([], py "c"); (py "d", py "e=f")].
Proof. vm_compute. reflexivity. Qed.

Example parse_qsl_sample_2 :
  parse_qsl (py "n%61me=v+1%2B2&%zz=%4")
  = [(py "name", py "v 1+2"); (py "%zz", py "%4")].
Proof. vm_compute. reflexivity. Qed.

Example unquote_sample :
  unquote (py "caf%C3%A9 %E2%82%AC %FF %ED%A0%80 %F0%9F%98")
  = [99; 97; 102; 233; 32; 8364; 32; 65533; 32; 65533; 65533; 65533; 32; 65533]%N.
Proof. vm_compute. reflexivity. Qed.

Example quote_plus_sample :
  quote_plus [97; 32; 98; 43; 99; 47; 126; 233]%N
  = Some (py "a+b%2Bc%2F~%C3%A9").
Proof. vm_compute. reflexivity. Qed.

Example re_split_sample_1 :
  re_split_blank [111; 110; 101; 10; 32; 10; 10; 116; 119; 111; 10; 115; 116; 105; 108; 108; 32; 116; 119; 111; 10; 9; 10; 116; 104; 114; 101; 101]%N
  = [[111; 110; 101]%N;
     [116; 119; 111; 10; 115; 116; 105; 108; 108; 32; 116; 119; 111]%N;
     [116; 104; 114; 101; 101]%N].
Proof. vm_compute. reflexivity. Qed.

Example re_split_sample_2 :
  re_split_blank [97; 10; 10]%N
  = [[97]%N;
     []%N].
Proof. vm_compute. reflexivity. Qed.

Example urldefrag_sample_1 :
  @urldefrag plain_netloc (py "https://Example.com/a;b#x") = Some (py "https://Example.com/a;b").
Proof. vm_compute. reflexivity. Qed.

Example urldefrag_sample_2 :
  @urldefrag plain_netloc (py "HTTP://a/?#") = Some (py "http://a/").
Proof. vm_compute. reflexivity. Qed.

Example hostname_sample_1 :
  hostname (py "User:pw@WWW.Example.com:8080") = Some (py "www.example.com").
Proof. vm_compute. reflexivity. Qed.

Example hostname_sample_2 :
  hostname (py "[FE80::1%Eth0]:80") = Some (py "fe80::1%Eth0").
Proof. vm_compute. reflexivity. Qed.

(** *** The text of a page, checked against the interpreter *)

Example normalize_sample_1 :
  normalize_visible_text
    (py "  Hello " ++ [9%N] ++ py " world "
     ++ [13%N; 10%N; 13%N; 10%N; 13%N; 10%N; 13%N; 10%N] ++ py "next"
     ++ [160%N] ++ py "line  " ++ [10%N])
  = (py "Hello world" ++ [10%N; 10%N] ++ py "next line").
Proof. vm_compute. reflexivity. Qed.

Example normalize_sample_2 :
  normalize_visible_text
    (py "a " ++ [160%N] ++ py "b")
  = (py "a  b").
Proof. vm_compute. reflexivity. Qed.

Example normalize_sample_3 :
  normalize_visible_text
    (py "a" ++ [11%N] ++ py "b" ++ [12%N] ++ py "c" ++ [28%N] ++ py "d"
     ++ [133%N] ++ py "e" ++ [8232%N] ++ py "f")
  = (py "a b c" ++ [10%N] ++ py "d" ++ [10%N] ++ py "e" ++ [10%N]
     ++ py "f").
Proof. vm_compute. reflexivity. Qed.

Example normalize_sample_4 :
  normalize_visible_text
    (py "x" ++ [10%N] ++ py " " ++ [10%N] ++ py " " ++ [10%N] ++ py "y")
  = (py "x" ++ [10%N; 10%N] ++ py "y").
Proof. vm_compute. reflexivity. Qed.

Example normalize_sample_5 :
  normalize_visible_text
    (py "p{a;b;c;d;e}" ++ [10%N] ++ py "keep; this; line" ++ [10%N])
  = (py "keep; this; line").
Proof. vm_compute. reflexivity. Qed.

Example normalize_sample_6 :
  normalize_visible_text
    [10%N; 10%N]
  = [].
Proof. vm_compute. reflexivity. Qed.

Example normalize_sample_7 :
  normalize_visible_text
    (py "one" ++ [8195%N] ++ py "two " ++ [8195%N] ++ py " three")
  = (py "one" ++ [8195%N] ++ py "two " ++ [8195%N] ++ py " three").
Proof. vm_compute. reflexivity. Qed.

Example split_ws_sample_1 :
  str_join (py " ") (str_split_ws
       (py "  a " ++ [9%N; 10%N] ++ py " b" ++ [160%N] ++ py "c" ++ [8195%N]
     ++ py " d  "))
  = (py "a b c d").
Proof. vm_compute. reflexivity. Qed.

Example split_ws_sample_2 :
  str_join (py " ") (str_split_ws
       (py " " ++ [10%N; 9%N] ++ py " "))
  = [].
Proof. vm_compute. reflexivity. Qed.

Example split_ws_sample_3 :
  str_join (py " ") (str_split_ws
       (py "word"))
  = (py "word").
Proof. vm_compute. reflexivity. Qed.

Example splitlines_sample_1 :
  str_splitlines
    (py "a" ++ [13%N; 10%N] ++ py "b" ++ [10%N; 10%N] ++ py "c" ++ [13%N])
  = [(py "a"); (py "b"); []; (py "c")].
Proof. vm_compute. reflexivity. Qed.

Example splitlines_sample_2 :
  str_splitlines
    (py "x" ++ [8233%N] ++ py "y" ++ [30%N] ++ py "z" ++ [10%N])
  = [(py "x"); (py "y"); (py "z")].
Proof. vm_compute. reflexivity. Qed.

Example splitlines_sample_3 :
  str_splitlines
    [10%N]
  = [[]].
Proof. vm_compute. reflexivity. Qed.

Example split_table_sample_1 :
  _split_table (py "public.hexes")
  = (py "public", py "hexes").
Proof. vm_compute. reflexivity. Qed.

Example split_table_sample_2 :
  _split_table (py "cart.user_linked_affiliates")
  = (py "cart", py "user_linked_affiliates").
Proof. vm_compute. reflexivity. Qed.

Example split_table_sample_3 :
  _split_table (py "hexes")
  = (py "public", py "hexes").
Proof. vm_compute. reflexivity. Qed.

Example split_table_sample_4 :
  _split_table (py "a.b.c")
  = (py "a", py "b.c").
Proof. vm_compute. reflexivity. Qed.

Example split_table_sample_5 :
  _split_table (py ".x")
  = ([], py "x").
Proof. vm_compute. reflexivity. Qed.

Example split_table_sample_6 :
  _split_table (py "x.")
  = (py "x", []).
Proof. vm_compute. reflexivity. Qed.
